(** * VALD request pipeline and binary decoder: a shallow embedding

    Sources embedded here:
    - [backend/parsemail.c]     (mail splitter, client registry, request counter)
    - [backend/parserequest.c]  (keyword table, request grammars, abundances)
    - [vald/lib/vald3/src/unkompress3.c]       (record directory, LZW decoder)
    - [vald/lib/vald3/src/vald3_decompress.cpp] (range query over the decoder)

    C strings are modelled as NUL-free [string]s, text files as the [string]
    of their remaining contents, C [int]/[long] values as [Z]. *)

From Stdlib Require Import ZArith QArith Qabs Qround String Ascii List Bool Lia Lqa
  DecimalString DecimalPos.
From stdpp Require Import base list strings gmap.

Open Scope string_scope.

(** ** libc: <ctype.h>, <string.h>, <stdio.h> in the C locale *)
Module CStr.

Definition NUL : ascii := ascii_of_nat 0.
Definition NL : ascii := ascii_of_nat 10.
Definition TAB : ascii := ascii_of_nat 9.
Definition DQ : ascii := ascii_of_nat 34.
Definition SQ : ascii := ascii_of_nat 39.

Definition in_range (lo hi : nat) (c : ascii) : bool :=
  (lo <=? nat_of_ascii c)%nat && (nat_of_ascii c <=? hi)%nat.

Definition isupper (c : ascii) : bool := in_range 65 90 c.
Definition islower (c : ascii) : bool := in_range 97 122 c.
Definition isdigit (c : ascii) : bool := in_range 48 57 c.
Definition isalpha (c : ascii) : bool := isupper c || islower c.
Definition isalnum (c : ascii) : bool := isalpha c || isdigit c.
Definition isblank (c : ascii) : bool := Ascii.eqb c " " || Ascii.eqb c TAB.
Definition isspace (c : ascii) : bool := Ascii.eqb c " " || in_range 9 13 c.

Definition toupper (c : ascii) : ascii :=
  if islower c then ascii_of_nat (nat_of_ascii c - 32) else c.
Definition tolower (c : ascii) : ascii :=
  if isupper c then ascii_of_nat (nat_of_ascii c + 32) else c.

(** Upper-cases every character up to the terminator, in place. *)
Fixpoint str2upper (s : string) : string :=
  match s with
  | EmptyString => EmptyString
  | String c t => String (toupper c) (str2upper t)
  end.

Fixpoint str2lower (s : string) : string :=
  match s with
  | EmptyString => EmptyString
  | String c t => String (tolower c) (str2lower t)
  end.

Definition strlen (s : string) : nat := String.length s.

(** [*s == 0] *)
Definition is_empty (s : string) : bool :=
  match s with
  | EmptyString => true
  | String _ _ => false
  end.

(** [strncmp(a, b, n) == 0]: the first [n] characters agree, or both strings
    end together before that. *)
Fixpoint strncmp0 (a b : string) (n : nat) {struct n} : bool :=
  match n with
  | O => true
  | S n' =>
      match a, b with
      | EmptyString, EmptyString => true
      | String x a', String y b' => Ascii.eqb x y && strncmp0 a' b' n'
      | _, _ => false
      end
  end.

(** [strcmp(a, b) == 0] *)
Definition strcmp0 (a b : string) : bool := String.eqb a b.

(** [s + k] for [k] within the string. *)
Fixpoint str_drop (k : nat) (s : string) : string :=
  match k, s with
  | S k', String _ t => str_drop k' t
  | _, _ => s
  end.

(** The string cut by storing a terminator at offset [k]. *)
Fixpoint str_take (k : nat) (s : string) : string :=
  match k, s with
  | S k', String c t => String c (str_take k' t)
  | _, _ => EmptyString
  end.

(** [s[k]], the terminator when [k] is the length. *)
Fixpoint char_at (k : nat) (s : string) : ascii :=
  match s, k with
  | EmptyString, _ => NUL
  | String c _, O => c
  | String _ t, S k' => char_at k' t
  end.

(** [strchr(s, c)]: offset of the first [c], [None] for NULL. *)
Fixpoint strchr (s : string) (c : ascii) : option nat :=
  match s with
  | EmptyString => None
  | String x t => if Ascii.eqb x c then Some O else option_map S (strchr t c)
  end.

(** [strrchr(s, c)]: offset of the last [c]. *)
Fixpoint strrchr (s : string) (c : ascii) : option nat :=
  match s with
  | EmptyString => None
  | String x t =>
      match strrchr t c with
      | Some k => Some (S k)
      | None => if Ascii.eqb x c then Some O else None
      end
  end.

(** One [fgets(buf, k+1, f)] on a non-exhausted stream: at most [k]
    characters, stopping after a newline; the rest of the stream. *)
Fixpoint fgets_chunk (k : nat) (f : string) : string * string :=
  match k, f with
  | S k', String c t =>
      if Ascii.eqb c NL then (String c EmptyString, t)
      else let (l, r) := fgets_chunk k' t in (String c l, r)
  | _, _ => (EmptyString, f)
  end.

(** [fgets(buf, size, f)]: [None] is NULL (end of file). *)
Definition fgets (size : nat) (f : string) : option (string * string) :=
  match f with
  | EmptyString => None
  | _ => Some (fgets_chunk (size - 1) f)
  end.

(** The lines that successive [fgets(buf, size, f)] calls return until NULL. *)
Fixpoint fgets_lines_from (fuel size : nat) (f : string) : list string :=
  match fuel with
  | O => []
  | S fuel' =>
      match fgets size f with
      | None => []
      | Some (l, rest) => l :: fgets_lines_from fuel' size rest
      end
  end.

Definition fgets_lines (size : nat) (f : string) : list string :=
  fgets_lines_from (String.length f) size f.

(** [atol]: blanks, an optional sign, then decimal digits. *)
Fixpoint atol_digits (s : string) (acc : Z) : Z :=
  match s with
  | String c t =>
      if isdigit c then atol_digits t (10 * acc + Z.of_nat (nat_of_ascii c - 48))
      else acc
  | EmptyString => acc
  end.

Fixpoint atol (s : string) : Z :=
  match s with
  | String c t =>
      if isspace c then atol t
      else if Ascii.eqb c "-" then - atol_digits t 0
      else if Ascii.eqb c "+" then atol_digits t 0
      else atol_digits s 0
  | EmptyString => 0
  end.

(** [%ld] *)
Definition fmt_ld (n : Z) : string := NilZero.string_of_int (Z.to_int n).

Fixpoint zeros (k : nat) : string :=
  match k with
  | O => EmptyString
  | S k' => String "0" (zeros k')
  end.

(** [%0wld]: the sign first, then zeros up to the field width. *)
Definition fmt_0ld (w : nat) (n : Z) : string :=
  let d := NilZero.string_of_uint (N.to_uint (Z.abs_N n)) in
  let sign := if (n <? 0)%Z then "-" else EmptyString in
  sign +:+ zeros (w - String.length sign - String.length d) +:+ d.

Definition fmt_06ld : Z -> string := fmt_0ld 6.

Definition CR : ascii := ascii_of_nat 13.

(** The assignment [s[k] = x], for [k] within the string. *)
Fixpoint str_put (k : nat) (x : ascii) (s : string) : string :=
  match s, k with
  | EmptyString, _ => EmptyString
  | String _ t, O => String x t
  | String c t, S k' => String c (str_put k' x t)
  end.

(** [strstr(s, sub)]: the offset of the first occurrence of [sub] in [s]. *)
Fixpoint strstr (s sub : string) : option nat :=
  if strncmp0 s sub (strlen sub) then Some 0%nat
  else
    match s with
    | EmptyString => None
    | String _ t => option_map S (strstr t sub)
    end.

End CStr.

(** ** valdems.h / valdems_local.h

    The two headers are site configuration and are not part of the sources;
    the programs are embedded over any value of their macros. *)
Class valdems_h := {
  VALD_HOME : string;
  VALD_LOGS_DIR : string;
  VALD_CONFIG : string;
  PERSONAL_CONFIG_DIR : string;
  VALD_FTP_DIR : string;
  VALD_FTP : string;
  PROG_PARSEREQUEST : string;
  PROG_PRESELECT : string;
  PROG_FORMAT : string;
  PROG_HFS_SPLIT : string;
  PROG_POST_HFS_FORMAT : string;
  PRESFORMAT_BIB_FILE : string;
  POST_HFS_BIB_FILE : string;
  SENDMAIL : string;
  BASE64 : string;
  MAX_LINES_PER_FTP : Z;
  MAX_LINES_PER_REQUEST : Z;
  LOG_DEBUGGING : bool
}.

(** ** backend/parsemail.c *)
Module Parsemail.
Import CStr.

(** The characters [compress] keeps. *)
Definition kept (c : ascii) : bool :=
  isalnum c || Ascii.eqb c ":" || Ascii.eqb c "." || Ascii.eqb c ","
  || Ascii.eqb c "-" || Ascii.eqb c "+".

Fixpoint compress_loop (n : nat) (s : string) : string :=
  match n, s with
  | S n', String c t =>
      if Ascii.eqb c "#" then EmptyString
      else if kept c then String c (compress_loop n' t)
      else compress_loop n' t
  | _, _ => EmptyString
  end.

(** [compress(s1, s)]: at most the first 80 characters are looked at. *)
Definition compress (s : string) : string :=
  compress_loop (if (strlen s <? 80)%nat then strlen s else 80%nat) s.

(** The copy loop of [swallow_quotes]: the text copied and the final value
    of [quote]. *)
Fixpoint swallow_copy (s : string) (open_q close_q : ascii) (quote : bool)
  : string * bool :=
  match s with
  | EmptyString => (EmptyString, quote)
  | String c t =>
      if Ascii.eqb c open_q && negb quote then swallow_copy t open_q close_q true
      else if Ascii.eqb c close_q && quote then swallow_copy t open_q close_q false
      else if negb quote then
        let (r, q) := swallow_copy t open_q close_q quote in (String c r, q)
      else swallow_copy t open_q close_q quote
  end.

(** [swallow_quotes(t, s, open_q, close_q)]: the contents of [t] afterwards.
    The call with [t == s] copies downwards and gives the same text. *)
Definition swallow_quotes (s : string) (open_q close_q : ascii) : string :=
  let (t, quote) := swallow_copy s open_q close_q false in
  if quote then EmptyString else t.

Fixpoint blank_non_alpha (s : string) : string :=
  match s with
  | EmptyString => EmptyString
  | String c t => String (if isalpha c then c else " "%char) (blank_non_alpha t)
  end.

(** The client name a [#$] registry line gives: [s[0]] and [s[1]] blanked,
    every non-letter blanked, then [compress]. *)
Definition client_of_comment (s : string) : string :=
  compress (blank_non_alpha (String " " (String " " (str_drop 2 s)))).

(** The test of line 91 on the lower-cased address [s1] of length [l] and
    the lower-cased registry line [s]. *)
Definition address_matches (s1 : string) (l : nat) (s : string) : bool :=
  strncmp0 s1 s (if (l <? strlen s)%nat then l else strlen s).

(** The [while(fgets(s, 160, cl_register))] loop of [CheckClient] over the
    lines of the registry; the result is the return value and [ClientName]. *)
Fixpoint CheckClient_loop (lines : list string) (s1 : string) (l : nat)
  (ClientName : string) : bool * string :=
  match lines with
  | [] => (false, EmptyString)
  | s :: rest =>
      if Ascii.eqb (char_at 0 s) "#" then
        if negb (Ascii.eqb (char_at 1 s) "$") then CheckClient_loop rest s1 l ClientName
        else CheckClient_loop rest s1 l (client_of_comment s)
      else
        if address_matches s1 l (str2lower s) then (true, ClientName)
        else CheckClient_loop rest s1 l ClientName
  end.

Definition CheckClient (cl_register address ClientName : string) : bool * string :=
  let s1 := str2lower address in
  CheckClient_loop (fgets_lines 160 cl_register) s1 (strlen s1) ClientName.

(** Lines 340-353 of [main]: the global register first, then the local one
    when no client name was found; [None] is a register that could not be
    opened.  The result is [ClientName]. *)
Definition authenticate (cl_register cl_register_local : option string)
  (address : string) : string :=
  let ClientName := EmptyString in
  let ClientName :=
    match cl_register with
    | Some reg => snd (CheckClient reg address ClientName)
    | None => ClientName
    end in
  match cl_register_local with
  | Some reg =>
      if is_empty ClientName then
        let ClientName := snd (CheckClient reg address ClientName) in
        if negb (is_empty ClientName) then ClientName +:+ "_local" else ClientName
      else ClientName
  | None => ClientName
  end.

(** A [char] array holding a C string: the bytes as they lie in memory. *)
Definition cbuf := list ascii.

(** The string that starts at offset [k] of the buffer. *)
Fixpoint until_nul (b : list ascii) : string :=
  match b with
  | [] => EmptyString
  | c :: t => if Ascii.eqb c NUL then EmptyString else String c (until_nul t)
  end.

Definition buf_str (k : nat) (b : cbuf) : string := until_nul (drop k b).

(** What [fgets] leaves in the buffer: the line, its terminator, and the
    old bytes behind it. *)
Definition buf_puts (line : string) (b : cbuf) : cbuf :=
  (list_ascii_of_string line ++ NUL :: drop (S (strlen line)) b)%list.

(** Lines 319-320: quoted aliases and aliases in parentheses are dropped. *)
Definition strip_aliases (s6 : string) : string :=
  swallow_quotes (swallow_quotes s6 DQ DQ) "(" ")".

(** Lines 321-325: a terminator is stored at [c] when there is a [>], else
    at [c1] when there is a blank; then at the first new line. *)
Definition terminate (s1 : string) : string :=
  let s1 :=
    match strchr s1 ">", strchr s1 " " with
    | Some c, _ => str_take c s1
    | None, Some c1 => str_take c1 s1
    | None, None => s1
    end in
  match strchr s1 NL with
  | Some c => str_take c s1
  | None => s1
  end.

(** Lines 326-328: [address] as first copied. *)
Definition after_bracket (s1 : string) : string :=
  match strchr s1 "<" with
  | Some c => str_drop (S c) s1
  | None => s1
  end.

(** Lines 333-338: the mail server name and the routes are cleared. *)
Definition trim_route (address : string) : string :=
  let address :=
    match strrchr address ">" with Some c => str_take c address | None => address end in
  let address :=
    match strrchr address ":" with Some c => str_drop (S c) address | None => address end in
  match strrchr address "!" with Some c => str_drop (S c) address | None => address end.

(** Lines 319-338 of [main]: the address taken from the text at [s + 6]. *)
Definition extract_address (s6 : string) : string :=
  trim_route (after_bracket (terminate (strip_aliases s6))).

(** Lines 314-317: continuation lines are read until one holds an [@], a
    line is not indented by five blanks, or the mailbox ends. *)
Fixpoint read_continuation (fuel : nat) (fi : string) (s : cbuf) : string * cbuf :=
  match fuel with
  | O => (fi, s)
  | S fuel' =>
      match fgets 80 fi with
      | None => (fi, s)
      | Some (line, rest) =>
          let s' := buf_puts line s in
          if strncmp0 line "     " 5 then
            match strchr line "@" with
            | Some _ => (rest, s')
            | None => read_continuation fuel' rest s'
            end
          else (rest, s')
      end
  end.

Record state := mkState {
  fi : string;                    (* the unread part of VALD_MAIL *)
  s : cbuf;                       (* char s[81] *)
  n_requests : Z;
  fo : option string;             (* the request file being written, None for NULL *)
  filename : string;
  address : string;
  ClientName : string;
  has_begin_request : bool;
  has_end_request : bool;
  is_mirror : bool;
  process : list string;          (* one entry per fprintf/fputs to the process file *)
  files : gmap string string      (* the request files on disk *)
}.

Section Main.
Context `{valdems_h}.

Definition logs : string := VALD_HOME +:+ VALD_LOGS_DIR.

(** Lines 267-272 and 403-410, compiled in under [LOG_DEBUGGING]. *)
Definition debug_lines (rule : string) (numbers : option (Z * Z)) (st : state)
  : list string :=
  if LOG_DEBUGGING then
    ([ "echo " +:+ rule +:+ " >> " +:+ logs +:+ "/ems_debug.log" +:+ String NL EmptyString;
      "echo Address: " +:+ address st +:+ " >> " +:+ logs +:+ "/ems_debug.log"
        +:+ String NL EmptyString;
      "cat process >> " +:+ logs +:+ "/ems_debug.log" +:+ String NL EmptyString;
      "cat request." +:+ fmt_06ld (n_requests st) +:+ " >> " +:+ logs +:+ "/ems_debug.log"
        +:+ String NL EmptyString;
      "cat job." +:+ fmt_06ld (n_requests st) +:+ " >> " +:+ logs +:+ "/ems_debug.log"
        +:+ String NL EmptyString;
      "cat result." +:+ fmt_06ld (n_requests st) +:+ " >> " +:+ logs +:+ "/ems_debug.log"
        +:+ String NL EmptyString ]
    ++ match numbers with
       | Some (a, b) =>
           [ "cat numbers " +:+ fmt_ld a +:+ " " +:+ fmt_ld b +:+ " >> " +:+ logs
               +:+ "/ems_debug.log" +:+ String NL EmptyString ]
       | None => []
       end)%list
  else [].

(** Lines 258-262 and 390-396: the head of a request's section. *)
Definition section_head (st : state) : list string :=
  [ "############## " +:+ filename st +:+ " #############" +:+ String NL EmptyString;
    "echo ============= " +:+ filename st +:+ " ============ >> " +:+ logs
      +:+ "/requests.log" +:+ String NL EmptyString;
    VALD_HOME +:+ PROG_PARSEREQUEST +:+ " " +:+ filename st +:+ " " +:+ ClientName st;
    " || (echo ERROR: parserequest failed for request " +:+ fmt_ld (n_requests st)
      +:+ "; set ERROR_STATE=1)" +:+ String NL EmptyString;
    "chmod u+x job." +:+ fmt_06ld (n_requests st) +:+ String NL EmptyString ].

(** Lines 276-282 and 413-419: the reply and the requests log. *)
Definition section_reply (st : state) : list string :=
  ((if negb (is_mirror st) || has_begin_request st then
     [ SENDMAIL +:+ " " +:+ address st +:+ " < result." +:+ fmt_06ld (n_requests st);
       " || (echo ERROR: sendmail failed for request " +:+ fmt_ld (n_requests st)
         +:+ "; set ERROR_STATE=1)" +:+ String NL EmptyString ]
   else [])
  ++ [ (if negb (is_mirror st) then "cat " else "head -20 ") +:+ filename st +:+ " >> "
         +:+ logs +:+ "/requests.log" +:+ String NL EmptyString ])%list.

(** Lines 258-282: the section written when the next mail starts. *)
Definition section_at_boundary (st : state) : list string :=
  (section_head st
  ++ [ "./job." +:+ fmt_06ld (n_requests st) +:+ String NL EmptyString;
       "cat job." +:+ fmt_06ld (n_requests st) +:+ " >> " +:+ logs +:+ "/jobs.log"
         +:+ String NL EmptyString ]
  ++ debug_lines "==================" None st
  ++ section_reply st)%list.

(** Lines 390-419: the section written at the end of the mailbox. *)
Definition section_at_end (n_requests_orig : Z) (st : state) : list string :=
  (section_head st
  ++ [ "./job." +:+ fmt_06ld (n_requests st);
       " || (echo ERROR: job failed for request " +:+ fmt_ld (n_requests st)
         +:+ "; set ERROR_STATE=1)" +:+ String NL EmptyString;
       "cat job." +:+ fmt_06ld (n_requests st) +:+ " >> " +:+ logs +:+ "/jobs.log"
         +:+ String NL EmptyString ]
  ++ debug_lines "===================" (Some (n_requests_orig, n_requests st)) st
  ++ section_reply st)%list.

(** Lines 244-292: a line that starts with [From ]. *)
Definition new_mail (st : state) : state :=
  let st1 :=
    match fo st with
    | None => st
    | Some _ =>
        if negb (has_begin_request st) then
          mkState (fi st) (s st) (n_requests st - 1) None (filename st) (address st)
            (ClientName st) false false false (process st)
            (delete (filename st) (files st))
        else
          mkState (fi st) (s st) (n_requests st) None (filename st) (address st)
            (ClientName st) false false false
            (process st ++ section_at_boundary st)%list (files st)
    end in
  let n := (n_requests st1 + 1)%Z in
  let name := "request." +:+ fmt_06ld n in
  mkState (fi st1) (s st1) n (Some name) name EmptyString (ClientName st1)
    (has_begin_request st1) (has_end_request st1) (is_mirror st1) (process st1)
    (<[name := EmptyString]> (files st1)).

(** Lines 293-365: a line that starts with [From: ].  The boolean is true
    when the iteration ends with [continue]. *)
Definition from_header (cl_register cl_register_local : option string) (st : state)
  : state * bool :=
  let (fi', s') :=
    match strchr (buf_str 0 (s st)) "@" with
    | None => read_continuation (strlen (fi st)) (fi st) (s st)
    | Some _ => (fi st, s st)
    end in
  let address' := extract_address (buf_str 6 s') in
  let ClientName' := authenticate cl_register cl_register_local address' in
  if is_empty ClientName' then
    (mkState fi' s' (n_requests st - 1) None (filename st) address' ClientName'
       false false false (process st) (delete (filename st) (files st)), true)
  else
    (mkState fi' s' (n_requests st) (fo st) (filename st) address' ClientName'
       (has_begin_request st) (has_end_request st)
       (if strcmp0 ClientName' "VALDMirrorSite" then true else is_mirror st)
       (process st) (files st), false).

(** Lines 366-375: the line is copied to the open request file. *)
Definition copy_line (st : state) : state :=
  match fo st with
  | None => st
  | Some name =>
      let line := buf_str 0 (s st) in
      let s1 := str2lower (compress line) in
      mkState (fi st) (s st) (n_requests st) (fo st) (filename st) (address st)
        (ClientName st)
        (if strncmp0 s1 "beginrequest" (strlen "beginrequest") then true
         else has_begin_request st)
        (if strncmp0 s1 "endrequest" (strlen "endrequest") then true
         else has_end_request st)
        (is_mirror st) (process st)
        (<[name := default EmptyString (files st !! name) +:+ line]> (files st))
  end.

(** One turn of the main loop after [fgets] stored a line in [s]. *)
Definition loop_body (cl_register cl_register_local : option string) (st : state)
  : state :=
  let line := buf_str 0 (s st) in
  if strncmp0 line "From " 5 then copy_line (new_mail st)
  else if strncmp0 line "From: " 6 then
    let (st', continue) := from_header cl_register cl_register_local st in
    if continue then st' else copy_line st'
  else copy_line st.

(** Lines 242-376: [while(fgets(s, 80, fi) != NULL)]. *)
Fixpoint main_loop (fuel : nat) (cl_register cl_register_local : option string)
  (st : state) : state :=
  match fuel with
  | O => st
  | S fuel' =>
      match fgets 80 (fi st) with
      | None => st
      | Some (line, rest) =>
          let st1 :=
            mkState rest (buf_puts line (s st)) (n_requests st) (fo st) (filename st)
              (address st) (ClientName st) (has_begin_request st)
              (has_end_request st) (is_mirror st) (process st) (files st) in
          main_loop fuel' cl_register cl_register_local
            (loop_body cl_register cl_register_local st1)
      end
  end.

(** Lines 377-422: the mail still open when the mailbox ends. *)
Definition last_mail (n_requests_orig : Z) (st : state) : state :=
  match fo st with
  | None => st
  | Some _ =>
      if negb (has_begin_request st) then
        mkState (fi st) (s st) (n_requests st - 1) None (filename st) (address st)
          (ClientName st) (has_begin_request st) (has_end_request st) (is_mirror st)
          (process st) (delete (filename st) (files st))
      else
        mkState (fi st) (s st) (n_requests st) None (filename st) (address st)
          (ClientName st) (has_begin_request st) (has_end_request st) (is_mirror st)
          (process st ++ section_at_end n_requests_orig st)%list (files st)
  end.

(** What the driver reads when it starts. *)
Record environment := {
  VALD_MAIL : option string;
  CLIENTS_REGISTER : option string;
  CLIENTS_REGISTER_LOCAL : option string;
  LAST_SUBMITTED_REQUEST : option string
}.

(** [get_last_request_ID]: [-1] when the file cannot be opened. *)
Definition get_last_request_ID (env : environment) : Z :=
  match LAST_SUBMITTED_REQUEST env with
  | Some last =>
      atol (match fgets 20 last with Some (buffer, _) => buffer | None => EmptyString end)
  | None => (-1)%Z
  end.

(** Lines 221-223. *)
Definition initial_counter (env : environment) : Z :=
  let n := get_last_request_ID env in if (n <? 0)%Z then 0%Z else n.

(** How a run of [main] ends. *)
Inductive run :=
  | NoMail                          (* line 180: nothing written, nothing persisted *)
  | NoRegisters                     (* line 215 *)
  | ClosedNull (st : state)         (* line 423 with cl_register == NULL *)
  | Persisted (st : state) (process_file : list string) (last_request : Z).

Definition main (env : environment) : run :=
  match VALD_MAIL env with
  | None => NoMail
  | Some mail =>
      match CLIENTS_REGISTER env, CLIENTS_REGISTER_LOCAL env with
      | None, None => NoRegisters
      | cl_register, cl_register_local =>
          let n := initial_counter env in
          let st0 :=
            mkState mail [] n None EmptyString EmptyString EmptyString false false false
              [ "#!/bin/csh" +:+ String NL EmptyString;
                "set ERROR_STATE=0" +:+ String NL EmptyString ] ∅ in
          let st := main_loop (S (strlen mail)) cl_register cl_register_local st0 in
          let st := last_mail n st in
          match cl_register with
          | None => ClosedNull st
          | Some _ =>
              Persisted st
                (process st ++ [ "exit $ERROR_STATE" +:+ String NL EmptyString ])%list
                (n_requests st)
          end
      end
  end.

(** The requests committed by a run: the section heads in the process file. *)
Definition committed (process_file : list string) : nat :=
  length (filter (fun l => strncmp0 l "############## " 15 = true) process_file).

(** The counter that [put_last_request_ID] wrote, if the run came to it. *)
Definition persisted (r : run) : option Z :=
  match r with
  | Persisted _ _ n => Some n
  | _ => None
  end.

Definition process_file_of (r : run) : list string :=
  match r with
  | Persisted _ p _ => p
  | ClosedNull st => process st
  | _ => []
  end.

End Main.

End Parsemail.

(** ** C [double] and [float] values

    A value is an exact rational, an infinity or a NaN; the comparisons are
    those of C on such values (every comparison with a NaN is false). *)
Module Ieee.

Inductive double := Finite (q : Q) | PInf | NInf | NaN.

Definition float := double.

(** [a < b] *)
Definition dlt (a b : double) : bool :=
  match a, b with
  | NaN, _ | _, NaN => false
  | _, NInf => false
  | NInf, _ => true
  | PInf, _ => false
  | Finite _, PInf => true
  | Finite x, Finite y => negb (Qle_bool y x)
  end.

(** [a <= b] *)
Definition dle (a b : double) : bool :=
  match a, b with
  | NaN, _ | _, NaN => false
  | NInf, _ => true
  | _, PInf => true
  | _, NInf => false
  | PInf, _ => false
  | Finite x, Finite y => Qle_bool x y
  end.

(** [a > b] and [a >= b] *)
Definition dgt (a b : double) : bool := dlt b a.
Definition dge (a b : double) : bool := dle b a.

Definition zero : double := Finite 0.

(** The value of a binary interchange format with [ebits] exponent bits and
    [mbits] fraction bits, from its bit pattern. *)
Definition of_bits (ebits mbits : Z) (bits : Z) : double :=
  let m := Z.land bits (Z.ones mbits) in
  let e := Z.land (Z.shiftr bits mbits) (Z.ones ebits) in
  let neg := Z.testbit bits (ebits + mbits) in
  let bias := (Z.ones (ebits - 1) + mbits)%Z in
  if (e =? Z.ones ebits)%Z then
    if (m =? 0)%Z then (if neg then NInf else PInf) else NaN
  else
    let mant := if (e =? 0)%Z then m else (m + Z.shiftl 1 mbits)%Z in
    let ex := ((if (e =? 0)%Z then 1 else e) - bias)%Z in
    let mant := if neg then (- mant)%Z else mant in
    Finite (if (0 <=? ex)%Z then inject_Z (mant * 2 ^ ex)
            else Qmake mant (Z.to_pos (2 ^ (- ex)))).

Definition double_of_bits : Z -> double := of_bits 11 52.
Definition float_of_bits : Z -> float := of_bits 8 23.

(** The unsigned integer whose bytes, least significant first, are [bs]. *)
Fixpoint le_bytes (bs : list Z) : Z :=
  match bs with
  | [] => 0
  | b :: t => (b + 256 * le_bytes t)%Z
  end.

(** The integer a host reads from [bs] as they lie in memory. *)
Definition host_word (big_endian : bool) (bs : list Z) : Z :=
  le_bytes (if big_endian then rev bs else bs).

(** The casts of [ADDLINE] applied to the bytes of a field. *)
Definition cast_double (big_endian : bool) (bs : list Z) : double :=
  double_of_bits (host_word big_endian bs).
Definition cast_float (big_endian : bool) (bs : list Z) : float :=
  float_of_bits (host_word big_endian bs).
Definition cast_int (big_endian : bool) (bs : list Z) : Z :=
  let u := host_word big_endian bs in
  if (u <? 2 ^ 31)%Z then u else (u - 2 ^ 32)%Z.

End Ieee.

(** ** libc conversions between text and [double]

    [strtod] reads a number at the start of a string (after blanks) and gives
    its value and the text behind it; [fmt_lg] and [fmt_2f] are what [printf]
    writes for [%lg] and [%.2f]. *)
Class libc_float := {
  strtod : string -> option (Ieee.double * string);
  fmt_lg : Ieee.double -> string;
  fmt_2f : Ieee.double -> string
}.

(** ** backend/parserequest.c *)
Module Parserequest.
Import CStr Ieee.

(** The global [int] variables of lines 40-58. *)
Inductive flag :=
  | PersonalConfiguration | LongFormat | HaveRadiativeDamping | HaveStarkDamping
  | HaveVanderWaalsDamping | HaveLande | HaveTermDesignation | ExtendedWaals
  | ZeemanPattern | StarkBroadening | FTPretrieval | Energy_in_inv_cm
  | Wavelength_in_vac | Wavelength_units | Isotopic_scaling_of_gf | HFS_splitting.

#[global] Instance flag_eq_dec : EqDecision flag.
Proof. solve_decision. Defined.

(** Their initialisers. *)
Definition initial_flags (f : flag) : Z :=
  match f with
  | Isotopic_scaling_of_gf => 1
  | _ => 0
  end.

(** The state of the program: its globals, the job file [fo] as the list of
    the texts written to it, and the files it reads and writes. *)
Record pstate := mkP {
  vars : flag -> Z;
  Client_Name : string;
  Personal_VALD_CONFIG : string;
  fo : list string;
  config_dir : gmap string string;   (* VALD_HOME PERSONAL_CONFIG_DIR, by file name *)
  default_config : option string;    (* VALD_HOME VALD_CONFIG, None when it cannot be opened *)
  config_dir_writable : bool;        (* whether fopen(file, wt) succeeds there *)
  cwd : gmap string string           (* files written in the working directory *)
}.

Definition assign (f : flag) (v : Z) (st : pstate) : pstate :=
  mkP (fun x => if decide (x = f) then v else vars st x) (Client_Name st)
    (Personal_VALD_CONFIG st) (fo st) (config_dir st) (default_config st)
    (config_dir_writable st) (cwd st).

Definition fprintf_fo (lines : list string) (st : pstate) : pstate :=
  mkP (vars st) (Client_Name st) (Personal_VALD_CONFIG st) (fo st ++ lines)%list
    (config_dir st) (default_config st) (config_dir_writable st) (cwd st).

Definition write_config (name content : string) (st : pstate) : pstate :=
  mkP (vars st) (Client_Name st) (Personal_VALD_CONFIG st) (fo st)
    (<[name := content]> (config_dir st)) (default_config st)
    (config_dir_writable st) (cwd st).

Definition write_cwd (name content : string) (st : pstate) : pstate :=
  mkP (vars st) (Client_Name st) (Personal_VALD_CONFIG st) (fo st) (config_dir st)
    (default_config st) (config_dir_writable st) (<[name := content]> (cwd st)).

Definition nl : string := String NL EmptyString.

(** A text between double quotes. *)
Definition quoted (s : string) : string := String DQ s +:+ String DQ EmptyString.

Definition kept (c : ascii) : bool :=
  isalnum c || Ascii.eqb c ":" || Ascii.eqb c "." || Ascii.eqb c ","
  || Ascii.eqb c "-" || Ascii.eqb c "+".

Fixpoint compress_loop (n : nat) (s : string) : string :=
  match n, s with
  | S n', String c t =>
      if Ascii.eqb c "#" then EmptyString
      else if kept c then String c (compress_loop n' t)
      else compress_loop n' t
  | _, _ => EmptyString
  end.

(** [compress(s1, s, nn)] *)
Definition compress (s : string) (nn : nat) : string :=
  compress_loop (if (strlen s <? nn)%nat then strlen s else nn) s.

(** Statements that may leave the function: [Return] is a [return s1]. *)
Inductive ctl (A : Type) := Next (a : A) | Return (a : A).
Arguments Next {A} a.
Arguments Return {A} a.

Definition and_then {A} (c : ctl A) (f : A -> ctl A) : ctl A :=
  match c with
  | Next a => f a
  | Return a => Return a
  end.

Definition finish {A} (c : ctl A) : A :=
  match c with
  | Next a => a
  | Return a => a
  end.

Notation "c >>> f" := (and_then c f) (at level 50, left associativity).

(** The token [s1] and the program state. *)
Definition kw := (string * pstate)%type.

(** [if(!strncmp(str2upper(s1), KEY, n)) { f = v; *s1 = 0; }] *)
Definition keyword (KEY : string) (n : nat) (f : flag) (v : Z) (k : kw) : ctl kw :=
  let s1 := str2upper (fst k) in
  if strncmp0 s1 KEY n then Next (EmptyString, assign f v (snd k))
  else Next (s1, snd k).

(** Lines 168-175. *)
Definition long_short (k : kw) : ctl kw :=
  let s1 := str2upper (fst k) in
  if strncmp0 s1 "LONGFORMAT" 4 then Next (EmptyString, assign LongFormat 1 (snd k))
  else
    let s1 := str2upper s1 in
    if strncmp0 s1 "SHORTFORMAT" 5 then Next (EmptyString, assign LongFormat 0 (snd k))
    else Next (s1, snd k).

Definition config_error (number : Z) : list string :=
  [ "echo ERROR: Wrong path to personal configuration >> result." +:+ fmt_06ld number +:+ nl;
    "echo        Contact VALD administrator >> result." +:+ fmt_06ld number +:+ nl ].

(** Lines 178-267; [malloc] and [opendir] are taken to succeed. *)
Definition personal (number : Z) (k : kw) : ctl kw :=
  let s1 := str2upper (fst k) in
  if strncmp0 s1 "PERSONALCONFIGURATION" 6 then
    let st := assign PersonalConfiguration 1 (snd k) in
    let s1 := EmptyString in
    match config_dir st !! Personal_VALD_CONFIG st with
    | Some _ => Return (s1, st)
    | None =>
        match default_config st with
        | None =>
            Return (s1, assign PersonalConfiguration 0 (fprintf_fo (config_error number) st))
        | Some text =>
            if negb (config_dir_writable st) then
              Return (s1, assign PersonalConfiguration 0
                            (fprintf_fo (config_error number) st))
            else
              let copy := String.concat EmptyString (fgets_lines 255 text) in
              Next (s1, fprintf_fo
                          [ "echo Configuration file " +:+ Personal_VALD_CONFIG st
                              +:+ " has been created >> result." +:+ fmt_06ld number +:+ nl ]
                          (write_config (Personal_VALD_CONFIG st) copy st))
        end
    end
  else Next (s1, snd k).

(** Lines 270-275. *)
Definition default_configuration (k : kw) : ctl kw :=
  let s1 := str2upper (fst k) in
  if strncmp0 s1 "DEFAULTCONFIGURATION" 10 then
    Return (EmptyString, assign PersonalConfiguration 0 (snd k))
  else Next (s1, snd k).

(** [SetKeyword(s1, fo, number)]: the token afterwards and the new state. *)
Definition SetKeyword (number : Z) (k : kw) : kw :=
  finish (Next k
    >>> long_short
    >>> personal number
    >>> default_configuration
    >>> keyword "HAVERAD" 7 HaveRadiativeDamping 1
    >>> keyword "HAVESTARK" 9 HaveStarkDamping 1
    >>> keyword "HAVEWAALS" 9 HaveVanderWaalsDamping 1
    >>> keyword "HAVELANDE" 9 HaveLande 1
    >>> keyword "HAVETERM" 8 HaveTermDesignation 1
    >>> keyword "DEFAULTWAALS" 8 ExtendedWaals 0
    >>> keyword "EXTENDEDWAALS" 9 ExtendedWaals 1
    >>> keyword "ZEEMANPATTERN" 6 ZeemanPattern 1
    >>> keyword "STARKBROADENING" 5 StarkBroadening 1
    >>> keyword "VIAFTP" 6 FTPretrieval 1
    >>> keyword "ENERGYUNITEV" 11 Energy_in_inv_cm 0
    >>> keyword "ENERGYUNIT1CM" 12 Energy_in_inv_cm 1
    >>> keyword "MEDIUMAIR" 7 Wavelength_in_vac 0
    >>> keyword "MEDIUMVACUUM" 7 Wavelength_in_vac 1
    >>> keyword "WAVEUNITANGSTROM" 9 Wavelength_units 0
    >>> keyword "WAVEUNITNM" 9 Wavelength_units 1
    >>> keyword "WAVEUNIT1CM" 10 Wavelength_units 2
    >>> keyword "ISOTOPICSCALINGON" 17 Isotopic_scaling_of_gf 1
    >>> keyword "ISOTOPICSCALINGOFF" 18 Isotopic_scaling_of_gf 0
    >>> keyword "HFSSPLITTING" 8 HFS_splitting 1
    >>> keyword "NOHFSSPLITTING" 10 HFS_splitting 0).

(** The steps of [SetKeyword] behind [PERSONALCONFIGURATION]. *)
Definition later_steps (c : ctl kw) : ctl kw :=
  c >>> default_configuration
    >>> keyword "HAVERAD" 7 HaveRadiativeDamping 1
    >>> keyword "HAVESTARK" 9 HaveStarkDamping 1
    >>> keyword "HAVEWAALS" 9 HaveVanderWaalsDamping 1
    >>> keyword "HAVELANDE" 9 HaveLande 1
    >>> keyword "HAVETERM" 8 HaveTermDesignation 1
    >>> keyword "DEFAULTWAALS" 8 ExtendedWaals 0
    >>> keyword "EXTENDEDWAALS" 9 ExtendedWaals 1
    >>> keyword "ZEEMANPATTERN" 6 ZeemanPattern 1
    >>> keyword "STARKBROADENING" 5 StarkBroadening 1
    >>> keyword "VIAFTP" 6 FTPretrieval 1
    >>> keyword "ENERGYUNITEV" 11 Energy_in_inv_cm 0
    >>> keyword "ENERGYUNIT1CM" 12 Energy_in_inv_cm 1
    >>> keyword "MEDIUMAIR" 7 Wavelength_in_vac 0
    >>> keyword "MEDIUMVACUUM" 7 Wavelength_in_vac 1
    >>> keyword "WAVEUNITANGSTROM" 9 Wavelength_units 0
    >>> keyword "WAVEUNITNM" 9 Wavelength_units 1
    >>> keyword "WAVEUNIT1CM" 10 Wavelength_units 2
    >>> keyword "ISOTOPICSCALINGON" 17 Isotopic_scaling_of_gf 1
    >>> keyword "ISOTOPICSCALINGOFF" 18 Isotopic_scaling_of_gf 0
    >>> keyword "HFSSPLITTING" 8 HFS_splitting 1
    >>> keyword "NOHFSSPLITTING" 10 HFS_splitting 0.

(** The table of lines 398-408. *)
Definition elements : list string :=
  [ "H "; "HE"; "LI"; "BE"; "B "; "C "; "N "; "O "; "F "; "NE";
    "NA"; "MG"; "AL"; "SI"; "P "; "S "; "CL"; "AR"; "K "; "CA";
    "SC"; "TI"; "V "; "CR"; "MN"; "FE"; "CO"; "NI"; "CU"; "ZN";
    "GA"; "GE"; "AS"; "SE"; "BR"; "KR"; "RB"; "SR"; "Y "; "ZR";
    "NB"; "MO"; "TC"; "RU"; "RH"; "PD"; "AG"; "CD"; "IN"; "SN";
    "SB"; "TE"; "I "; "XE"; "CS"; "BA"; "LA"; "CE"; "PR"; "ND";
    "PM"; "SM"; "EU"; "GD"; "TB"; "DY"; "HO"; "ER"; "TM"; "YB";
    "LU"; "HF"; "TA"; "W "; "RE"; "OS"; "IR"; "PT"; "AU"; "HG";
    "TL"; "PB"; "BI"; "PO"; "AT"; "RN"; "FR"; "RA"; "AC"; "TH";
    "PA"; "U "; "NP"; "PU"; "AM"; "CM"; "BK"; "CF"; "ES" ].

Fixpoint find_element (elname : string) (table : list string) (i : Z) : option Z :=
  match table with
  | [] => None
  | e :: rest =>
      if strncmp0 elname e 2 then Some (i + 1)%Z else find_element elname rest (i + 1)%Z
  end.

(** [GetElementNumber(elname)]: the return value and [elname] afterwards. *)
Definition GetElementNumber (elname : string) : Z * string :=
  let elname := str2upper elname in
  match find_element elname elements 0 with
  | Some k =>
      (k, if (1 <? strlen elname)%nat then
            match elname with
            | String a (String b t) => String a (String (tolower b) t)
            | _ => elname
            end
          else elname)
  | None => ((-1)%Z, elname)
  end.

(** The pointer [next] after it was moved behind the next comma; the known
    branches turn a pointer to the terminator into NULL. *)
Definition after_comma (to_null : bool) (next : string) : option string :=
  match strchr next "," with
  | None => None
  | Some c =>
      let next := str_drop (S c) next in
      if to_null && is_empty next then None else Some next
  end.

Section WithLibc.
Context `{libc_float}.

(** [sscanf(s, "%lg", &abn)]: [abn] afterwards. *)
Definition scan_abn (s : string) (abn : double) : double :=
  match strtod s with
  | Some (v, _) => v
  | None => abn
  end.

(** The last lines of [CheckAbund], for an unknown element name. *)
Definition unknown_element (next : string) : option string * string :=
  (after_comma false next, str_take 3 next).

(** [CheckAbund(next, outs)] for a non-NULL [next]: the pointer returned and
    [outs].  [abn] is the value the uninitialised local holds on entry. *)
Definition CheckAbund (abn : double) (next : string) : option string * string :=
  if Ascii.eqb (char_at 1 next) ":" then
    let '(num, el) := GetElementNumber (String (char_at 0 next) " ") in
    if (0 <? num)%Z then
      let abn := scan_abn (str_drop 2 next) abn in
      (after_comma true next,
       String SQ (str_take 1 el) +:+ ":" +:+ fmt_2f abn +:+ String SQ ",")
    else unknown_element next
  else if strncmp0 next "MH:" 3 || strncmp0 next "m/h:" 4 then
    let abn := scan_abn (str_drop 3 next) abn in
    (after_comma true next, String SQ "M/H:" +:+ fmt_2f abn +:+ String SQ ",")
  else if Ascii.eqb (char_at 2 next) ":" then
    let '(num, el) :=
      GetElementNumber (String (char_at 0 next) (String (char_at 1 next) EmptyString)) in
    if (0 <? num)%Z then
      let abn := scan_abn (str_drop 3 next) abn in
      (after_comma true next,
       String SQ el +:+ ":" +:+ fmt_2f abn +:+ String SQ ",")
    else unknown_element next
  else unknown_element next.

Definition EXIT_SUCCESS : Z := 0.
Definition EXIT_FAILURE : Z := 1.

(** [sscanf(s1, "%lg%*1s%lg", &a, &b) == 2]: a number, one character that is
    not a blank, a number. *)
Fixpoint skip_blanks (s : string) : string :=
  match s with
  | String c t => if isspace c then skip_blanks t else s
  | EmptyString => s
  end.

Definition scan_pair (s1 : string) : option (double * double) :=
  match strtod s1 with
  | None => None
  | Some (a, r) =>
      match skip_blanks r with
      | EmptyString => None
      | String _ r' =>
          match strtod r' with
          | Some (b, _) => Some (a, b)
          | None => None
          end
      end
  end.

(** The first character is no digit, point or sign (lines 638, 809, 995). *)
Definition not_a_number (s1 : string) : bool :=
  let c := char_at 0 s1 in
  negb (isdigit c) && negb (Ascii.eqb c ".") && negb (Ascii.eqb c "+")
  && negb (Ascii.eqb c "-").

Section Emit.
Context `{valdems_h}.

Definition result_file (number : Z) : string := "result." +:+ fmt_06ld number.

(** The thirteen [%d] of the options line. *)
Definition options (st : pstate) : string :=
  String.concat " "
    (map fmt_ld
       [ (vars st LongFormat + 3 * vars st Energy_in_inv_cm)%Z;
         vars st HaveRadiativeDamping; vars st HaveStarkDamping;
         vars st HaveVanderWaalsDamping; vars st HaveLande;
         vars st HaveTermDesignation; vars st ExtendedWaals; vars st ZeemanPattern;
         vars st StarkBroadening; vars st Wavelength_in_vac; vars st Wavelength_units;
         vars st Isotopic_scaling_of_gf; vars st HFS_splitting ]) +:+ nl.

(** Lines 665-684: the configuration file and the options. *)
Definition config_lines (st : pstate) : string :=
  (if (vars st PersonalConfiguration =? 0)%Z then
     nl +:+ String SQ (VALD_HOME +:+ VALD_CONFIG) +:+ String SQ nl
   else
     nl +:+ String SQ (VALD_HOME +:+ PERSONAL_CONFIG_DIR +:+ "/" +:+ Personal_VALD_CONFIG st)
       +:+ String SQ nl)
  +:+ options st.

Definition max_lines (st : pstate) : Z :=
  if (vars st FTPretrieval =? 0)%Z then MAX_LINES_PER_REQUEST else MAX_LINES_PER_FTP.

(** Lines 697-714 and 746-763: delivery through the FTP directory. *)
Definition ftp_delivery (bib : string) (number : Z) (st : pstate) : list string :=
  let out := Client_Name st +:+ "." +:+ fmt_06ld number in
  let res := " >> " +:+ result_file number +:+ nl in
  [ "gzip " +:+ out +:+ nl;
    "mv " +:+ out +:+ ".gz " +:+ VALD_FTP_DIR +:+ nl;
    "chmod a+r " +:+ VALD_FTP_DIR +:+ "/" +:+ out +:+ ".gz" +:+ nl;
    "mv " +:+ bib +:+ " " +:+ out +:+ ".bib" +:+ nl;
    "gzip " +:+ out +:+ ".bib" +:+ nl;
    "mv " +:+ out +:+ ".bib.gz " +:+ VALD_FTP_DIR +:+ nl;
    "chmod a+r " +:+ VALD_FTP_DIR +:+ "/" +:+ out +:+ ".bib.gz" +:+ nl;
    "echo VALD processed your request number " +:+ fmt_ld number +:+ res;
    "echo Results can be retrieved with a Web browser at" +:+ res;
    "echo " +:+ VALD_FTP +:+ "/" +:+ out +:+ ".gz" +:+ res;
    "echo " +:+ VALD_FTP +:+ "/" +:+ out +:+ ".bib.gz" +:+ res;
    "echo This link will be valid for 48 hours only" +:+ res ].

(** Lines 725-736 and 771-782: delivery inside the reply. *)
Definition inline_delivery (bib : string) (number : Z) (st : pstate) : list string :=
  let out := Client_Name st +:+ "." +:+ fmt_06ld number in
  let res := " >> " +:+ result_file number +:+ nl in
  [ "echo " +:+ quoted "--==MailSection==" +:+ res;
    "mv " +:+ bib +:+ " " +:+ out +:+ ".bib" +:+ nl;
    "gzip " +:+ out +:+ ".bib" +:+ nl;
    "echo " +:+ quoted ("Content-Disposition: attachment; filename=" +:+ out +:+ ".bib.gz;")
      +:+ res;
    "echo " +:+ quoted "Content-Type: application/octet-stream" +:+ res;
    "echo " +:+ quoted "Content-Transfer-Encoding: base64" +:+ res;
    "echo " +:+ quoted EmptyString +:+ res;
    BASE64 +:+ " " +:+ out +:+ ".bib.gz" +:+ res;
    "echo " +:+ quoted "--===MailSection==--" +:+ res;
    "rm " +:+ out +:+ ".bib.gz" +:+ nl ].

(** Lines 687-785: the job lines of an accepted [ExtractAll] request. *)
Definition extract_all_job (pres_in : string) (number : Z) (st : pstate) : list string :=
  let hfs := negb (vars st HFS_splitting =? 0)%Z in
  let ftp := negb (vars st FTPretrieval =? 0)%Z in
  let source :=
    VALD_HOME +:+ PROG_PRESELECT +:+ " < " +:+ pres_in +:+ " | "
    +:+ (if hfs then
           VALD_HOME +:+ PROG_FORMAT +:+ " | " +:+ VALD_HOME +:+ PROG_HFS_SPLIT +:+ " | ("
           +:+ VALD_HOME +:+ PROG_POST_HFS_FORMAT
         else "(" +:+ VALD_HOME +:+ PROG_FORMAT) in
  let sink :=
    if ftp then " > " +:+ Client_Name st +:+ "." +:+ fmt_06ld number
    else " >> " +:+ result_file number in
  let bib := if hfs then POST_HFS_BIB_FILE else PRESFORMAT_BIB_FILE in
  ((source +:+ sink +:+ ") >>& err.log" +:+ nl)
   :: (if ftp then ftp_delivery bib number st else inline_delivery bib number st)
   ++ [ "rm " +:+ pres_in +:+ nl ])%list.

(** The banners written to the job file; each becomes a line of the result. *)
Definition banner (text : string) (number : Z) : string :=
  "echo " +:+ text +:+ " >> " +:+ result_file number +:+ nl.

(** The loop of [ExtractAll] over the lines [fgets(s, 80, fi)] returns: the
    return value and the state. *)
Fixpoint ExtractAll_loop (lines : list string) (pres_in : string) (number : Z)
  (st : pstate) : Z * pstate :=
  match lines with
  | [] =>
      (EXIT_FAILURE,
       fprintf_fo [ banner "FAILURE: Cannot read wavelength range" number;
                    "rm " +:+ pres_in +:+ nl ] st)
  | s :: rest =>
      let (s1, st) := SetKeyword number (compress s 80, st) in
      if is_empty s1 then ExtractAll_loop rest pres_in number st
      else if not_a_number s1 then
        ExtractAll_loop rest pres_in number
          (fprintf_fo [ banner ("WARNING: Unknown option: " +:+ s1 +:+ " (ignored)") number ] st)
      else
        match scan_pair s1 with
        | None =>
            (EXIT_FAILURE,
             fprintf_fo [ banner "FAILURE: Cannot read wavelength range" number ] st)
        | Some (wlleft, wlright) =>
            if dgt wlleft wlright || dle wlleft zero then
              (EXIT_FAILURE,
               fprintf_fo [ banner "FAILURE: Bad wavelength range" number ] st)
            else
              let text :=
                fmt_lg wlleft +:+ "," +:+ fmt_lg wlright +:+ nl
                +:+ fmt_ld (max_lines st) +:+ nl +:+ config_lines st in
              (EXIT_SUCCESS,
               fprintf_fo (extract_all_job pres_in number st) (write_cwd pres_in text st))
        end
  end.

(** [ExtractAll(fi, fo, number)] with [fi] the unread part of the request. *)
Definition ExtractAll (fi : string) (number : Z) (st : pstate) : Z * pstate :=
  ExtractAll_loop (fgets_lines 80 fi) ("pres_in." +:+ fmt_06ld number) number st.

(** The inner loop of lines 1140-1157 on one line of abundances: the column
    [i], the texts written to [select.input] and the job file. *)
Fixpoint abundance_tokens (fuel : nat) (abn : double) (next : option string)
  (number : Z) (i : Z) (fo1 fo : list string) : Z * list string * list string :=
  match fuel, next with
  | S fuel', Some nx =>
      let '(next', outs) := CheckAbund abn nx in
      if (5 <=? strlen outs)%nat then
        let '(fo1, i) := if (66 <? i)%Z then ((fo1 ++ [nl])%list, 0%Z) else (fo1, i) in
        abundance_tokens fuel' abn next' number (i + Z.of_nat (strlen outs))%Z
          (fo1 ++ [outs])%list fo
      else
        abundance_tokens fuel' abn next' number i fo1
          (fo ++ [ banner ("WARNING: Never heard of element: " +:+ outs) number ])%list
  | _, _ => (i, fo1, fo)
  end.

(** Lines 1132-1158: the lines [fgets(s, 320, fi)] returns, up to the end
    of the request. *)
Fixpoint abundance_lines (lines : list string) (abn : double) (number : Z) (i : Z)
  (fo1 : list string) (st : pstate) : Z * list string * pstate :=
  match lines with
  | [] => (i, fo1, st)
  | s :: rest =>
      let (s1, st) := SetKeyword number (compress s 320, st) in
      if is_empty s1 then abundance_lines rest abn number i fo1 st
      else if strncmp0 s1 "ENDREQUEST" (strlen "ENDREQUEST") then (i, fo1, st)
      else
        let '(i, fo1, fo') :=
          abundance_tokens (S (strlen s1)) abn (Some s1) number i fo1 (fo st) in
        abundance_lines rest abn number i fo1
          (mkP (vars st) (Client_Name st) (Personal_VALD_CONFIG st) fo' (config_dir st)
             (default_config st) (config_dir_writable st) (cwd st))
  end.

(** Lines 1131-1160 of [ExtractStellar]: the abundance block, from [i = 0]
    to the closing ['END'].  [fi] is the unread part of the request and
    [fo1] what was written to [select.input] before. *)
Definition ExtractStellar_abundances (fi : string) (abn : double) (number : Z)
  (fo1 : list string) (st : pstate) : list string * pstate :=
  let '(i, fo1, st) := abundance_lines (fgets_lines 320 fi) abn number 0 fo1 st in
  let fo1 := if (66 <? i)%Z then (fo1 ++ [nl])%list else fo1 in
  ((fo1 ++ [ String SQ "END" +:+ String SQ nl ])%list, st).

End Emit.

End WithLibc.

(** *** More of parserequest.c *)

(** [while (strchr(string, c)) { *strchr(string, c) = ' '; }] *)
Fixpoint blank_each (fuel : nat) (c : ascii) (s : string) : string :=
  match fuel with
  | O => s
  | S fuel' =>
      match strchr s c with
      | Some k => blank_each fuel' c (str_put k " " s)
      | None => s
      end
  end.

(** [RemoveMeta(string)]: the string afterwards. *)
Definition RemoveMeta (s : string) : string :=
  let turns := S (strlen s) in
  let s := blank_each turns ";" s in
  let s := blank_each turns "&" s in
  let s := blank_each turns "|" s in
  let s := blank_each turns ">" s in
  let s := blank_each turns "<" s in
  let s := blank_each turns DQ s in
  let s := blank_each turns NL s in
  blank_each turns CR s.

(** [for(; i<n; i++) if(!p(s[i])) break;]: the value of [i] afterwards, with
    [count] the turns that are left up to [n]. *)
Fixpoint scan_from (p : ascii -> bool) (s : string) (i count : nat) : nat :=
  match count with
  | O => i
  | S count' => if p (char_at i s) then scan_from p s (S i) count' else i
  end.

Definition scan (p : ascii -> bool) (s : string) (i n : nat) : nat :=
  scan_from p s i (n - i).

(** The test [!s[i]=='#'] of line 123, which C reads as [(!s[i]) == '#']. *)
Definition comment_test (c : ascii) : bool :=
  ((if Ascii.eqb c NUL then 1 else 0) =? Z.of_nat (nat_of_ascii "#"))%Z.

(** The [len] characters from [s + from]. *)
Definition substring (s : string) (from len : nat) : string :=
  str_take len (str_drop from s).

(** [compress_species(s1, s)]: the string returned and [s1] afterwards. *)
Definition compress_species (s1 s : string) : string * string :=
  let n := strlen s in
  let i := scan (fun c => negb (comment_test c)) s 0 n in
  let n := if (255 <? i)%nat then 255%nat else i in
  let i := scan isblank s 0 n in
  if (i =? n)%nat then (EmptyString, s1)
  else
    let i1 := i in
    let i := scan isalnum s i n in
    let i2 := if (i <? n - 1)%nat then i else (n - 1)%nat in
    let tmp := substring s i1 (i2 - i1 + 1) in
    let i := scan isblank s i n in
    let i1 := i in
    let i := scan isdigit s i n in
    let tmp := if (i1 <? i)%nat then tmp +:+ substring s i1 (i - i1) else tmp in
    (tmp, tmp).

(** Lines 1301-1314 of [main]: [Client_Name] and [Personal_VALD_CONFIG] from
    the second argument of the program.  Both are globals, zero when the
    program starts, so that [strncpy] leaves a terminated string. *)
Definition client_names (user_name : string) : string * string :=
  let Client_Name := str_take 80 user_name in
  let Client_Name :=
    match strstr Client_Name "_local" with
    | Some ss => str_take ss Client_Name
    | None => Client_Name
    end in
  let Personal_VALD_CONFIG := str_take 80 user_name in
  let Personal_VALD_CONFIG :=
    match strstr Personal_VALD_CONFIG "_local" with
    | Some ss => str_take ss Personal_VALD_CONFIG +:+ ".cfg_local"
    | None => Personal_VALD_CONFIG +:+ ".cfg"
    end in
  (Client_Name, Personal_VALD_CONFIG).

(** [char subject[120]]: a local array, so a byte is indeterminate, [None],
    until it is written. *)
Definition subject_buffer := list (option ascii).

(** After [strcpy(subject, ...)] of line 1272. *)
Definition subject_start : subject_buffer :=
  (map Some (list_ascii_of_string
               ("echo " +:+ String DQ ("Subject: Re: " +:+ String DQ EmptyString)))
   ++ [Some NUL] ++ replicate 99 None)%list.

(** [strlen] on the array: [None] when it runs into an indeterminate byte
    or off the array. *)
Fixpoint buffer_strlen (b : subject_buffer) : option nat :=
  match b with
  | [] => None
  | None :: _ => None
  | Some c :: t => if Ascii.eqb c NUL then Some 0%nat else option_map S (buffer_strlen t)
  end.

(** The string a [%s] prints from the array. *)
Fixpoint buffer_text (b : subject_buffer) : option string :=
  match b with
  | [] => None
  | None :: _ => None
  | Some c :: t =>
      if Ascii.eqb c NUL then Some EmptyString else option_map (String c) (buffer_text t)
  end.

(** [strncpy(b + start, src, n)]: exactly [n] bytes are written, the text
    and then terminators; [None] when they do not fit the array. *)
Definition buffer_strncpy (b : subject_buffer) (start : nat) (src : string) (n : nat)
  : option subject_buffer :=
  if (start + n <=? length b)%nat then
    let text := list_ascii_of_string (str_take n src) in
    Some (take start b ++ map Some (text ++ replicate (n - length text) NUL)
          ++ drop (start + n) b)%list
  else None.

(** The test of lines 1275-1277. *)
Definition is_subject (s : string) : bool :=
  strncmp0 s "SUBJECT: " 9 || strncmp0 s "Subject: " 9 || strncmp0 s "subject: " 9.

(** Lines 1279-1280 on a line [s] that passed the test: [subject]
    afterwards, [None] when the behaviour is undefined. *)
Definition subject_line (b : subject_buffer) (s : string) : option subject_buffer :=
  match buffer_strlen b with
  | None | Some O => None
  | Some (S k) =>
      match buffer_strncpy b k (str_drop 9 (RemoveMeta s)) 68 with
      | None => None
      | Some b =>
          match buffer_strlen b with
          | None | Some O => None
          | Some (S k) => Some (<[k := Some DQ]> b)
          end
      end
  end.


(** Lines 1275-1281: the [if] on a line of the request. *)
Definition subject_step (b : subject_buffer) (s : string) : option subject_buffer :=
  if is_subject s then subject_line b s else Some b.

End Parserequest.

(** ** vald/lib/vald3/src/unkompress3.c *)
Module Unkompress3.
Import Ieee.

Definition LINE_LENGTH : nat := 270.
Definition LINES_PER_RECORD : Z := 1024.
Definition RECORD_LENGTH : Z := Z.of_nat LINE_LENGTH * LINES_PER_RECORD.
Definition MAX_OPEN_FILES : Z := 400.
Definition MAX_CODE_SIZE : Z := 16.
Definition HSIZE : Z := Z.shiftl 1 MAX_CODE_SIZE.

(** How a call ends: it returns, the process leaves through [exit(16)], or
    an array is accessed outside its bounds. *)
Inductive res (A : Type) := Done (a : A) | Exit16 | Undefined.
Arguments Done {A} a.
Arguments Exit16 {A}.
Arguments Undefined {A}.

Definition bind {A B} (r : res A) (f : A -> res B) : res B :=
  match r with
  | Done a => f a
  | Exit16 => Exit16
  | Undefined => Undefined
  end.

Notation "'do' x <- r ; k" := (bind r (fun x => k))
  (at level 10, x pattern, r at level 100, k at level 200).

(** A read of [a[i]]. *)
Definition fetch {A} (a : list A) (i : Z) : res A :=
  if (i <? 0)%Z then Undefined
  else match a !! Z.to_nat i with
       | Some x => Done x
       | None => Undefined
       end.

(** The assignment [a[i] = v]. *)
Definition store {A} (a : list A) (i : nat) (v : A) : res (list A) :=
  if (i <? length a)%nat then Done (<[i := v]> a) else Undefined.

(** The conversions to [int], [short] and [unsigned short]. *)
Definition to_signed (bits : Z) (x : Z) : Z :=
  let m := (x mod 2 ^ bits)%Z in
  if (m <? 2 ^ (bits - 1))%Z then m else (m - 2 ^ bits)%Z.
Definition int32 : Z -> Z := to_signed 32.
Definition int16 : Z -> Z := to_signed 16.
Definition uint16 (x : Z) : Z := (x mod 2 ^ 16)%Z.

(** [struct RECORD]: one entry of the descriptor file. *)
Record RECORD := mkRECORD {
  wl1 : double;       (* starting wavelength of the record *)
  wl2 : double;       (* ending wavelength of the record *)
  offset : Z;         (* record offset in the compressed file *)
  rlength : Z         (* record length in the compressed file, the field [length] *)
}.

(** The output arrays of [ukread_] and [uknext_], in the order of the
    parameters. *)
Record buffers := mkBuf {
  wl : list double;
  element : list Z;
  j_low : list float;
  e_low : list double;
  j_high : list float;
  e_high : list double;
  loggf : list float;
  gamrad : list float;
  gamst : list float;
  gamvw : list float;
  lande_low : list float;
  lande_high : list float;
  str : list Z
}.

(** [unsigned char record[RECORD_LENGTH]]: the bytes by index, zero where
    nothing was stored yet. *)
Definition record_buffer := gmap Z Z.

(** A read of [record[i]]. *)
Definition record_byte (record : record_buffer) (i : Z) : res Z :=
  if (0 <=? i)%Z && (i <? RECORD_LENGTH)%Z then Done (default 0%Z (record !! i))
  else Undefined.

(** The bit cursor of [ReadCode]. *)
Record cursor := mkCursor {
  current_byte_in_record : Z;
  BitOffset : Z;
  byte1 : Z
}.

(** [ReadCode()] on the buffer [record] with the current [CodeSize] and
    [ReadMask]: the code and the cursor afterwards. *)
Definition ReadCode (record : record_buffer) (CodeSize ReadMask : Z) (c : cursor)
  : res (Z * cursor) :=
  do c <- (if (BitOffset c <? 0)%Z then
             do b <- record_byte record (current_byte_in_record c);
             Done (mkCursor (current_byte_in_record c + 1) 0 b)
           else Done c);
  let RawCode := Z.land (byte1 c) 255 in
  do (RawCode, c) <-
    (if (8 <=? CodeSize + BitOffset c)%Z then
       do byte2 <- record_byte record (current_byte_in_record c);
       Done ((RawCode + Z.shiftl (Z.land byte2 255) 8)%Z,
             mkCursor (current_byte_in_record c + 1) (BitOffset c) byte2)
     else Done (RawCode, c));
  do (RawCode, c) <-
    (if (16 <=? CodeSize + BitOffset c)%Z then
       do byte3 <- record_byte record (current_byte_in_record c);
       Done ((RawCode + Z.shiftl (Z.land byte3 255) 16)%Z,
             mkCursor (current_byte_in_record c + 1) (BitOffset c) byte3)
     else Done (RawCode, c));
  do (RawCode, c) <-
    (if (24 <=? CodeSize + BitOffset c)%Z then
       do byte4 <- record_byte record (current_byte_in_record c);
       Done ((RawCode + Z.shiftl (Z.land byte4 255) 24)%Z,
             mkCursor (current_byte_in_record c + 1) (BitOffset c) byte4)
     else Done (RawCode, c));
  let RawCode := Z.shiftr RawCode (BitOffset c) in
  Done (uint16 (Z.land RawCode ReadMask),
        mkCursor (current_byte_in_record c) ((BitOffset c + CodeSize) mod 8)%Z (byte1 c)).

(** [ByteSwap(s, n)] on the [n] bytes of a field. *)
Definition ByteSwap (s : list Z) : list Z := rev s.

(** The bytes [line + off .. line + off + n). *)
Definition field (line : list Z) (off n : nat) : list Z := take n (drop off line).

(** A [char] read as a number, [char] being signed. *)
Definition schar (b : Z) : Z := if (b <? 128)%Z then b else (b - 256)%Z.

(** [memcpy(a + off, bs, length bs)] *)
Definition memcpy (a : list Z) (off : nat) (bs : list Z) : res (list Z) :=
  if (off + length bs <=? length a)%nat then
    Done (take off a ++ bs ++ drop (off + length bs) a)%list
  else Undefined.

(** The body of [ADDLINE] for a full [line]: the fields are stored at index
    [nlines], the 210 bytes behind them at [str + nlines*210]. *)
Definition store_line (change_byte_order : bool) (line : list Z) (nlines : nat)
  (b : buffers) : res buffers :=
  let sw := fun bs => if change_byte_order then ByteSwap bs else bs in
  let dbl := fun off => cast_double change_byte_order (sw (field line off 8)) in
  let flt := fun off => cast_float change_byte_order (sw (field line off 4)) in
  do wl' <- store (wl b) nlines (dbl 0%nat);
  do element' <- store (element b) nlines
                   (cast_int change_byte_order (sw (field line 8 4)));
  do loggf' <- store (loggf b) nlines (flt 12%nat);
  do e_low' <- store (e_low b) nlines (dbl 16%nat);
  do j_low' <- store (j_low b) nlines (flt 24%nat);
  do e_high' <- store (e_high b) nlines (dbl 28%nat);
  do j_high' <- store (j_high b) nlines (flt 36%nat);
  do lande_low' <- store (lande_low b) nlines (flt 40%nat);
  do lande_high' <- store (lande_high b) nlines (flt 44%nat);
  do gamrad' <- store (gamrad b) nlines (flt 48%nat);
  do gamst' <- store (gamst b) nlines (flt 52%nat);
  do gamvw' <- store (gamvw b) nlines (flt 56%nat);
  do str' <- memcpy (str b) (nlines * 210) (field line 60 210);
  let byte := fun k => default 0%Z (line !! k) in
  let str' :=
    if change_byte_order && (schar (byte 236%nat) <? 48)%Z then
      <[(nlines * 210 + 182)%nat := byte 241%nat]>
        (<[(nlines * 210 + 181)%nat := byte 242%nat]>
           (<[(nlines * 210 + 180)%nat := byte 239%nat]>
              (<[(nlines * 210 + 179)%nat := byte 240%nat]>
                 (<[(nlines * 210 + 178)%nat := byte 237%nat]>
                    (<[(nlines * 210 + 177)%nat := byte 238%nat]> str')))))
    else str' in
  Done (mkBuf wl' element' j_low' e_low' j_high' e_high' loggf' gamrad' gamst' gamvw'
          lande_low' lande_high' str').

(** The locals of [uncompress] that [ADDLINE] works on. *)
Record output := mkOutput {
  line : list Z;        (* line[0 .. nbytes) *)
  nlines : nat;
  bufs : buffers
}.

(** [ADDLINE(CHAR)] *)
Definition ADDLINE (change_byte_order : bool) (CHAR : Z) (o : output) : res output :=
  let line' := (line o ++ [CHAR mod 256])%list%Z in
  if (length line' mod LINE_LENGTH =? 0)%nat then
    do b <- store_line change_byte_order line' (nlines o) (bufs o);
    Done (mkOutput [] (S (nlines o)) b)
  else Done (mkOutput line' (nlines o) (bufs o)).

Fixpoint ADDLINES (change_byte_order : bool) (chars : list Z) (o : output) : res output :=
  match chars with
  | [] => Done o
  | c :: rest => do o <- ADDLINE change_byte_order c o; ADDLINES change_byte_order rest o
  end.

(** The hash table of the decompressor, zero where never written. *)
Definition table := gmap Z Z.
Definition entry (t : table) (code : Z) : Z := default 0%Z (t !! code).

(** Lines 232-237: the chain from [CurCode] is pushed on [OutCode], which
    is kept as the list of its first [OutCount] entries. *)
Fixpoint chain (fuel : nat) (Prefix Suffix : table) (BitMask CurCode : Z)
  (OutCode : list Z) : res (Z * list Z) :=
  if (BitMask <? CurCode)%Z then
    match fuel with
    | O => Exit16
    | S fuel' =>
        if (HSIZE <? Z.of_nat (length OutCode))%Z then Exit16
        else chain fuel' Prefix Suffix BitMask (entry Prefix CurCode)
               (OutCode ++ [entry Suffix CurCode])%list
    end
  else Done (CurCode, OutCode).

(** More turns than the loop of the chain can take before it leaves through
    [exit(16)]. *)
Definition chain_turns : nat := Z.to_nat HSIZE + 2.

(** The variables of [uncompress] that live across the iterations of its
    loop, and the tables, which live across calls. *)
Record decoder := mkDecoder {
  Code : Z;
  CodeSize : Z;
  MaxCode : Z;
  ReadMask : Z;
  FreeCode : Z;
  OldCode : Z;
  FinChar : Z;
  cur : cursor;
  Prefix : table;
  Suffix : table;
  out : output
}.

(** One iteration of the loop of lines 188-279, up to its [ReadCode]; the
    boolean tells whether the end-of-packet code was read. *)
Definition uncompress_step (record : record_buffer) (change_byte_order : bool)
  (d : decoder)
  : res (decoder * bool) :=
  let ClearCode := Z.shiftl 1 8 in
  let EOPCode := (ClearCode + 1)%Z in
  let FirstFree := (ClearCode + 2)%Z in
  let InitCodeSize := 9%Z in
  let BitMask := 255%Z in
  do d <-
    (if (Code d =? ClearCode)%Z then
       let CodeSize := InitCodeSize in
       let MaxCode := Z.shiftl 1 CodeSize in
       let ReadMask := (MaxCode - 1)%Z in
       let FreeCode := FirstFree in
       do (Code, c) <- ReadCode record CodeSize ReadMask (cur d);
       let FinChar := Z.land Code BitMask in
       do o <- ADDLINE change_byte_order FinChar (out d);
       Done (mkDecoder Code CodeSize MaxCode ReadMask FreeCode Code FinChar c
               (Prefix d) (Suffix d) o)
     else
       if (HSIZE <=? FreeCode d)%Z then Exit16
       else
         let InCode := Code d in
         let '(CurCode, OutCode) :=
           if (FreeCode d <=? Code d)%Z then (OldCode d, [FinChar d]) else (Code d, []) in
         do (CurCode, OutCode) <-
           chain chain_turns (Prefix d) (Suffix d) BitMask CurCode OutCode;
         if (HSIZE <? Z.of_nat (length OutCode))%Z then Exit16
         else
           let FinChar := Z.land CurCode BitMask in
           let OutCode := (OutCode ++ [FinChar])%list in
           let top := int16 (Z.of_nat (length OutCode) - 1) in
           do o <- ADDLINES change_byte_order
                     (if (top <? 0)%Z then [] else rev (take (Z.to_nat top + 1) OutCode))
                     (out d);
           let Prefix := <[FreeCode d := uint16 (OldCode d)]> (Prefix d) in
           let Suffix := <[FreeCode d := uint16 FinChar]> (Suffix d) in
           let FreeCode := (FreeCode d + 1)%Z in
           let widen := (MaxCode d <=? FreeCode)%Z && (CodeSize d <? MAX_CODE_SIZE)%Z in
           Done (mkDecoder (Code d)
                   (if widen then CodeSize d + 1 else CodeSize d)%Z
                   (if widen then MaxCode d * 2 else MaxCode d)%Z
                   (if widen then Z.shiftl 1 (CodeSize d + 1) - 1 else ReadMask d)%Z
                   FreeCode InCode FinChar (cur d) Prefix Suffix o));
  do (Code, c) <- ReadCode record (CodeSize d) (ReadMask d) (cur d);
  Done (mkDecoder Code (CodeSize d) (MaxCode d) (ReadMask d) (FreeCode d) (OldCode d)
          (FinChar d) c (Prefix d) (Suffix d) (out d),
        (Code =? EOPCode)%Z).

(** [for(l=0; l<length; l++)] with [count] iterations left. *)
Fixpoint uncompress_loop (count : nat) (record : record_buffer) (change_byte_order : bool)
  (d : decoder) : res decoder :=
  match count with
  | O => Done d
  | S count' =>
      do (d, eop) <- uncompress_step record change_byte_order d;
      if eop then Done d else uncompress_loop count' record change_byte_order d
  end.

(** The globals of the decompressor that live across calls. *)
Record lzw := mkLzw {
  record : record_buffer;        (* unsigned char record[RECORD_LENGTH] *)
  change_byte_order : bool;
  static_byte1 : Z;              (* the static byte1 of ReadCode *)
  Prefix_table : table;
  Suffix_table : table
}.

(** [uncompress(length, wl, ..., str)]: [nlines], the globals and the arrays. *)
Definition uncompress (length : Z) (g : lzw) (b : buffers) : res (nat * lzw * buffers) :=
  let ClearCode := Z.shiftl 1 8 in
  let CodeSize := 9%Z in
  let MaxCode := Z.shiftl 1 CodeSize in
  let d0 :=
    mkDecoder ClearCode CodeSize MaxCode (MaxCode - 1) (ClearCode + 2) 0 0
      (mkCursor 0 (-1) (static_byte1 g)) (Prefix_table g) (Suffix_table g)
      (mkOutput [] 0 b) in
  do d <- uncompress_loop (Z.to_nat length) (record g) (change_byte_order g) d0;
  Done (nlines (out d),
        mkLzw (record g) (change_byte_order g) (byte1 (cur d)) (Prefix d) (Suffix d),
        bufs (out d)).

(** An open file: [fi[f]] with its position, and the directory loaded by
    [ukopen_]. *)
Record reader := mkReader {
  data : list Z;                 (* the bytes of the compressed file *)
  position : nat;                (* the position of fi[f] *)
  number_of_records : Z;
  current_record : Z;
  records : list RECORD
}.

(** The state of the library: the open files by handle, and the globals of
    the decompressor. *)
Record library := mkLibrary {
  open_files : gmap Z reader;
  globals : lzw
}.

(** The check of lines 361, 341 and 450: the reader behind a valid handle. *)
Definition valid_file (f : Z) (lib : library) : option reader :=
  if (MAX_OPEN_FILES <=? f)%Z || (f <? 0)%Z then None else open_files lib !! f.

(** [while(j-i>1)] of lines 375-379, on [int]s. *)
Fixpoint bisect (fuel : nat) (D : list RECORD) (wave1 : double) (i j k : Z)
  : res (Z * Z * Z) :=
  if (1 <? int32 (j - i))%Z then
    match fuel with
    | O => Undefined
    | S fuel' =>
        let k := Z.quot (int32 (i + j)) 2 in
        do Dk <- fetch D k;
        if dlt wave1 (wl1 Dk) then bisect fuel' D wave1 i k k
        else bisect fuel' D wave1 k j k
    end
  else Done (i, j, k).

(** Lines 366-382: the record to start from, [None] when the function
    returns -2. *)
Definition locate (r : reader) (wave1 wave2 : double) : res (option Z) :=
  let D := records r in
  let i := 0%Z in
  let j := int32 (number_of_records r - 1) in
  do Dj <- fetch D j;
  if dgt wave1 (wl2 Dj) then Done None
  else
    do Di <- fetch D i;
    if dlt wave2 (wl1 Di) then Done None
    else if dlt wave1 (wl1 Di) then Done (Some i)
    else
      do (i, j, _) <- bisect (Z.to_nat j) D wave1 i j i;
      do Di <- fetch D i;
      Done (Some (if dgt wave1 (wl2 Di) then j else i)).

(** The bytes [bs] stored from [record + i] on. *)
Fixpoint load (bs : list Z) (i : Z) (record : record_buffer) : record_buffer :=
  match bs with
  | [] => record
  | b :: rest => load rest (i + 1)%Z (<[i := b]> record)
  end.

(** [fread(record, length, 1, fi[f]) == 1]: the bytes that are there are
    stored at the start of [record]. *)
Definition fread_record (length : Z) (r : reader) (g : lzw) : res (bool * reader * lzw) :=
  let avail := drop (position r) (data r) in
  let want := if (length <? 0)%Z then Datatypes.length avail else Z.to_nat length in
  let got := take want avail in
  do record' <- (if (RECORD_LENGTH <? Z.of_nat (Datatypes.length got))%Z then Undefined
                 else Done (load got 0 (record g)));
  Done ((0 <? length)%Z && (Datatypes.length got =? want)%nat,
        mkReader (data r) (position r + Datatypes.length got) (number_of_records r)
          (current_record r) (records r),
        mkLzw record' (change_byte_order g) (static_byte1 g) (Prefix_table g)
          (Suffix_table g)).

(** Lines 411-413: the loop that copies 76 bytes of [str]. *)
Fixpoint copy_str (count j : nat) (filtered_count i : nat) (str : list Z) : res (list Z) :=
  match count with
  | O => Done str
  | S count' =>
      do c <- fetch str (Z.of_nat (i * 76 + j));
      do str <- store str (filtered_count * 76 + j) c;
      copy_str count' (S j) filtered_count i str
  end.

(** The assignment [a[filtered_count] = a[i]]. *)
Definition move_entry {A} (a : list A) (filtered_count i : nat) : res (list A) :=
  do x <- fetch a (Z.of_nat i); store a filtered_count x.

(** Lines 398-413: line [i] is moved to the position [filtered_count]. *)
Definition move_line (filtered_count i : nat) (b : buffers) : res buffers :=
  do wl' <- move_entry (wl b) filtered_count i;
  do element' <- move_entry (element b) filtered_count i;
  do j_low' <- move_entry (j_low b) filtered_count i;
  do e_low' <- move_entry (e_low b) filtered_count i;
  do j_high' <- move_entry (j_high b) filtered_count i;
  do e_high' <- move_entry (e_high b) filtered_count i;
  do loggf' <- move_entry (loggf b) filtered_count i;
  do gamrad' <- move_entry (gamrad b) filtered_count i;
  do gamst' <- move_entry (gamst b) filtered_count i;
  do gamvw' <- move_entry (gamvw b) filtered_count i;
  do lande_low' <- move_entry (lande_low b) filtered_count i;
  do lande_high' <- move_entry (lande_high b) filtered_count i;
  do str' <- copy_str 76 0 filtered_count i (str b);
  Done (mkBuf wl' element' j_low' e_low' j_high' e_high' loggf' gamrad' gamst' gamvw'
          lande_low' lande_high' str').

(** Lines 393-417: [for(i = 0; i < nlines; i++)] with [count] lines left. *)
Fixpoint filter_lines (count i : nat) (wave1 wave2 : double) (filtered_count : nat)
  (b : buffers) : res (nat * buffers) :=
  match count with
  | O => Done (filtered_count, b)
  | S count' =>
      do w <- fetch (wl b) (Z.of_nat i);
      if dge w wave1 && dle w wave2 then
        do b <- (if negb (filtered_count =? i)%nat then move_line filtered_count i b
                 else Done b);
        filter_lines count' (S i) wave1 wave2 (S filtered_count) b
      else filter_lines count' (S i) wave1 wave2 filtered_count b
  end.

Definition set_reader (f : Z) (r : reader) (g : lzw) (lib : library) : library :=
  mkLibrary (<[f := r]> (open_files lib)) g.

Definition next_record (r : reader) : reader :=
  mkReader (data r) (position r) (number_of_records r) (int32 (current_record r + 1))
    (records r).

(** Lines 382-437 of [ukread_]: record [k] is read, decompressed and
    filtered.  [fseek] to an offset of the directory, which is unsigned, is
    taken to succeed. *)
Definition read_located (f : Z) (r : reader) (k : Z) (wave1 wave2 : double)
  (lib : library) (b : buffers) : res (Z * library * buffers) :=
  do Dk <- fetch (records r) k;
  let r := mkReader (data r) (Z.to_nat (offset Dk)) (number_of_records r) k
             (records r) in
  let length := rlength Dk in
  do (ok, r, g) <- fread_record length r (globals lib);
  if negb ok then Done ((-4)%Z, set_reader f r g lib, b)
  else
    do (nlines, g, b) <- uncompress length g b;
    do (filtered_count, b) <- filter_lines nlines 0 wave1 wave2 0 b;
    Done (Z.of_nat filtered_count, set_reader f (next_record r) g lib, b).

(** [ukread_(ifile, ptwave1, ptwave2, wl, ..., str)]: the return value, the
    state of the library and the arrays. *)
Definition ukread_ (f : Z) (wave1 wave2 : double) (lib : library) (b : buffers)
  : res (Z * library * buffers) :=
  match valid_file f lib with
  | None => Done ((-1)%Z, lib, b)
  | Some r =>
      do k <- locate r wave1 wave2;
      match k with
      | None => Done ((-2)%Z, lib, b)
      | Some k => read_located f r k wave1 wave2 lib b
      end
  end.

(** [uknext_(ifile, wl, ..., str)] *)
Definition uknext_ (f : Z) (lib : library) (b : buffers) : res (Z * library * buffers) :=
  match valid_file f lib with
  | None => Done ((-1)%Z, lib, b)
  | Some r =>
      if (number_of_records r <=? current_record r mod 2 ^ 32)%Z then Done ((-2)%Z, lib, b)
      else
        do Dk <- fetch (records r) (current_record r);
        let length := rlength Dk in
        do (ok, r, g) <- fread_record length r (globals lib);
        if negb ok then Done ((-3)%Z, set_reader f r g lib, b)
        else
          do (nlines, g, b) <- uncompress length g b;
          Done (Z.of_nat nlines, set_reader f (next_record r) g lib, b)
  end.

(** *** [ukopen_] and [ukclose_] *)

Definition MAX_FILE_LENGTH : nat := 512.

(** [sizeof(struct RECORD)]: two doubles, a word and an int. *)
Definition sizeof_RECORD : nat := 24.

(** The files on disk, by name. *)
Definition disk := gmap string (list Z).

(** [fopen(filename, "rb")]: the bytes of the file, [None] for NULL.  No
    file has the empty name. *)
Definition fopen (fs : disk) (filename : string) : option (list Z) :=
  if CStr.is_empty filename then None else fs !! filename.

(** Lines 297-298 and 326-327: the name up to the first blank is copied to
    [filename]; [None] is the [return -4]. *)
Definition cut_name (name : string) : res (option string) :=
  match CStr.strchr name " " with
  | None => Done None
  | Some c =>
      if (c <? MAX_FILE_LENGTH)%nat then Done (Some (CStr.str_take c name)) else Undefined
  end.

(** The four bytes of a [word] as they lie in the memory of the host. *)
Definition word_memory (big_endian : bool) (x : Z) : list Z :=
  let le := [ x mod 256; x / 256 mod 256; x / 65536 mod 256; x / 16777216 mod 256 ]%Z in
  if big_endian then rev le else le.

(** One entry of the descriptor file from its 24 bytes (lines 305-314). *)
Definition read_RECORD (change_byte_order : bool) (bs : list Z) : RECORD :=
  let sw := fun bs => if change_byte_order then ByteSwap bs else bs in
  mkRECORD (cast_double change_byte_order (sw (field bs 0 8)))
    (cast_double change_byte_order (sw (field bs 8 8)))
    (host_word change_byte_order (sw (field bs 16 4)))
    (cast_int change_byte_order (sw (field bs 20 4))).

(** Lines 301-315: [number_of_records[f]] and the entries of [records[f]]
    that [fread] filled.  [stale] is what [number_of_records[f]] held before;
    it stays when the file is empty, and a file of one to three bytes leaves
    an indeterminate count.  [malloc] is taken to succeed; the entries behind
    those that were read are never written. *)
Definition read_descriptor (change_byte_order : bool) (stale : Z) (d : list Z)
  : res (Z * list RECORD) :=
  if (0 <? length d)%nat && (length d <? 4)%nat then Undefined
  else
    let sw := fun bs => if change_byte_order then ByteSwap bs else bs in
    let count := if (4 <=? length d)%nat then take 4 d
                 else word_memory change_byte_order stale in
    let n := host_word change_byte_order (sw count) in
    let rest := drop 4 d in
    let complete := Nat.min (Z.to_nat n) (length rest / sizeof_RECORD) in
    Done (n, map (fun k => read_RECORD change_byte_order
                             (field rest (k * sizeof_RECORD) sizeof_RECORD))
               (seq 0 complete)).

(** [ukopen_(ifile, file_data, file_descr)] on a host that is big-endian or
    not: the return value and the library afterwards. *)
Definition ukopen_ (big_endian : bool) (stale : Z) (fs : disk) (f : Z)
  (file_data file_descr : string) (lib : library) : res (Z * library) :=
  let busy := match open_files lib !! f with Some _ => true | None => false end in
  if (MAX_OPEN_FILES <=? f)%Z || (f <? 0)%Z || busy then Done ((-1)%Z, lib)
  else
    let g := globals lib in
    let lib := mkLibrary (open_files lib)
                 (mkLzw (record g) big_endian (static_byte1 g) (Prefix_table g)
                    (Suffix_table g)) in
    do name <- cut_name file_descr;
    match name with
    | None => Done ((-4)%Z, lib)
    | Some filename =>
        match fopen fs filename with
        | None => Done ((-2)%Z, lib)
        | Some d =>
            do (n, D) <- read_descriptor big_endian stale d;
            do name <- cut_name file_data;
            match name with
            | None => Done ((-4)%Z, lib)
            | Some filename =>
                match fopen fs filename with
                | None => Done ((-3)%Z, lib)
                | Some bytes =>
                    Done (int32 n,
                          mkLibrary (<[f := mkReader bytes 0 n 0 D]> (open_files lib))
                            (globals lib))
                end
            end
        end
    end.

(** [ukclose_(ifile)] *)
Definition ukclose_ (f : Z) (lib : library) : Z * library :=
  match valid_file f lib with
  | None => ((-1)%Z, lib)
  | Some _ => (0%Z, mkLibrary (delete f (open_files lib)) (globals lib))
  end.

End Unkompress3.

(** ** vald/lib/vald3/src/vald3_decompress.cpp *)
Module Vald3Reader.
Import Ieee Unkompress3.

Definition RECORD_SIZE : nat := 1024.
Definition STR_BYTES_PER_LINE : nat := 210.

(** The members of [class VALD3Reader] that the query reads. *)
Record VALD3Reader := mkVALD3Reader {
  file_handle : Z;
  is_open : bool
}.

(** The temporary arrays of lines 120-127, as [std::vector] creates them. *)
Definition temporaries : buffers :=
  let d := replicate RECORD_SIZE zero in
  let i := replicate RECORD_SIZE 0%Z in
  mkBuf d i d d d d d d d d d d (replicate (RECORD_SIZE * STR_BYTES_PER_LINE) 0%Z).

(** The output vectors before the first [push_back]. *)
Definition no_lines : buffers := mkBuf [] [] [] [] [] [] [] [] [] [] [] [] [].

(** Lines 144-160: line [i] of the temporaries is pushed on the output. *)
Definition push_line (i : nat) (tmp o : buffers) : res buffers :=
  let at_i := fun A (a : list A) => fetch a (Z.of_nat i) in
  do w <- at_i _ (wl tmp);
  do el <- at_i _ (element tmp);
  do jl <- at_i _ (j_low tmp);
  do jh <- at_i _ (j_high tmp);
  do el_ <- at_i _ (e_low tmp);
  do eh <- at_i _ (e_high tmp);
  do gf <- at_i _ (loggf tmp);
  do gr <- at_i _ (gamrad tmp);
  do gs <- at_i _ (gamst tmp);
  do gw <- at_i _ (gamvw tmp);
  do ll <- at_i _ (lande_low tmp);
  do lh <- at_i _ (lande_high tmp);
  let block := take STR_BYTES_PER_LINE (drop (i * STR_BYTES_PER_LINE) (str tmp)) in
  if negb (length block =? STR_BYTES_PER_LINE)%nat then Undefined
  else
    Done (mkBuf (wl o ++ [w]) (element o ++ [el]) (j_low o ++ [jl]) (e_low o ++ [el_])
            (j_high o ++ [jh]) (e_high o ++ [eh]) (loggf o ++ [gf]) (gamrad o ++ [gr])
            (gamst o ++ [gs]) (gamvw o ++ [gw]) (lande_low o ++ [ll])
            (lande_high o ++ [lh]) (str o ++ block))%list.

(** Lines 142-163: [for (i = 0; i < nlines && total_lines < max_lines; i++)]
    with [count] lines left. *)
Fixpoint copy_lines (count i : nat) (wl_min wl_max : double) (max_lines : Z)
  (tmp : buffers) (total_lines : Z) (o : buffers) : res (Z * buffers) :=
  match count with
  | O => Done (total_lines, o)
  | S count' =>
      if (total_lines <? max_lines)%Z then
        do w <- fetch (wl tmp) (Z.of_nat i);
        if dge w wl_min && dle w wl_max then
          do o <- push_line i tmp o;
          copy_lines count' (S i) wl_min wl_max max_lines tmp (total_lines + 1)%Z o
        else copy_lines count' (S i) wl_min wl_max max_lines tmp total_lines o
      else Done (total_lines, o)
  end.

(** Lines 140-178: [while (nlines > 0 && total_lines < max_lines)]. *)
Fixpoint query_loop (fuel : nat) (file_handle : Z) (wl_min wl_max : double)
  (max_lines nlines : Z) (lib : library) (tmp : buffers) (total_lines : Z)
  (o : buffers) : res (Z * buffers * library) :=
  if (0 <? nlines)%Z && (total_lines <? max_lines)%Z then
    match fuel with
    | O => Undefined
    | S fuel' =>
        do (total_lines, o) <-
          copy_lines (Z.to_nat nlines) 0 wl_min wl_max max_lines tmp total_lines o;
        do (nlines, lib, tmp) <- uknext_ file_handle lib tmp;
        do stop <- (if (0 <? nlines)%Z then
                      do w0 <- fetch (wl tmp) 0; Done (dgt w0 wl_max)
                    else Done false);
        if stop then Done (total_lines, o, lib)
        else query_loop fuel' file_handle wl_min wl_max max_lines nlines lib tmp
               total_lines o
    end
  else Done (total_lines, o, lib).

(** What [query_range] gives its caller. *)
Inductive answer :=
  | runtime_error (what : string)
  | dict (nlines : Z) (arrays : option buffers).

(** The records that can still be read decide how often the loop can turn. *)
Definition turns (file_handle : Z) (lib : library) : nat :=
  match valid_file file_handle lib with
  | Some r => S (Z.to_nat (number_of_records r))
  | None => 1
  end.

(** [VALD3Reader::query_range(wl_min, wl_max, max_lines)] *)
Definition query_range (this : VALD3Reader) (wl_min wl_max : double) (max_lines : Z)
  (lib : library) : res (answer * library) :=
  if negb (is_open this) then Done (runtime_error "VALD3 file not open", lib)
  else if dge wl_min wl_max then Done (runtime_error "Invalid wavelength range", lib)
  else
    do (nlines, lib, tmp) <- ukread_ (file_handle this) wl_min wl_max lib temporaries;
    do (total_lines, o, lib) <-
      query_loop (turns (file_handle this) lib) (file_handle this) wl_min wl_max
        max_lines nlines lib tmp 0 no_lines;
    Done (dict total_lines (if (0 <? total_lines)%Z then Some o else None), lib).

(** How [open()] and the constructor end: they return, or they throw a
    [std::runtime_error]. *)
Inductive opening :=
  | returned (this : VALD3Reader)
  | thrown (what : string).

(** [VALD3Reader::open()]; [data_file] and [desc_file] are the two members
    that the constructor stored. *)
Definition open (big_endian : bool) (stale : Z) (fs : disk) (data_file desc_file : string)
  (this : VALD3Reader) (lib : library) : res (opening * library) :=
  if is_open this then Done (returned this, lib)
  else
    do (result, lib) <- ukopen_ big_endian stale fs (file_handle this)
                          (data_file +:+ " ") (desc_file +:+ " ") lib;
    if (result <? 0)%Z then
      Done (thrown ("Failed to open VALD3 files. Error code: " +:+ CStr.fmt_ld result), lib)
    else Done (returned (mkVALD3Reader (file_handle this) true), lib).

(** [VALD3Reader(data_filename, desc_filename)] *)
Definition construct (big_endian : bool) (stale : Z) (fs : disk)
  (data_filename desc_filename : string) (lib : library) : res (opening * library) :=
  open big_endian stale fs data_filename desc_filename (mkVALD3Reader 1 false) lib.

(** [VALD3Reader::close()] *)
Definition close (this : VALD3Reader) (lib : library) : VALD3Reader * library :=
  if is_open this then
    (mkVALD3Reader (file_handle this) false, snd (ukclose_ (file_handle this) lib))
  else (this, lib).

End Vald3Reader.

(** * Statements of the specification and sample inputs *)

(** ** Vocabulary of the specification *)
Module Spec.
Import CStr Ieee.

(** The prefix of [s] before its first character that satisfies [stop]. *)
Fixpoint cut_at_first (stop : ascii -> bool) (s : string) : string :=
  match s with
  | EmptyString => EmptyString
  | String c t => if stop c then EmptyString else String c (cut_at_first stop t)
  end.

(** Section 4.2 in its own words: the text is cut at the first of [>],
    blank and new line, then only what follows a [<] is kept. *)
Definition claimed_terminate (s1 : string) : string :=
  cut_at_first (fun c => Ascii.eqb c ">" || Ascii.eqb c " " || Ascii.eqb c NL) s1.

Definition claimed_address (s6 : string) : string :=
  Parsemail.trim_route
    (Parsemail.after_bracket (claimed_terminate (Parsemail.strip_aliases s6))).

(** Section 4.3: prefix equality on the shorter of the two strings. *)
Definition prefix_equal (a b : string) : Prop :=
  let n := Nat.min (strlen a) (strlen b) in str_take n a = str_take n b.

(** A registry line that is not a comment. *)
Definition address_line (s : string) : bool := negb (Ascii.eqb (char_at 0 s) "#").

(** [s] ends with [suffix]. *)
Definition ends_with (suffix s : string) : Prop := exists front, s = front +:+ suffix.

(** Section 3: the keywords with the length of their deciding prefix, the
    flag each one stands for and the value it gives the flag.  The keyword
    PERSONALCONFIGURATION, which also makes the configuration file, is
    [personal_keyword]. *)
Definition keyword_table : list (string * nat * Parserequest.flag * Z) :=
  [ ("LONGFORMAT", 4%nat, Parserequest.LongFormat, 1%Z);
    ("SHORTFORMAT", 5%nat, Parserequest.LongFormat, 0%Z);
    ("DEFAULTCONFIGURATION", 10%nat, Parserequest.PersonalConfiguration, 0%Z);
    ("HAVERAD", 7%nat, Parserequest.HaveRadiativeDamping, 1%Z);
    ("HAVESTARK", 9%nat, Parserequest.HaveStarkDamping, 1%Z);
    ("HAVEWAALS", 9%nat, Parserequest.HaveVanderWaalsDamping, 1%Z);
    ("HAVELANDE", 9%nat, Parserequest.HaveLande, 1%Z);
    ("HAVETERM", 8%nat, Parserequest.HaveTermDesignation, 1%Z);
    ("DEFAULTWAALS", 8%nat, Parserequest.ExtendedWaals, 0%Z);
    ("EXTENDEDWAALS", 9%nat, Parserequest.ExtendedWaals, 1%Z);
    ("ZEEMANPATTERN", 6%nat, Parserequest.ZeemanPattern, 1%Z);
    ("STARKBROADENING", 5%nat, Parserequest.StarkBroadening, 1%Z);
    ("VIAFTP", 6%nat, Parserequest.FTPretrieval, 1%Z);
    ("ENERGYUNITEV", 11%nat, Parserequest.Energy_in_inv_cm, 0%Z);
    ("ENERGYUNIT1CM", 12%nat, Parserequest.Energy_in_inv_cm, 1%Z);
    ("MEDIUMAIR", 7%nat, Parserequest.Wavelength_in_vac, 0%Z);
    ("MEDIUMVACUUM", 7%nat, Parserequest.Wavelength_in_vac, 1%Z);
    ("WAVEUNITANGSTROM", 9%nat, Parserequest.Wavelength_units, 0%Z);
    ("WAVEUNITNM", 9%nat, Parserequest.Wavelength_units, 1%Z);
    ("WAVEUNIT1CM", 10%nat, Parserequest.Wavelength_units, 2%Z);
    ("ISOTOPICSCALINGON", 17%nat, Parserequest.Isotopic_scaling_of_gf, 1%Z);
    ("ISOTOPICSCALINGOFF", 18%nat, Parserequest.Isotopic_scaling_of_gf, 0%Z);
    ("HFSSPLITTING", 8%nat, Parserequest.HFS_splitting, 1%Z);
    ("NOHFSSPLITTING", 10%nat, Parserequest.HFS_splitting, 0%Z) ].

Definition personal_keyword : string * nat := ("PERSONALCONFIGURATION", 6%nat).

(** The token, upper-cased, begins with the deciding prefix of the keyword. *)
Definition recognised (token KEY : string) (n : nat) : bool :=
  strncmp0 (str2upper token) KEY n.

(** The client's configuration file is there or can be made from the
    default one. *)
Definition personal_config_available (st : Parserequest.pstate) : bool :=
  match Parserequest.config_dir st !! Parserequest.Personal_VALD_CONFIG st with
  | Some _ => true
  | None =>
      match Parserequest.default_config st with
      | Some _ => Parserequest.config_dir_writable st
      | None => false
      end
  end.

(** The texts written to a file, read as lines: a write of a new line ends
    the line, every other write is a token on it. *)
Definition add_write (acc : list (list string) * list string) (w : string)
  : list (list string) * list string :=
  let (done, current) := acc in
  if String.eqb w (String NL EmptyString) then (done ++ [current], [])%list
  else (done, current ++ [w])%list.

Definition lines_of_writes (writes : list string) : list (list string) :=
  let (done, current) := fold_left add_write writes ([], []) in (done ++ [current])%list.

(** The number of characters of the tokens. *)
Definition width (tokens : list string) : nat :=
  fold_right (fun t n => (strlen t + n)%nat) 0%nat tokens.

(** No line is longer than 66 characters before its last token. *)
Definition wrapped (writes : list string) : Prop :=
  forall tokens, In tokens (lines_of_writes writes) -> (width (removelast tokens) <= 66)%nat.

(** What holds of the writes of the abundance block while its column
    counter is [i]: the finished lines and the current one are no longer
    than 66 characters before their last token, and [i] is the length of
    the current line. *)
Definition wrap_invariant (writes : list string) (i : Z) : Prop :=
  let (done, current) := fold_left add_write writes ([], []) in
  (forall tokens, In tokens done -> (width (removelast tokens) <= 66)%nat)
  /\ (width (removelast current) <= 66)%nat
  /\ i = Z.of_nat (width current).

(** The token at [next] names a chemical element of the table or the
    metallicity, in one of the three forms that [CheckAbund] reads. *)
Definition names_element (next : string) : bool :=
  if Ascii.eqb (char_at 1 next) ":" then
    (0 <? fst (Parserequest.GetElementNumber (String (char_at 0 next) " ")))%Z
  else if strncmp0 next "MH:" 3 || strncmp0 next "m/h:" 4 then true
  else if Ascii.eqb (char_at 2 next) ":" then
    (0 <? fst (Parserequest.GetElementNumber
                 (String (char_at 0 next) (String (char_at 1 next) EmptyString))))%Z
  else false.

(** Section 3: the directory is sorted and its ranges do not overlap. *)
Definition sorted_directory (D : list Unkompress3.RECORD) : Prop :=
  (forall i r, D !! i = Some r ->
               dle (Unkompress3.wl1 r) (Unkompress3.wl2 r) = true)
  /\ (forall i r r', D !! i = Some r -> D !! S i = Some r' ->
                     dle (Unkompress3.wl2 r) (Unkompress3.wl1 r') = true).

(** The wavelength lies in the closed range of the record. *)
Definition contains (r : Unkompress3.RECORD) (w : double) : Prop :=
  dle (Unkompress3.wl1 r) w = true /\ dle w (Unkompress3.wl2 r) = true.

(** The range of the record lies above the wavelength. *)
Definition above (r : Unkompress3.RECORD) (w : double) : Prop :=
  dlt w (Unkompress3.wl1 r) = true.

(** The record that [ukread_] is to find for [wave1]: one whose range holds
    [wave1] when there is one, else the first whose range lies above it. *)
Definition sought (D : list Unkompress3.RECORD) (wave1 : double) (k : nat) (Dk : Unkompress3.RECORD) : Prop :=
  ((exists m Dm, D !! m = Some Dm /\ contains Dm wave1) -> contains Dk wave1)
  /\ (~ (exists m Dm, D !! m = Some Dm /\ contains Dm wave1) ->
      above Dk wave1
      /\ forall m Dm, (m < k)%nat -> D !! m = Some Dm -> ~ above Dm wave1).

(** [a <= w <= b] as C evaluates it. *)
Definition in_range (a b w : double) : bool := dge w a && dle w b.


(** The first [m] entries of [ws] exist and lie in [a, b]. *)
Definition lines_in_range (a b : double) (m : nat) (ws : list double) : Prop :=
  forall k, (k < m)%nat ->
            exists w, ws !! k = Some w /\ dle a w = true /\ dle w b = true.

(** The indices below [n], in growing order, of the wavelengths of [ws]
    that lie in [a, b]. *)
Fixpoint kept_lines (a b : double) (ws : list double) (n : nat) : list nat :=
  match n with
  | O => []
  | S n' =>
      match ws !! n' with
      | Some w => if in_range a b w then (kept_lines a b ws n' ++ [n'])%list
                  else kept_lines a b ws n'
      | None => kept_lines a b ws n'
      end
  end.

(** [a'] is [a] after the [n] cells from [src] were copied to the [n]
    cells from [dst]. *)
Definition moved {A} (dst src n : nat) (a a' : list A) : Prop :=
  length a' = length a
  /\ forall p, a' !! p = if decide (dst <= p < dst + n)%nat
                         then a !! (p - dst + src)%nat else a !! p.

(** [a] is [a0] compacted with cells of [stride] entries: cell [k] of [a]
    is cell [idx[k]] of [a0], and [a] is [a0] behind the last such cell. *)
Definition relocated {A} (stride : nat) (idx : list nat) (a0 a : list A) : Prop :=
  length a = length a0
  /\ (forall k i t, idx !! k = Some i -> (t < stride)%nat ->
                    a !! (k * stride + t)%nat = a0 !! (i * stride + t)%nat)
  /\ (forall p, (length idx * stride <= p)%nat -> a !! p = a0 !! p).

(** The arrays [b] are the arrays [b0] after the lines [idx] were moved to
    the front as [ukread_] moves them: the numbers one by one, the text in
    cells of 76 bytes. *)
Definition compacted (idx : list nat) (b0 b : Unkompress3.buffers) : Prop :=
  relocated 1 idx (Unkompress3.wl b0) (Unkompress3.wl b)
  /\ relocated 1 idx (Unkompress3.element b0) (Unkompress3.element b)
  /\ relocated 1 idx (Unkompress3.j_low b0) (Unkompress3.j_low b)
  /\ relocated 1 idx (Unkompress3.e_low b0) (Unkompress3.e_low b)
  /\ relocated 1 idx (Unkompress3.j_high b0) (Unkompress3.j_high b)
  /\ relocated 1 idx (Unkompress3.e_high b0) (Unkompress3.e_high b)
  /\ relocated 1 idx (Unkompress3.loggf b0) (Unkompress3.loggf b)
  /\ relocated 1 idx (Unkompress3.gamrad b0) (Unkompress3.gamrad b)
  /\ relocated 1 idx (Unkompress3.gamst b0) (Unkompress3.gamst b)
  /\ relocated 1 idx (Unkompress3.gamvw b0) (Unkompress3.gamvw b)
  /\ relocated 1 idx (Unkompress3.lande_low b0) (Unkompress3.lande_low b)
  /\ relocated 1 idx (Unkompress3.lande_high b0) (Unkompress3.lande_high b)
  /\ relocated 76 idx (Unkompress3.str b0) (Unkompress3.str b).

(** The twelve numbers of line [k] of [b'] are those of line [i] of [b0]. *)
Definition same_numbers (k i : nat) (b' b0 : Unkompress3.buffers) : Prop :=
  Unkompress3.wl b' !! k = Unkompress3.wl b0 !! i
  /\ Unkompress3.element b' !! k = Unkompress3.element b0 !! i
  /\ Unkompress3.j_low b' !! k = Unkompress3.j_low b0 !! i
  /\ Unkompress3.e_low b' !! k = Unkompress3.e_low b0 !! i
  /\ Unkompress3.j_high b' !! k = Unkompress3.j_high b0 !! i
  /\ Unkompress3.e_high b' !! k = Unkompress3.e_high b0 !! i
  /\ Unkompress3.loggf b' !! k = Unkompress3.loggf b0 !! i
  /\ Unkompress3.gamrad b' !! k = Unkompress3.gamrad b0 !! i
  /\ Unkompress3.gamst b' !! k = Unkompress3.gamst b0 !! i
  /\ Unkompress3.gamvw b' !! k = Unkompress3.gamvw b0 !! i
  /\ Unkompress3.lande_low b' !! k = Unkompress3.lande_low b0 !! i
  /\ Unkompress3.lande_high b' !! k = Unkompress3.lande_high b0 !! i.

(** Every wavelength of the list lies in [a, b]. *)
Definition all_in_range (a b : double) (ws : list double) : Prop :=
  Forall (fun w => in_range a b w = true) ws.


(** Every character of [s] passes the test [p]. *)
Fixpoint all_chars (p : ascii -> bool) (s : string) : bool :=
  match s with
  | EmptyString => true
  | String c t => p c && all_chars p t
  end.

(** The character is not [x]. *)
Definition is_not (x : ascii) (c : ascii) : bool := negb (Ascii.eqb c x).

(** The characters that an address taken from a [From:] line never holds. *)
Definition never_in_address (c : ascii) : bool :=
  Ascii.eqb c ">" || Ascii.eqb c NL || Ascii.eqb c ":" || Ascii.eqb c "!"
  || Ascii.eqb c DQ || Ascii.eqb c "(".

(** The characters of a plain address. *)
Definition plain (c : ascii) : bool :=
  negb (Ascii.eqb c " " || Ascii.eqb c NL || Ascii.eqb c DQ || Ascii.eqb c "("
        || Ascii.eqb c "<" || Ascii.eqb c ">" || Ascii.eqb c ":" || Ascii.eqb c "!").

(** What an alias may not hold for the forms below to be read. *)
Definition alias_char (c : ascii) : bool :=
  negb (Ascii.eqb c DQ || Ascii.eqb c "(" || Ascii.eqb c ")" || Ascii.eqb c "<"
        || Ascii.eqb c ">" || Ascii.eqb c NL).

(** The decimal digits read from left to right onto [acc]. *)
Fixpoint digits_value (d : Decimal.uint) (acc : Z) : Z :=
  match d with
  | Decimal.Nil => acc
  | Decimal.D0 l => digits_value l (10 * acc)
  | Decimal.D1 l => digits_value l (10 * acc + 1)
  | Decimal.D2 l => digits_value l (10 * acc + 2)
  | Decimal.D3 l => digits_value l (10 * acc + 3)
  | Decimal.D4 l => digits_value l (10 * acc + 4)
  | Decimal.D5 l => digits_value l (10 * acc + 5)
  | Decimal.D6 l => digits_value l (10 * acc + 6)
  | Decimal.D7 l => digits_value l (10 * acc + 7)
  | Decimal.D8 l => digits_value l (10 * acc + 8)
  | Decimal.D9 l => digits_value l (10 * acc + 9)
  end%Z.

(** One function over every character. *)
Fixpoint map_chars (f : ascii -> ascii) (s : string) : string :=
  match s with
  | EmptyString => EmptyString
  | String c t => String (f c) (map_chars f t)
  end.

(** The characters [RemoveMeta] looks for. *)
Definition shell_meta (c : ascii) : bool :=
  Ascii.eqb c ";" || Ascii.eqb c "&" || Ascii.eqb c "|" || Ascii.eqb c ">"
  || Ascii.eqb c "<" || Ascii.eqb c DQ || Ascii.eqb c NL || Ascii.eqb c CR.

Fixpoint occurrences (c : ascii) (s : string) : nat :=
  match s with
  | EmptyString => 0
  | String x t => (if Ascii.eqb x c then 1 else 0) + occurrences c t
  end.

(** [c] blanked, every other character kept. *)
Definition blank_one (c x : ascii) : ascii := if Ascii.eqb x c then " "%char else x.

(** The second character in lower case, as [GetElementNumber] leaves its
    argument when it finds it. *)
Definition capitalised (e : string) : string :=
  match e with
  | String a (String b t) => String a (String (tolower b) t)
  | _ => e
  end.

Section JobFile.
Import Parserequest.

(** What a function that only writes to the job file and to the directory of
    the personal configurations leaves as it was, and how the job file grows:
    [more] is what was appended. *)
Definition appended (more : list string) (st st' : pstate) : Prop :=
  Client_Name st' = Client_Name st
  /\ Personal_VALD_CONFIG st' = Personal_VALD_CONFIG st
  /\ cwd st' = cwd st
  /\ fo st' = (fo st ++ more)%list.

Definition grows (st st' : pstate) : Prop := exists more, appended more st st'.

Definition step_grows (f : kw -> ctl kw) : Prop :=
  forall k, grows (snd k) (snd (finish (f k))).

(** A failure was reported: a banner that starts with [FAILURE:] was added
    to the job file, last or followed by the removal of [pres_in]; no file
    was written to the working directory. *)
Definition reported (pres_in : string) (number : Z) (st st' : pstate) : Prop :=
  exists before reason after,
    appended (before ++ banner ("FAILURE: " +:+ reason) number :: after) st st'
    /\ (after = [] \/ after = [ "rm " +:+ pres_in +:+ nl ]).

(** The request was handed on: [pres_in] was written, and the job file ends
    with its removal. *)
Definition submitted (pres_in : string) (st st' : pstate) : Prop :=
  exists before text,
    Client_Name st' = Client_Name st
    /\ Personal_VALD_CONFIG st' = Personal_VALD_CONFIG st
    /\ cwd st' = <[pres_in := text]> (cwd st)
    /\ fo st' = (fo st ++ before ++ [ "rm " +:+ pres_in +:+ nl ])%list.

End JobFile.

Section Arrays.
Import Unkompress3.

(** The lengths of the thirteen arrays, in the order of the parameters. *)
Definition sizes (b : buffers) : list nat :=
  [ length (wl b); length (element b); length (j_low b); length (e_low b);
    length (j_high b); length (e_high b); length (loggf b); length (gamrad b);
    length (gamst b); length (gamvw b); length (lande_low b); length (lande_high b);
    length (str b) ].

(** The arrays hold [n] lines: [n] entries each, and 210 bytes for each line. *)
Definition holds_lines (n : nat) (o : buffers) : Prop :=
  sizes o = (replicate 12 n ++ [(n * 210)%nat])%list.

(** The arrays keep their lengths, and no line is counted that has no room. *)
Definition in_room (b : buffers) (o : output) : Prop :=
  sizes (bufs o) = sizes b /\ (nlines o <= length (wl b))%nat.

(** The records of the file behind [f] that [uknext_] has not read yet;
    [current_record] is compared as the [unsigned] it is converted to. *)
Definition records_left (f : Z) (lib : library) : nat :=
  match valid_file f lib with
  | Some r => Z.to_nat (number_of_records r - current_record r mod 2 ^ 32)
  | None => 0
  end.

(** [number_of_records] holds a [word]. *)
Definition word_count (f : Z) (lib : library) : Prop :=
  forall r, valid_file f lib = Some r -> (0 <= number_of_records r < 2 ^ 32)%Z.

(** The bytes of the text block of line [n] that a big-endian host
    exchanges. *)
Definition exchanged (n k : nat) : Prop := (n * 210 + 177 <= k <= n * 210 + 182)%nat.

(** The byte of [record] at [i], as a read of [record[i]] gives it. *)
Definition byte_at (record : record_buffer) (i : Z) : Z := default 0%Z (record !! i).

(** [record] holds [unsigned char]s. *)
Definition of_bytes (record : record_buffer) : Prop :=
  forall i v, record !! i = Some v -> (0 <= v < 256)%Z.

(** The byte under the cursor of [ReadCode] and the two bytes behind it, as
    one number, least significant byte first. *)
Definition window (record : record_buffer) (c : cursor) : Z :=
  (byte1 c + 256 * byte_at record (current_byte_in_record c)
   + 65536 * byte_at record (current_byte_in_record c + 1))%Z.

(** The bytes as [ADDLINE] puts them in [line]. *)
Definition as_chars (chars : list Z) : list Z := map (fun c => (c mod 256)%Z) chars.

(** [q] lines of [LINE_LENGTH] bytes each, taken from [all] in order and
    stored from index [n] on. *)
Fixpoint store_lines (cbo : bool) (q : nat) (all : list Z) (n : nat) (b : buffers)
  : res buffers :=
  match q with
  | O => Done b
  | S q' =>
      do b <- store_line cbo (take LINE_LENGTH all) n b;
      store_lines cbo q' (drop LINE_LENGTH all) (S n) b
  end.

(** The widths of the decoder fit together: the codes are 9 to 16 bits
    wide, [MaxCode] and [ReadMask] belong to that width, the next free code
    is none of the fixed ones and not beyond [MaxCode], the code last read
    has the width, the bit offset is that of the start or one within a
    byte, and [line] is not full. *)
Definition in_step (d : decoder) : Prop :=
  (9 <= CodeSize d <= MAX_CODE_SIZE)%Z
  /\ MaxCode d = (2 ^ CodeSize d)%Z
  /\ ReadMask d = (MaxCode d - 1)%Z
  /\ (258 <= FreeCode d <= MaxCode d)%Z
  /\ (0 <= Code d < MaxCode d)%Z
  /\ (-1 <= BitOffset (cur d) < 8)%Z
  /\ (length (line (out d)) < LINE_LENGTH)%nat.

End Arrays.

(** A line that opens no mail and names no sender. *)
Definition body_line (l : string) : bool :=
  negb (strncmp0 l "From " 5) && negb (strncmp0 l "From: " 6).

(** The test of line 369 of parsemail.c on a line of the mail. *)
Definition begins_request (l : string) : bool :=
  strncmp0 (str2lower (Parsemail.compress l)) "beginrequest" (strlen "beginrequest").

(** A line of the mailbox that [fgets(s, 80, fi)] returns whole: it ends
    with its new line, holds no other new line and no NUL, and has at most
    79 characters. *)
Definition whole_line (l : string) : Prop :=
  exists t, l = t +:+ String NL EmptyString
            /\ all_chars (is_not NL) t = true /\ all_chars (is_not NUL) t = true
            /\ (strlen t <= 78)%nat.

Section Mailbox.
Import Parsemail.

(** The state in which [main] enters its loop. *)
Definition at_start (mail : string) (n : Z) : state :=
  mkState mail [] n None EmptyString EmptyString EmptyString false false false
    [ "#!/bin/csh" +:+ String NL EmptyString;
      "set ERROR_STATE=0" +:+ String NL EmptyString ] ∅.

(** The state after the line that opens the first mail. *)
Definition after_envelope (envelope rest : string) (n : Z) : state :=
  mkState rest (buf_puts envelope []) (n + 1) (Some ("request." +:+ fmt_06ld (n + 1)))
    ("request." +:+ fmt_06ld (n + 1)) EmptyString EmptyString false false false
    [ "#!/bin/csh" +:+ String NL EmptyString;
      "set ERROR_STATE=0" +:+ String NL EmptyString ]
    {[ "request." +:+ fmt_06ld (n + 1) := envelope ]}.

(** The state after the [From:] line of a sender that was found. *)
Definition after_header (envelope header rest client : string) (n : Z) : state :=
  mkState rest (buf_puts header (buf_puts envelope [])) (n + 1)
    (Some ("request." +:+ fmt_06ld (n + 1))) ("request." +:+ fmt_06ld (n + 1))
    (extract_address (str_drop 6 header)) client false false
    (strcmp0 client "VALDMirrorSite")
    [ "#!/bin/csh" +:+ String NL EmptyString;
      "set ERROR_STATE=0" +:+ String NL EmptyString ]
    {[ "request." +:+ fmt_06ld (n + 1) := envelope +:+ header ]}.

(** The state after the [From:] line of a sender that was not found. *)
Definition after_stranger (envelope header rest : string) (n : Z) : state :=
  mkState rest (buf_puts header (buf_puts envelope [])) n None
    ("request." +:+ fmt_06ld (n + 1)) (extract_address (str_drop 6 header)) EmptyString
    false false false
    [ "#!/bin/csh" +:+ String NL EmptyString;
      "set ERROR_STATE=0" +:+ String NL EmptyString ] ∅.

End Mailbox.

(** What [RemoveMeta] makes of a character. *)
Definition blank_meta (c : ascii) : ascii := if shell_meta c then " "%char else c.

(** The first nineteen characters of [subject]. *)
Definition subject_head : string := "echo " +:+ String DQ "Subject: Re: ".

Section Replies.
Context `{valdems_h}.

(** Lines 278-279 and 415-416: the reply to the sender. *)
Definition reply_lines (st : Parsemail.state) : list string :=
  [ SENDMAIL +:+ " " +:+ Parsemail.address st +:+ " < result."
      +:+ fmt_06ld (Parsemail.n_requests st);
    " || (echo ERROR: sendmail failed for request " +:+ fmt_ld (Parsemail.n_requests st)
      +:+ "; set ERROR_STATE=1)" +:+ String NL EmptyString ].

End Replies.

End Spec.

(** ** Sample inputs *)
Module Samples.
Import CStr Ieee.

Definition nl : string := String NL EmptyString.

#[export] Instance site : valdems_h := {|
  VALD_HOME := "/home/vald";
  VALD_LOGS_DIR := "/LOGS";
  VALD_CONFIG := "/CONFIG/default.cfg";
  PERSONAL_CONFIG_DIR := "/CONFIG/personal";
  VALD_FTP_DIR := "/ftp/vald";
  VALD_FTP := "ftp://vald.example.org";
  PROG_PARSEREQUEST := "/bin/parserequest";
  PROG_PRESELECT := "/bin/preselect";
  PROG_FORMAT := "/bin/format";
  PROG_HFS_SPLIT := "/bin/hfs_split";
  PROG_POST_HFS_FORMAT := "/bin/post_hfs_format";
  PRESFORMAT_BIB_FILE := "presformat.bib";
  POST_HFS_BIB_FILE := "post_hfs.bib";
  SENDMAIL := "/usr/sbin/sendmail";
  BASE64 := "base64";
  MAX_LINES_PER_FTP := 100000;
  MAX_LINES_PER_REQUEST := 1000;
  LOG_DEBUGGING := false
|}.

(** A register with one client. *)
Definition register : string :=
  "#$ Alice Example" +:+ nl +:+ "alice@example.org" +:+ nl.

(** A register whose address line is named by no [#$] line. *)
Definition unnamed_register : string := "bob@example.org" +:+ nl.

(** A local register with one client. *)
Definition local_register : string :=
  "#$ Carol Local" +:+ nl +:+ "carol@example.com" +:+ nl.

(** One mail of a sender who is in no register; its body quotes a header. *)
Definition stranger_mail : string :=
  "From eve@example.net Fri Oct 30 10:22:00 2026" +:+ nl
  +:+ "From: eve@example.net" +:+ nl
  +:+ "Subject: hello" +:+ nl
  +:+ nl
  +:+ "Alice wrote:" +:+ nl
  +:+ "From: eve@example.net" +:+ nl.

Definition stranger_run : Parsemail.environment := {|
  Parsemail.VALD_MAIL := Some stranger_mail;
  Parsemail.CLIENTS_REGISTER := Some register;
  Parsemail.CLIENTS_REGISTER_LOCAL := None;
  Parsemail.LAST_SUBMITTED_REQUEST := Some "5"
|}.

(** A header in the form [alias <name@address>]. *)
Definition alias_header : string := "Alice <alice@example.org>" +:+ nl.

(** The state of [parserequest] for client AliceExample before the request
    type is parsed; [default_config] tells whether the default
    configuration file can be opened. *)
Definition request_state (default_config : option string) : Parserequest.pstate :=
  Parserequest.mkP Parserequest.initial_flags "AliceExample" "AliceExample.cfg" []
    ∅ default_config true ∅.

(** Plain decimal numerals, as exact rationals: a reading of [strtod] for
    the numbers of the sample requests (no exponent, no rounding). *)
Fixpoint decimal_digits (s : string) (acc : Z) (n : nat) : Z * nat * string :=
  match s with
  | String c t =>
      if isdigit c then
        decimal_digits t (10 * acc + Z.of_nat (nat_of_ascii c - 48))%Z (S n)
      else (acc, n, s)
  | EmptyString => (acc, n, s)
  end.

Fixpoint skip_blanks (s : string) : string :=
  match s with
  | String c t => if isspace c then skip_blanks t else s
  | EmptyString => s
  end.

Definition decimal_strtod (s : string) : option (double * string) :=
  let s := skip_blanks s in
  let '(negative, s) :=
    match s with
    | String c t =>
        if Ascii.eqb c "-" then (true, t) else if Ascii.eqb c "+" then (false, t)
        else (false, s)
    | EmptyString => (false, s)
    end in
  let '(ip, ni, s1) := decimal_digits s 0 0 in
  let '(fp, nf, s2) :=
    match s1 with
    | String c t => if Ascii.eqb c "." then decimal_digits t 0 0 else (0%Z, 0%nat, s1)
    | EmptyString => (0%Z, 0%nat, s1)
    end in
  if (ni + nf =? 0)%nat then None
  else
    let q := Qred (Qmake (ip * 10 ^ Z.of_nat nf + fp) (Z.to_pos (10 ^ Z.of_nat nf))) in
    Some (Finite (if negative then Qopp q else q), s2).

(** [%.2f] of an exact value, ties to even. *)
Definition decimal_2f (d : double) : string :=
  match d with
  | NaN => "nan"
  | PInf => "inf"
  | NInf => "-inf"
  | Finite q =>
      let t := (Qabs q * 100)%Q in
      let f := Qfloor t in
      let half := (Qfloor (t * 2)%Q - 2 * f)%Z in
      let tie := Qeq_bool (t * 2)%Q (inject_Z (2 * f + 1)) in
      let r := if tie then (if Z.even f then f else f + 1)%Z else (f + half)%Z in
      (if Qle_bool 0 q then EmptyString else "-")
      +:+ fmt_ld (r / 100) +:+ "." +:+ fmt_0ld 2 (r mod 100)
  end.

(** [%lg] of the whole numbers below a million, which is all that the
    sample requests print; other values are shown with two decimals. *)
Definition decimal_lg (d : double) : string :=
  match d with
  | Finite q =>
      if (Zpos (Qden (Qred q)) =? 1)%Z && (Z.abs (Qnum (Qred q)) <? 1000000)%Z
      then fmt_ld (Qnum (Qred q)) else decimal_2f d
  | _ => decimal_2f d
  end.

#[export] Instance decimal : libc_float := {|
  strtod := decimal_strtod;
  fmt_lg := decimal_lg;
  fmt_2f := decimal_2f
|}.

(** The rest of an [ExtractAll] request with a range of one wavelength. *)
Definition point_range : string := "5000,5000" +:+ nl +:+ "end request" +:+ nl.

(** Seven abundances on one line, and one abundance. *)
Definition seven_abundances : string :=
  "Fe:-4.5,Sr:-4.67,Cr:-3.37,Eu:-5.53,Ti:-7.05,Mn:-6.61,Ni:-5.78" +:+ nl
  +:+ "end request" +:+ nl.

Definition one_abundance : string := "Fe:-4.5" +:+ nl +:+ "end request" +:+ nl.

(** An abundance line with an element that does not exist. *)
Definition unknown_abundance : string := "Fe:-4.5,Xx:-1.0,Sr:-4.67" +:+ nl.

(** The [n] bytes of [w], least significant first. *)
Fixpoint bytes_le (n : nat) (w : Z) : list Z :=
  match n with
  | O => []
  | S n' => Z.land w 255 :: bytes_le n' (Z.shiftr w 8)
  end.

(** The 270 bytes of a transition: the wavelength by its bit pattern, the
    species code, zero for the other numbers, and a text block filled with
    one letter. *)
Definition transition (wavelength species letter : Z) : list Z :=
  (bytes_le 8 wavelength ++ bytes_le 4 species ++ replicate 48 0%Z
   ++ replicate 210 letter)%list.

(** A packet of the compressed format that spells the bytes out: each
    byte is its own code, a clear code comes after every 200 of them so
    that the codes stay nine bits wide, and the end-of-packet code closes
    it. *)
Fixpoint literal_codes (bs : list Z) (left : nat) : list Z :=
  match bs with
  | [] => [257%Z]
  | b :: rest =>
      match left with
      | O => 256%Z :: b :: literal_codes rest 199
      | S left' => b :: literal_codes rest left'
      end
  end.

Fixpoint packed (codes : list Z) : Z :=
  match codes with
  | [] => 0
  | c :: rest => Z.lor c (Z.shiftl (packed rest) 9)
  end.

Definition packet (bs : list Z) : list Z :=
  let codes := literal_codes bs 200 in
  bytes_le ((9 * length codes + 7) / 8) (packed codes).

(** Wavelengths 4100, 4950 and 5000 in the first record, 5050 and 5200 in
    the second. *)
Definition first_record : list Z :=
  packet (transition 0x40b0040000000000 2600 65
          ++ transition 0x40b3560000000000 2601 66
          ++ transition 0x40b3880000000000 2800 67).

Definition second_record : list Z :=
  packet (transition 0x40b3ba0000000000 2200 68
          ++ transition 0x40b4500000000000 2400 69).

(** The descriptor of the two records, of 917 and of 611 bytes. *)
Definition directory : list Unkompress3.RECORD :=
  [ Unkompress3.mkRECORD (Finite 4000) (Finite 5000) 0 917;
    Unkompress3.mkRECORD (Finite 5000) (Finite 6000) 917 611 ].

Definition open_reader : Unkompress3.reader :=
  Unkompress3.mkReader (first_record ++ second_record) 0 2 0 directory.

(** The library with that file open under handle 1 and nothing read yet. *)
Definition opened : Unkompress3.library :=
  Unkompress3.mkLibrary {[ 1%Z := open_reader ]}
    (Unkompress3.mkLzw ∅ false 0 ∅ ∅).

(** Output arrays with room for [n] transitions. *)
Definition room (n : nat) : Unkompress3.buffers :=
  let d := replicate n zero in
  Unkompress3.mkBuf d (replicate n 0%Z) d d d d d d d d d d (replicate (n * 210) 0%Z).


(** A record of two transitions, at 4100 and at 4950, that carry the same
    text; it takes 611 bytes. *)
Definition uniform_record : list Z :=
  packet (transition 0x40b0040000000000 2600 65
          ++ transition 0x40b3560000000000 2601 65).

Definition uniform_opened : Unkompress3.library :=
  Unkompress3.mkLibrary
    {[ 1%Z := Unkompress3.mkReader uniform_record 0 1 0
                [Unkompress3.mkRECORD (Finite 4000) (Finite 5000) 0 611] ]}
    (Unkompress3.mkLzw ∅ false 0 ∅ ∅).

(** The call returned, and what it returned passes the test [P]. *)
Definition holds {A} (P : A -> bool) (x : Unkompress3.res A) : bool :=
  match x with
  | Unkompress3.Done y => P y
  | _ => false
  end.

(** The library and the arrays after the first record of [opened] was read
    for the range from 4000 to 5020. *)
Definition after_read : Unkompress3.library * Unkompress3.buffers :=
  match Unkompress3.ukread_ 1 (Finite 4000) (Finite 5020) opened (room 4) with
  | Unkompress3.Done (_, lib, b) => (lib, b)
  | _ => (opened, room 4)
  end.


(** A request of the mirror site that has its begin request line. *)
Definition mirror_request : Parsemail.state :=
  Parsemail.mkState EmptyString [] 7 (Some "request.000007") "request.000007"
    "mirror@example.org" "VALDMirrorSite" true false true [] ∅.

(** The files of a run that follows one which ended with the counter 41. *)
Definition resumed_run : Parsemail.environment := {|
  Parsemail.VALD_MAIL := None;
  Parsemail.CLIENTS_REGISTER := Some register;
  Parsemail.CLIENTS_REGISTER_LOCAL := None;
  Parsemail.LAST_SUBMITTED_REQUEST := Some (fmt_ld 41)
|}.

(** The 24 bytes of an entry of the descriptor, the wavelengths by their
    bit patterns. *)
Definition descriptor_entry (first last offset length : Z) : list Z :=
  (bytes_le 8 first ++ bytes_le 8 last ++ bytes_le 4 offset ++ bytes_le 4 length)%list.

(** The descriptor file of [directory]: two records, from 4000 to 5000 and
    from 5000 to 6000. *)
Definition descriptor_file : list Z :=
  (bytes_le 4 2
   ++ descriptor_entry 0x40af400000000000 0x40b3880000000000 0 917
   ++ descriptor_entry 0x40b3880000000000 0x40b7700000000000 917 611)%list.

Definition on_disk : Unkompress3.disk :=
  {[ "lines.dsc" := descriptor_file;
     "lines.cvald" := (first_record ++ second_record)%list ]}.

(** The library before any file was opened. *)
Definition nothing_open : Unkompress3.library :=
  Unkompress3.mkLibrary ∅ (Unkompress3.mkLzw ∅ false 0 ∅ ∅).

(** The library after a reader was constructed on the two files. *)
Definition from_disk : Unkompress3.library :=
  match Vald3Reader.construct false 0 on_disk "lines.cvald" "lines.dsc" nothing_open with
  | Unkompress3.Done (_, lib) => lib
  | _ => nothing_open
  end.

(** The query returned [n] lines, of the species given. *)
Definition gives_lines (n : Z) (species : list Z)
  (x : Vald3Reader.answer * Unkompress3.library) : bool :=
  match fst x with
  | Vald3Reader.dict m (Some o) =>
      (m =? n)%Z && bool_decide (Unkompress3.element o = species)
  | _ => false
  end.

(** A request file that is open, and the rest of the mail that is still to
    be read. *)
Definition open_request : Parsemail.state :=
  Parsemail.mkState
    ("begin request" +:+ nl +:+ "extract all" +:+ nl
     +:+ "5000, 5010" +:+ nl +:+ "end request" +:+ nl)
    [] 7 (Some "request.000007") "request.000007" "alice@example.org" "AliceExample"
    false false false []
    {[ "request.000007" := "From: alice@example.org" +:+ nl ]}.

Definition alice_envelope : string :=
  "From alice@example.org Fri Oct 30 10:22:00 2026" +:+ nl.
Definition alice_header : string := "From: Alice <alice@example.org>" +:+ nl.
Definition alice_body : string :=
  "Subject: lines" +:+ nl +:+ nl +:+ "begin request" +:+ nl
  +:+ "extract all" +:+ nl +:+ "5000, 5010" +:+ nl
  +:+ "end request" +:+ nl.

(** A run on a mailbox with one mail of a registered client, after a run
    that ended with the counter 41. *)
Definition alice_run : Parsemail.environment := {|
  Parsemail.VALD_MAIL := Some (alice_envelope +:+ alice_header +:+ alice_body);
  Parsemail.CLIENTS_REGISTER := Some register;
  Parsemail.CLIENTS_REGISTER_LOCAL := None;
  Parsemail.LAST_SUBMITTED_REQUEST := Some (fmt_ld 41)
|}.

End Samples.

(** * Theorems *)

(** ** libc *)
Module CStrFacts.
Import CStr.

Lemma strncmp0_take (a b : string) (n : nat) :
  strncmp0 a b n = true <-> str_take n a = str_take n b.
Proof.
  revert a b; induction n as [|n IH]; intros a b; simpl.
  - split; reflexivity.
  - destruct a as [|x a], b as [|y b]; simpl; try (split; [reflexivity | reflexivity]);
      try (split; discriminate).
    rewrite andb_true_iff, IH. split.
    + intros [Hxy Ht]. apply Ascii.eqb_eq in Hxy. congruence.
    + intros Heq. injection Heq as -> ->. split; [apply Ascii.eqb_refl | reflexivity].
Qed.

Lemma strchr_cut (c : ascii) (s : string) :
  match strchr s c with Some k => str_take k s | None => s end
  = Spec.cut_at_first (fun x => Ascii.eqb x c) s.
Proof.
  induction s as [|x s IH]; simpl; [reflexivity|].
  destruct (Ascii.eqb x c); [reflexivity|].
  destruct (strchr s c); simpl in *; congruence.
Qed.

Lemma cut_cut (p q : ascii -> bool) (s : string) :
  Spec.cut_at_first q (Spec.cut_at_first p s)
  = Spec.cut_at_first (fun c => p c || q c) s.
Proof.
  induction s as [|x s IH]; simpl; [reflexivity|].
  destruct (p x); simpl; [reflexivity|].
  destruct (q x); [reflexivity|]. now rewrite IH.
Qed.

Lemma cut_ext (p q : ascii -> bool) (s : string) :
  (forall c, p c = q c) -> Spec.cut_at_first p s = Spec.cut_at_first q s.
Proof.
  intros E; induction s as [|x s IH]; simpl; [reflexivity|].
  rewrite E. destruct (q x); congruence.
Qed.

End CStrFacts.

(** ** backend/parsemail.c *)
Module ParsemailFacts.
Import CStr Parsemail Spec.
#[local] Existing Instance Samples.site.

Lemma terminate_cut (s1 : string) :
  terminate s1
  = cut_at_first
      (match strchr s1 ">" with
       | Some _ => fun c => Ascii.eqb c ">" || Ascii.eqb c NL
       | None => fun c => Ascii.eqb c " " || Ascii.eqb c NL
       end) s1.
Proof.
  unfold terminate; cbv zeta.
  pose proof (CStrFacts.strchr_cut ">" s1) as Hgt.
  pose proof (CStrFacts.strchr_cut " " s1) as Hsp.
  destruct (strchr s1 ">") as [c|].
  - rewrite Hgt, (CStrFacts.strchr_cut NL (cut_at_first _ s1)).
    apply CStrFacts.cut_cut.
  - destruct (strchr s1 " ") as [c1|].
    + rewrite Hsp, (CStrFacts.strchr_cut NL (cut_at_first _ s1)).
      apply CStrFacts.cut_cut.
    + rewrite (CStrFacts.strchr_cut NL s1), <- CStrFacts.cut_cut, <- Hsp.
      reflexivity.
Qed.

(** C7, as amended: after quoted and parenthesised aliases are stripped, the
    text is cut at the first [>] or new line when it holds a [>], and at the
    first blank or new line otherwise; if a [<] is present only the text
    behind the first one is kept, and the server name and routes are then
    trimmed from it. *)
Theorem extract_address_terminator (s6 : string) :
  extract_address s6
  = trim_route
      (after_bracket
         (cut_at_first
            (match strchr (strip_aliases s6) ">" with
             | Some _ => fun c => Ascii.eqb c ">" || Ascii.eqb c NL
             | None => fun c => Ascii.eqb c " " || Ascii.eqb c NL
             end) (strip_aliases s6))).
Proof.
  unfold extract_address. now rewrite terminate_cut.
Qed.

(** C7 as stated fails: for [Alice <alice@example.org>] the first of [>],
    blank and new line is the blank, which would leave the alias; the code
    cuts at the [>] and finds the address. *)
Lemma first_terminator_is_not_the_cut :
  extract_address Samples.alias_header = "alice@example.org"
  /\ claimed_address Samples.alias_header = "Alice".
Proof. split; vm_compute; reflexivity. Qed.

Lemma address_matches_prefix_equal (s1 s : string) :
  address_matches s1 (strlen s1) s = true <-> prefix_equal s1 s.
Proof.
  unfold address_matches, prefix_equal. rewrite CStrFacts.strncmp0_take.
  destruct (Nat.ltb_spec (strlen s1) (strlen s)) as [Hlt|Hge].
  - now rewrite Nat.min_l by lia.
  - now rewrite Nat.min_r by lia.
Qed.

Lemma CheckClient_loop_cons (s : string) (rest : list string) (s1 : string) (l : nat)
  (ClientName : string) :
  CheckClient_loop (s :: rest) s1 l ClientName
  = if Ascii.eqb (char_at 0 s) "#" then
      if negb (Ascii.eqb (char_at 1 s) "$") then CheckClient_loop rest s1 l ClientName
      else CheckClient_loop rest s1 l (client_of_comment s)
    else
      if address_matches s1 l (str2lower s) then (true, ClientName)
      else CheckClient_loop rest s1 l ClientName.
Proof. reflexivity. Qed.

Lemma CheckClient_loop_match (lines : list string) (s1 : string) (l : nat)
  (ClientName : string) :
  fst (CheckClient_loop lines s1 l ClientName) = true
  <-> exists line, In line lines /\ address_line line = true
                   /\ address_matches s1 l (str2lower line) = true.
Proof.
  revert ClientName; induction lines as [|s rest IH]; intros ClientName.
  - simpl. split; [discriminate | intros (? & [] & _)].
  - rewrite CheckClient_loop_cons. cbn [In].
    destruct (Ascii.eqb (char_at 0 s) "#") eqn:Hc.
    + assert (Hs : address_line s = false) by (unfold address_line; now rewrite Hc).
      assert (Hskip : forall nm, fst (CheckClient_loop rest s1 l nm) = true
                <-> exists line, (s = line \/ In line rest) /\ address_line line = true
                                 /\ address_matches s1 l (str2lower line) = true).
      { intros nm. rewrite IH. split.
        - intros (line & Hin & Hrest). exists line; tauto.
        - intros (line & [<- | Hin] & Ha & Hm); [congruence | exists line; tauto]. }
      destruct (negb (Ascii.eqb (char_at 1 s) "$")); apply Hskip.
    + assert (Hs : address_line s = true) by (unfold address_line; now rewrite Hc).
      destruct (address_matches s1 l (str2lower s)) eqn:Hm; simpl.
      * split; [intros _ | reflexivity]. exists s; auto.
      * rewrite IH. split.
        -- intros (line & Hin & Hrest). exists line; tauto.
        -- intros (line & [<- | Hin] & Ha & Hm'); [congruence | exists line; tauto].
Qed.

Lemma CheckClient_loop_no_match (lines : list string) (s1 : string) (l : nat)
  (ClientName : string) :
  fst (CheckClient_loop lines s1 l ClientName) = false ->
  snd (CheckClient_loop lines s1 l ClientName) = EmptyString.
Proof.
  revert ClientName; induction lines as [|s rest IH]; intros ClientName;
    [reflexivity|].
  rewrite CheckClient_loop_cons.
  destruct (Ascii.eqb (char_at 0 s) "#").
  - destruct (negb (Ascii.eqb (char_at 1 s) "$")); apply IH.
  - destruct (address_matches s1 l (str2lower s)); [discriminate | apply IH].
Qed.

Lemma is_empty_false (s : string) : s <> EmptyString -> is_empty s = false.
Proof. destruct s; [congruence | reflexivity]. Qed.




(** C1 fails on the code: a mail of an unregistered sender whose body holds
    a second [From: ] line releases its request number twice.  The counter
    read as 5 is written back as 4, and no request was committed. *)
Theorem quoted_header_lowers_counter :
  initial_counter Samples.stranger_run = 5%Z
  /\ persisted (main Samples.stranger_run) = Some 4%Z
  /\ committed (process_file_of (main Samples.stranger_run)) = 0%nat.
Proof. repeat split; vm_compute; reflexivity. Qed.

End ParsemailFacts.

(** ** backend/parserequest.c *)
Module ParserequestFacts.
Import CStr Ieee Parserequest Spec.

Lemma str_take_drop (n : nat) (s : string) : s = str_take n s +:+ str_drop n s.
Proof.
  revert s; induction n as [|n IH]; intros [|c s]; simpl; try reflexivity.
  change (String c s = String c (str_take n s +:+ str_drop n s)).
  f_equal. apply IH.
Qed.

Lemma strncmp0_prefix (u KEY : string) (n : nat) :
  strncmp0 u KEY n = true -> exists rest, u = str_take n KEY +:+ rest.
Proof.
  intros H. apply CStrFacts.strncmp0_take in H.
  exists (str_drop n u). rewrite <- H. apply str_take_drop.
Qed.

Lemma toupper_idem (c : ascii) : toupper (toupper c) = toupper c.
Proof.
  destruct c as [[] [] [] [] [] [] [] []]; reflexivity.
Qed.

Lemma str2upper_idem (s : string) : str2upper (str2upper s) = str2upper s.
Proof.
  induction s as [|c s IH]; simpl; [reflexivity|]. now rewrite toupper_idem, IH.
Qed.

Lemma SetKeyword_steps (number : Z) (k : kw) :
  SetKeyword number k = finish (later_steps (long_short k >>> personal number)).
Proof. reflexivity. Qed.

Lemma later_steps_consumed (st : pstate) :
  finish (later_steps (Next (EmptyString, st))) = (EmptyString, st).
Proof. reflexivity. Qed.

Lemma later_steps_return (k : kw) : finish (later_steps (Return k)) = k.
Proof. reflexivity. Qed.

Lemma SetKeyword_upper (number : Z) (s1 : string) (st : pstate) :
  SetKeyword number (s1, st) = SetKeyword number (str2upper s1, st).
Proof.
  rewrite !SetKeyword_steps. unfold long_short; cbn [fst snd].
  now rewrite !str2upper_idem.
Qed.

(** A token that starts with the deciding prefix of a keyword of the table
    is consumed and sets the flag of that keyword. *)
Lemma SetKeyword_hit (number : Z) (s1 : string) (st : pstate)
  (KEY : string) (n : nat) (f : flag) (v : Z) :
  In (KEY, n, f, v) keyword_table ->
  recognised s1 KEY n = true ->
  SetKeyword number (s1, st) = (EmptyString, assign f v st).
Proof.
  unfold recognised. intros Hin Hrec.
  rewrite SetKeyword_upper.
  destruct (strncmp0_prefix _ _ _ Hrec) as [rest Hu]. rewrite Hu. clear Hu Hrec.
  unfold keyword_table in Hin. cbn [In] in Hin.
  repeat (destruct Hin as [Hin | Hin];
    [ injection Hin as <- <- <- <-; vm_compute; reflexivity | ]).
  destruct Hin.
Qed.

Lemma keyword_miss (KEY : string) (n : nat) (f : flag) (v : Z) (u : string)
  (st : pstate) :
  str2upper u = u -> strncmp0 u KEY n = false ->
  keyword KEY n f v (u, st) = Next (u, st).
Proof.
  intros Hu H. unfold keyword; cbn [fst snd]. now rewrite Hu, H.
Qed.

Lemma long_short_miss (u : string) (st : pstate) :
  str2upper u = u ->
  strncmp0 u "LONGFORMAT" 4 = false -> strncmp0 u "SHORTFORMAT" 5 = false ->
  long_short (u, st) = Next (u, st).
Proof.
  intros Hu H1 H2. unfold long_short; cbn [fst snd]. now rewrite !Hu, H1, H2.
Qed.

Lemma default_configuration_miss (u : string) (st : pstate) :
  str2upper u = u -> strncmp0 u "DEFAULTCONFIGURATION" 10 = false ->
  default_configuration (u, st) = Next (u, st).
Proof.
  intros Hu H. unfold default_configuration; cbn [fst snd]. now rewrite Hu, H.
Qed.

Lemma personal_miss (number : Z) (u : string) (st : pstate) :
  str2upper u = u -> strncmp0 u "PERSONALCONFIGURATION" 6 = false ->
  personal number (u, st) = Next (u, st).
Proof.
  intros Hu H. unfold personal; cbn [fst snd]. now rewrite Hu, H.
Qed.

(** A token that no keyword recognises comes back in upper case, and
    nothing else changes. *)
Lemma SetKeyword_miss (number : Z) (s1 : string) (st : pstate) :
  (forall KEY n f v, In (KEY, n, f, v) keyword_table -> recognised s1 KEY n = false) ->
  recognised s1 (fst personal_keyword) (snd personal_keyword) = false ->
  SetKeyword number (s1, st) = (str2upper s1, st).
Proof.
  unfold recognised; cbn [fst snd personal_keyword]. intros Hall Hp.
  rewrite SetKeyword_upper, SetKeyword_steps.
  pose proof (str2upper_idem s1) as Hu.
  assert (Hk : forall KEY n,
             (exists f v, In (KEY, n, f, v) keyword_table) ->
             strncmp0 (str2upper s1) KEY n = false).
  { intros KEY n (f & v & Hin). eapply Hall, Hin. }
  assert (Hin : forall KEY n f v,
             existsb (fun e => let '(K, m, _, _) := e in
                               String.eqb K KEY && Nat.eqb m n) keyword_table = true ->
             keyword KEY n f v (str2upper s1, st) = Next (str2upper s1, st)).
  { intros KEY n f v He. apply keyword_miss; [exact Hu|]. apply Hk.
    apply existsb_exists in He as ([[[K m] f'] v'] & Hin & He).
    apply andb_true_iff in He as [HK Hm].
    apply String.eqb_eq in HK. apply Nat.eqb_eq in Hm. subst. eauto. }
  rewrite long_short_miss by (try exact Hu; apply Hk; do 2 eexists;
                              unfold keyword_table; cbn [In]; eauto 30).
  cbn [and_then]. rewrite personal_miss by assumption.
  unfold later_steps. cbn [and_then].
  rewrite default_configuration_miss
    by (try exact Hu; apply Hk; do 2 eexists; unfold keyword_table; cbn [In]; eauto 30).
  repeat (cbn [and_then]; rewrite Hin by reflexivity).
  reflexivity.
Qed.

Lemma personal_hit (number : Z) (u : string) (st : pstate) :
  str2upper u = u -> strncmp0 u "PERSONALCONFIGURATION" 6 = true ->
  let r := finish (later_steps (personal number (u, st))) in
  fst r = EmptyString
  /\ vars (snd r) PersonalConfiguration = if personal_config_available st then 1%Z else 0%Z.
Proof.
  intros Hu H. unfold personal, personal_config_available; cbn [fst snd]. rewrite Hu, H.
  destruct st as [vs cn pvc job cd dc w files]; cbn [config_dir Personal_VALD_CONFIG
    default_config config_dir_writable assign fprintf_fo write_config vars].
  destruct (cd !! pvc) as [found|].
  - rewrite later_steps_return. split; reflexivity.
  - destruct dc as [text|].
    + destruct w; cbn [negb].
      * rewrite later_steps_consumed. split; reflexivity.
      * rewrite later_steps_return. split; reflexivity.
    + rewrite later_steps_return. split; reflexivity.
Qed.

(** The keyword that selects the personal configuration is consumed; its
    flag is set when the configuration file is there or could be made, and
    cleared when it could not. *)
Lemma SetKeyword_personal (number : Z) (s1 : string) (st : pstate) :
  recognised s1 (fst personal_keyword) (snd personal_keyword) = true ->
  fst (SetKeyword number (s1, st)) = EmptyString
  /\ vars (snd (SetKeyword number (s1, st))) PersonalConfiguration
     = if personal_config_available st then 1%Z else 0%Z.
Proof.
  unfold recognised; cbn [fst snd personal_keyword]. intros H.
  rewrite SetKeyword_upper, SetKeyword_steps.
  pose proof (str2upper_idem s1) as Hu.
  destruct (strncmp0_prefix _ _ _ H) as [rest Hrest].
  rewrite long_short_miss; [| exact Hu | rewrite Hrest; reflexivity .. ].
  cbn [and_then]. now apply personal_hit.
Qed.

(** C4, as amended: a token whose upper-case form begins with the deciding
    prefix of a keyword is cleared and the flag of the keyword is set to the
    value of the keyword; for PERSONALCONFIGURATION the flag is set when the
    client's configuration file is there or could be made from the default
    one, and cleared with an error written when it could not; a token that
    matches no keyword is returned in upper case, with no flag changed. *)
Theorem SetKeyword_keywords (number : Z) (s1 : string) (st : pstate) :
  (forall KEY n f v,
      In (KEY, n, f, v) keyword_table -> recognised s1 KEY n = true ->
      SetKeyword number (s1, st) = (EmptyString, assign f v st))
  /\ (recognised s1 (fst personal_keyword) (snd personal_keyword) = true ->
      fst (SetKeyword number (s1, st)) = EmptyString
      /\ vars (snd (SetKeyword number (s1, st))) PersonalConfiguration
         = if personal_config_available st then 1%Z else 0%Z)
  /\ ((forall KEY n f v,
          In (KEY, n, f, v) keyword_table -> recognised s1 KEY n = false) ->
      recognised s1 (fst personal_keyword) (snd personal_keyword) = false ->
      SetKeyword number (s1, st) = (str2upper s1, st)).
Proof.
  split; [|split].
  - intros KEY n f v. apply SetKeyword_hit.
  - apply SetKeyword_personal.
  - apply SetKeyword_miss.
Qed.

Lemma not_in_table (token : string) :
  forallb (fun e => let '(KEY, n, _, _) := e in negb (recognised token KEY n))
    keyword_table = true ->
  forall KEY n f v, In (KEY, n, f, v) keyword_table -> recognised token KEY n = false.
Proof.
  intros H KEY n f v Hin. rewrite forallb_forall in H.
  specialize (H _ Hin). cbn in H. now apply negb_true_iff in H.
Qed.

(** [SetKeyword_keywords] on three tokens: a keyword, the personal
    configuration of a client who has none yet, and a wavelength range. *)
Lemma SetKeyword_keywords_witness :
  SetKeyword 7 ("longformat", Samples.request_state None)
    = (EmptyString, assign LongFormat 1 (Samples.request_state None))
  /\ vars (snd (SetKeyword 7 ("PersonalConfig", Samples.request_state (Some "cfg"))))
       PersonalConfiguration = 1%Z
  /\ SetKeyword 7 ("5000,5010", Samples.request_state None)
     = ("5000,5010", Samples.request_state None).
Proof.
  split; [|split].
  - apply (proj1 (SetKeyword_keywords 7 "longformat" (Samples.request_state None))
             "LONGFORMAT" 4%nat LongFormat 1%Z); [left; reflexivity | reflexivity].
  - apply (proj1 (proj2 (SetKeyword_keywords 7 "PersonalConfig"
                           (Samples.request_state (Some "cfg"))))).
    reflexivity.
  - apply (proj2 (proj2 (SetKeyword_keywords 7 "5000,5010" (Samples.request_state None)))).
    + apply not_in_table. reflexivity.
    + reflexivity.
Defined.

(** C4 as stated fails twice: a token that matches no keyword is not
    returned unchanged but in upper case, and the keyword of the personal
    configuration leaves its flag cleared when the file cannot be made. *)
Lemma unmatched_token_is_upper_cased :
  (forallb (fun e => let '(KEY, n, _, _) := e in negb (recognised "Fe:-4.5" KEY n))
     keyword_table = true
   /\ recognised "Fe:-4.5" (fst personal_keyword) (snd personal_keyword) = false
   /\ fst (SetKeyword 7 ("Fe:-4.5", Samples.request_state None)) = "FE:-4.5"
   /\ fst (SetKeyword 7 ("Fe:-4.5", Samples.request_state None)) <> "Fe:-4.5")
  /\ (recognised "PERSONALCONFIG" (fst personal_keyword) (snd personal_keyword) = true
      /\ vars (snd (SetKeyword 7 ("PERSONALCONFIG", Samples.request_state None)))
           PersonalConfiguration = 0%Z).
Proof.
  repeat split; try (vm_compute; reflexivity).
  vm_compute. discriminate.
Qed.

Lemma dgt_finite (x y : Q) : dgt (Finite x) (Finite y) = true <-> (y < x)%Q.
Proof.
  unfold dgt, dlt. rewrite negb_true_iff, <- not_true_iff_false, Qle_bool_iff.
  split; [apply Qnot_le_lt | apply Qlt_not_le].
Qed.

Lemma dle_finite (x y : Q) : dle (Finite x) (Finite y) = true <-> (x <= y)%Q.
Proof. unfold dle. apply Qle_bool_iff. Qed.

Section Requests.
Context `{valdems_h} `{libc_float}.


End Requests.

#[local] Existing Instance Samples.site.
#[local] Existing Instance Samples.decimal.



Lemma width_app (a b : list string) : width (a ++ b) = (width a + width b)%nat.
Proof.
  induction a as [|t a IH]; simpl; [reflexivity|]. rewrite IH. lia.
Qed.

Lemma wrap_invariant_wrapped (writes : list string) (i : Z) :
  wrap_invariant writes i -> wrapped writes.
Proof.
  unfold wrap_invariant, wrapped, lines_of_writes.
  destruct (fold_left add_write writes ([], [])) as [done current].
  intros (Hdone & Hcur & _) tokens Hin. apply in_app_or in Hin as [Hin | [<- | []]]; auto.
Qed.

Lemma wrap_newline (writes : list string) (i : Z) :
  wrap_invariant writes i -> wrap_invariant (writes ++ [nl]) 0.
Proof.
  unfold wrap_invariant. rewrite fold_left_app.
  destruct (fold_left add_write writes ([], [])) as [done current].
  intros (Hdone & Hcur & _). cbn [fold_left add_write].
  change (String.eqb nl (String NL EmptyString)) with true. cbv iota.
  repeat split; [| simpl; lia].
  intros tokens Hin. apply in_app_or in Hin as [Hin | [<- | []]]; auto.
Qed.

Lemma wrap_token (writes : list string) (i : Z) (t : string) :
  wrap_invariant writes i -> (i <= 66)%Z -> String.eqb t nl = false ->
  wrap_invariant (writes ++ [t]) (i + Z.of_nat (strlen t)).
Proof.
  unfold wrap_invariant. rewrite fold_left_app.
  destruct (fold_left add_write writes ([], [])) as [done current].
  intros (Hdone & Hcur & Hi) Hle Ht. cbn [fold_left add_write].
  change (String NL EmptyString) with nl. rewrite Ht.
  repeat split; [assumption | |].
  - rewrite removelast_last. lia.
  - rewrite width_app. simpl. lia.
Qed.

Lemma long_token_is_no_newline (t : string) : (5 <= strlen t)%nat -> String.eqb t nl = false.
Proof.
  intros Hlen. apply String.eqb_neq. intros ->. vm_compute in Hlen. lia.
Qed.

Section Abundances.
Context `{valdems_h} `{libc_float}.

Lemma abundance_tokens_wrap (fuel : nat) (abn : double) (next : option string)
  (number : Z) (i : Z) (base writes fo : list string) :
  wrap_invariant writes i ->
  exists writes',
    snd (fst (abundance_tokens fuel abn next number i (base ++ writes) fo))
    = (base ++ writes')%list
    /\ wrap_invariant writes'
         (fst (fst (abundance_tokens fuel abn next number i (base ++ writes) fo))).
Proof.
  revert next i writes fo.
  induction fuel as [|fuel IH]; intros next i writes fo Hinv.
  - exists writes. split; [reflexivity | exact Hinv].
  - destruct next as [nx|]; [| exists writes; split; [reflexivity | exact Hinv]].
    cbn [abundance_tokens].
    destruct (CheckAbund abn nx) as [next' outs].
    destruct (Nat.leb_spec 5 (strlen outs)) as [Hlen | Hshort]; [| apply IH, Hinv].
    pose proof (long_token_is_no_newline outs Hlen) as Hnl.
    destruct (Z.ltb_spec 66 i) as [Hwide | Hfits].
    + rewrite <- !app_assoc. apply IH.
      rewrite app_assoc. apply wrap_token; [eapply wrap_newline, Hinv | lia | exact Hnl].
    + rewrite <- app_assoc. apply IH. now apply wrap_token.
Qed.

Lemma abundance_lines_wrap (lines : list string) (abn : double) (number : Z) (i : Z)
  (base writes : list string) (st : pstate) :
  wrap_invariant writes i ->
  exists writes',
    snd (fst (abundance_lines lines abn number i (base ++ writes) st))
    = (base ++ writes')%list
    /\ wrap_invariant writes'
         (fst (fst (abundance_lines lines abn number i (base ++ writes) st))).
Proof.
  revert i writes st.
  induction lines as [|s rest IH]; intros i writes st Hinv.
  - exists writes. split; [reflexivity | exact Hinv].
  - cbn [abundance_lines].
    destruct (SetKeyword number (compress s 320, st)) as [s1 st1].
    destruct (is_empty s1); [apply IH, Hinv|].
    destruct (strncmp0 s1 "ENDREQUEST" (strlen "ENDREQUEST"));
      [exists writes; split; [reflexivity | exact Hinv]|].
    destruct (abundance_tokens_wrap (S (strlen s1)) abn (Some s1) number i base writes
                (fo st1) Hinv) as (writes1 & Hw & Hinv1).
    destruct (abundance_tokens (S (strlen s1)) abn (Some s1) number i (base ++ writes)
                (fo st1)) as [[i1 fo1] fo'].
    cbn [fst snd] in Hw, Hinv1. subst fo1. apply IH, Hinv1.
Qed.

Lemma names_no_element (abn : double) (next : string) :
  names_element next = false -> CheckAbund abn next = unknown_element next.
Proof.
  unfold names_element, CheckAbund.
  destruct (Ascii.eqb (char_at 1 next) ":").
  - destruct (GetElementNumber (String (char_at 0 next) " ")) as [num el]; cbn [fst].
    now intros ->.
  - destruct (strncmp0 next "MH:" 3 || strncmp0 next "m/h:" 4); [discriminate|].
    destruct (Ascii.eqb (char_at 2 next) ":"); [|reflexivity].
    destruct (GetElementNumber _) as [num el]; cbn [fst]. now intros ->.
Qed.

Lemma strlen_append (a b : string) : strlen (a +:+ b) = (strlen a + strlen b)%nat.
Proof.
  induction a as [|c a IH]; [reflexivity|].
  change (strlen (String c (a +:+ b)) = S (strlen a + strlen b)). simpl. now rewrite <- IH.
Qed.

Lemma str2upper_length (s : string) : strlen (str2upper s) = strlen s.
Proof. induction s as [|c s IH]; simpl; [reflexivity | now f_equal]. Qed.

Lemma GetElementNumber_length (elname : string) :
  strlen (snd (GetElementNumber elname)) = strlen elname.
Proof.
  unfold GetElementNumber. rewrite <- (str2upper_length elname).
  destruct (find_element (str2upper elname) elements 0); cbn [snd]; [|reflexivity].
  destruct (1 <? strlen (str2upper elname))%nat; [|reflexivity].
  destruct (str2upper elname) as [|a [|b t]]; reflexivity.
Qed.

Lemma names_element_token (abn : double) (next : string) :
  names_element next = true -> (5 <= strlen (snd (CheckAbund abn next)))%nat.
Proof.
  unfold names_element, CheckAbund.
  destruct (Ascii.eqb (char_at 1 next) ":").
  - pose proof (GetElementNumber_length (String (char_at 0 next) " ")) as Hel.
    destruct (GetElementNumber (String (char_at 0 next) " ")) as [num el];
      cbn [fst snd] in *.
    intros ->. cbn [snd].
    change (strlen (String SQ (str_take 1 el +:+ (":" +:+ fmt_2f
              (scan_abn (str_drop 2 next) abn) +:+ String SQ ",")))
            >= 5)%nat.
    destruct el as [|a [|b [|c t]]]; try discriminate Hel.
    cbn [strlen String.length]. rewrite !strlen_append. simpl. lia.
  - destruct (strncmp0 next "MH:" 3 || strncmp0 next "m/h:" 4).
    + intros _. cbn [snd].
      change (strlen (String SQ ("M/H:" +:+ (fmt_2f (scan_abn (str_drop 3 next) abn)
                +:+ String SQ ","))) >= 5)%nat.
      cbn [strlen String.length]. rewrite !strlen_append. simpl. lia.
    + destruct (Ascii.eqb (char_at 2 next) ":"); [|discriminate].
      pose proof (GetElementNumber_length
                    (String (char_at 0 next) (String (char_at 1 next) EmptyString))) as Hel.
      destruct (GetElementNumber _) as [num el]; cbn [fst snd] in *. intros ->. cbn [snd].
      change (strlen (String SQ (el +:+ (":" +:+ fmt_2f (scan_abn (str_drop 3 next) abn)
                +:+ String SQ ","))) >= 5)%nat.
      cbn [strlen String.length]. rewrite !strlen_append. unfold strlen in *.
      simpl in *. lia.
Qed.

Lemma str_take_length (n : nat) (s : string) : (strlen (str_take n s) <= n)%nat.
Proof.
  unfold strlen. revert s; induction n as [|n IH]; intros [|c s]; simpl; try lia.
  specialize (IH s). lia.
Qed.


End Abundances.



End ParserequestFacts.

(** ** Comparisons of [double] values *)
Module IeeeFacts.
Import Ieee.

Lemma dle_ordered (a b : double) : dle a b = true -> a <> NaN /\ b <> NaN.
Proof. destruct a, b; simpl; intros H; split; congruence. Qed.

Lemma dlt_ordered (a b : double) : dlt a b = true -> a <> NaN /\ b <> NaN.
Proof. destruct a, b; simpl; intros H; split; congruence. Qed.

Lemma dlt_not_dle (a b : double) : a <> NaN -> b <> NaN -> dlt a b = negb (dle b a).
Proof. destruct a, b; simpl; intros Ha Hb; congruence. Qed.

Lemma dle_refl (a : double) : a <> NaN -> dle a a = true.
Proof.
  destruct a; simpl; intros Ha; try congruence. apply Qle_bool_iff, Qle_refl.
Qed.

Lemma dle_trans (a b c : double) : dle a b = true -> dle b c = true -> dle a c = true.
Proof.
  destruct a, b, c; simpl; intros H1 H2; try congruence.
  apply Qle_bool_iff in H1, H2. apply Qle_bool_iff. eapply Qle_trans; eauto.
Qed.

Lemma dle_total (a b : double) : a <> NaN -> b <> NaN -> dle a b = false -> dle b a = true.
Proof.
  destruct a, b; simpl; intros Ha Hb H; try congruence.
  apply Qle_bool_iff. apply not_true_iff_false in H. rewrite Qle_bool_iff in H.
  apply Qlt_le_weak, Qnot_le_lt, H.
Qed.

Lemma dle_antisym_lt (a b : double) : dlt a b = true -> dle b a = false.
Proof.
  intros H. pose proof (dlt_ordered _ _ H) as [Ha Hb].
  rewrite dlt_not_dle in H by assumption. now apply negb_true_iff in H.
Qed.

Lemma dlt_dle_trans (a b c : double) : dlt a b = true -> dle b c = true -> dlt a c = true.
Proof.
  intros H1 H2. pose proof (dlt_ordered _ _ H1) as [Ha Hb].
  pose proof (dle_ordered _ _ H2) as [_ Hc].
  rewrite dlt_not_dle in * by assumption. apply negb_true_iff in H1.
  apply negb_true_iff. destruct (dle c a) eqn:Hca; [|reflexivity].
  rewrite (dle_trans _ _ _ H2 Hca) in H1. discriminate.
Qed.

Lemma dle_dlt_trans (a b c : double) : dle a b = true -> dlt b c = true -> dlt a c = true.
Proof.
  intros H1 H2. pose proof (dlt_ordered _ _ H2) as [Hb Hc].
  pose proof (dle_ordered _ _ H1) as [Ha _].
  rewrite dlt_not_dle in * by assumption. apply negb_true_iff in H2.
  apply negb_true_iff. destruct (dle c a) eqn:Hca; [|reflexivity].
  rewrite (dle_trans _ _ _ Hca H1) in H2. discriminate.
Qed.

End IeeeFacts.

(** ** vald/lib/vald3/src/unkompress3.c *)
Module Unkompress3Facts.
Import Ieee Unkompress3 Spec IeeeFacts.

Lemma bind_done {A B} (r : res A) (f : A -> res B) (y : B) :
  bind r f = Done y -> exists x, r = Done x /\ f x = Done y.
Proof. destruct r; simpl; intros H; try discriminate. eauto. Qed.

Lemma fetch_done {A} (a : list A) (i : Z) (x : A) :
  fetch a i = Done x <-> (0 <= i)%Z /\ a !! Z.to_nat i = Some x.
Proof.
  unfold fetch. destruct (Z.ltb_spec i 0).
  - split; [discriminate | lia].
  - destruct (a !! Z.to_nat i) eqn:E; split; intros H'; try discriminate.
    + injection H' as ->. auto.
    + destruct H' as [_ H']. congruence.
    + destruct H' as [_ H']. discriminate.
Qed.

Lemma fetch_nat {A} (a : list A) (i : nat) (x : A) :
  a !! i = Some x -> fetch a (Z.of_nat i) = Done x.
Proof. intros H. apply fetch_done. rewrite Nat2Z.id. split; [lia | exact H]. Qed.

Lemma int32_small (x : Z) : (0 <= x < 2 ^ 31)%Z -> int32 x = x.
Proof.
  intros Hx. unfold int32, to_signed.
  rewrite Z.mod_small by lia.
  change (2 ^ (32 - 1))%Z with (2 ^ 31)%Z.
  destruct (Z.ltb_spec x (2 ^ 31)); lia.
Qed.

(** In a sorted directory the starts grow, and a range ends before every
    later one starts. *)
Lemma sorted_far (D : list RECORD) :
  sorted_directory D ->
  forall d a ra rb,
    D !! a = Some ra -> D !! (a + d)%nat = Some rb ->
    dle (wl1 ra) (wl1 rb) = true /\ ((0 < d)%nat -> dle (wl2 ra) (wl1 rb) = true).
Proof.
  intros [Hin Hadj]. induction d as [|d IH]; intros a ra rb Ha Hb.
  - rewrite Nat.add_0_r in Hb. assert (ra = rb) as <- by congruence.
    split; [|lia]. apply dle_refl. apply (dle_ordered _ _ (Hin _ _ Ha)).
  - assert (is_Some (D !! (a + d)%nat)) as [rm Hm].
    { apply lookup_lt_is_Some. apply lookup_lt_Some in Hb. lia. }
    destruct (IH a ra rm Ha Hm) as [H1 H2].
    replace (a + S d)%nat with (S (a + d)) in Hb by lia.
    pose proof (Hadj _ _ _ Hm Hb) as Hstep. pose proof (Hin _ _ Hm) as Hmid.
    split.
    + eapply dle_trans; [exact H1|]. eapply dle_trans; eauto.
    + intros _. destruct d as [|d].
      * rewrite Nat.add_0_r in Hm. assert (ra = rm) as -> by congruence. exact Hstep.
      * eapply dle_trans; [apply H2; lia|]. eapply dle_trans; eauto.
Qed.

Lemma sorted_starts (D : list RECORD) (a b : nat) (ra rb : RECORD) :
  sorted_directory D -> (a <= b)%nat -> D !! a = Some ra -> D !! b = Some rb ->
  dle (wl1 ra) (wl1 rb) = true.
Proof.
  intros HD Hab Ha Hb. replace b with (a + (b - a))%nat in Hb by lia.
  apply (sorted_far D HD _ _ _ _ Ha Hb).
Qed.

Lemma sorted_apart (D : list RECORD) (a b : nat) (ra rb : RECORD) :
  sorted_directory D -> (a < b)%nat -> D !! a = Some ra -> D !! b = Some rb ->
  dle (wl2 ra) (wl1 rb) = true.
Proof.
  intros HD Hab Ha Hb. replace b with (a + (b - a))%nat in Hb by lia.
  apply (sorted_far D HD _ _ _ _ Ha Hb). lia.
Qed.

(** The loop of the bisection keeps a record that starts at or below
    [wave1] on its left and, unless the right end is still the last record,
    a record that starts above [wave1] on its right; it ends with the two
    next to each other. *)
Lemma bisect_spec (D : list RECORD) (wave1 : double) :
  sorted_directory D ->
  (Z.of_nat (length D) <= 2 ^ 30)%Z ->
  forall fuel i j k,
    (0 <= i)%Z -> (i <= j)%Z -> (j < Z.of_nat (length D))%Z ->
    (j - i <= Z.of_nat fuel)%Z ->
    (exists ri, D !! Z.to_nat i = Some ri /\ dle (wl1 ri) wave1 = true) ->
    (j = Z.of_nat (length D) - 1
     \/ exists rj, D !! Z.to_nat j = Some rj /\ dlt wave1 (wl1 rj) = true)%Z ->
    exists i' j' k',
      bisect fuel D wave1 i j k = Done (i', j', k')
      /\ (0 <= i')%Z /\ (i' <= j')%Z /\ (j' < Z.of_nat (length D))%Z
      /\ (j' - i' <= 1)%Z /\ ((i < j)%Z -> (i' < j')%Z)
      /\ (exists ri, D !! Z.to_nat i' = Some ri /\ dle (wl1 ri) wave1 = true)
      /\ (j' = Z.of_nat (length D) - 1
          \/ exists rj, D !! Z.to_nat j' = Some rj /\ dlt wave1 (wl1 rj) = true)%Z.
Proof.
  intros [Hin _] Hn.
  induction fuel as [|fuel IH]; intros i j k Hi Hij Hj Hfuel Hleft Hright.
  - exists i, j, k. simpl. rewrite int32_small by lia.
    destruct (Z.ltb_spec 1 (j - i)); [lia|].
    repeat split; auto; lia.
  - cbn [bisect]. rewrite int32_small by lia.
    destruct (Z.ltb_spec 1 (j - i)) as [Hwide | Hnarrow].
    + rewrite int32_small by lia.
      assert (Hmid : (i < Z.quot (i + j) 2 < j)%Z).
      { rewrite Z.quot_div_nonneg by lia. Z.div_mod_to_equations. lia. }
      set (m := Z.quot (i + j) 2) in *.
      assert (is_Some (D !! Z.to_nat m)) as [rm Hm].
      { apply lookup_lt_is_Some. lia. }
      assert (Hfetch : fetch D m = Done rm) by (apply fetch_done; split; [lia | exact Hm]).
      rewrite Hfetch. cbn [bind].
      destruct (dlt wave1 (wl1 rm)) eqn:Hcmp.
      * destruct (IH i m m) as (i' & j' & k' & Hb & H1 & H2 & H3 & H4 & H5 & H6 & H7);
          try lia; auto.
        { right. eauto. }
        exists i', j', k'. repeat split; auto; lia.
      * destruct (IH m j m) as (i' & j' & k' & Hb & H1 & H2 & H3 & H4 & H5 & H6 & H7);
          try lia; auto.
        { destruct Hleft as (ri & Hri & Hle).
          exists rm. split; [exact Hm|].
          pose proof (dle_ordered _ _ Hle) as [_ Hw].
          assert (Hrm : wl1 rm <> NaN) by apply (dle_ordered _ _ (Hin _ _ Hm)).
          rewrite dlt_not_dle in Hcmp by assumption.
          apply negb_false_iff in Hcmp. exact Hcmp. }
        exists i', j', k'. repeat split; auto; lia.
    + exists i, j, k. repeat split; auto; lia.
Qed.

Lemma dlt_asym (a b : double) : dlt a b = true -> dlt b a = false.
Proof.
  intros H. pose proof (dlt_ordered _ _ H) as [Ha Hb].
  rewrite dlt_not_dle by assumption. apply negb_false_iff.
  apply dle_total; auto. now apply dle_antisym_lt.
Qed.

Lemma sought_holding (D : list RECORD) (wave1 : double) (k : nat) (Dk : RECORD) :
  D !! k = Some Dk -> contains Dk wave1 -> sought D wave1 k Dk.
Proof.
  intros Hk Hc. split; [auto|]. intros Hno. exfalso. apply Hno. eauto.
Qed.

Lemma sought_first_above (D : list RECORD) (wave1 : double) (k : nat) (Dk : RECORD) :
  sorted_directory D -> D !! k = Some Dk -> dlt wave1 (wl1 Dk) = true ->
  (forall m Dm, (m < k)%nat -> D !! m = Some Dm -> dlt (wl2 Dm) wave1 = true) ->
  sought D wave1 k Dk.
Proof.
  intros HD Hk Habove Hbelow.
  assert (Hnone : ~ (exists m Dm, D !! m = Some Dm /\ contains Dm wave1)).
  { intros (m & Dm & Hm & Hlo & Hhi).
    destruct (Nat.lt_ge_cases m k) as [Hlt | Hge].
    - pose proof (dle_antisym_lt _ _ (Hbelow _ _ Hlt Hm)). congruence.
    - pose proof (sorted_starts D k m Dk Dm HD Hge Hk Hm) as Hs.
      pose proof (dle_antisym_lt _ _ (dlt_dle_trans _ _ _ Habove Hs)). congruence. }
  split; [intros H; exfalso; auto|]. intros _. split; [exact Habove|].
  intros m Dm Hlt Hm Ha. unfold above in Ha.
  destruct HD as [Hin Hadj].
  pose proof (dle_dlt_trans _ _ _ (Hin _ _ Hm) (Hbelow _ _ Hlt Hm)) as Hb.
  apply dlt_asym in Hb. congruence.
Qed.

Lemma locate_spec (r : reader) (wave1 wave2 : double) (first last : RECORD) :
  number_of_records r = Z.of_nat (length (records r)) ->
  (Z.of_nat (length (records r)) <= 2 ^ 30)%Z ->
  sorted_directory (records r) ->
  records r !! 0%nat = Some first ->
  records r !! (length (records r) - 1)%nat = Some last ->
  dle wave1 wave2 = true ->
  if dgt wave1 (wl2 last) || dlt wave2 (wl1 first) then locate r wave1 wave2 = Done None
  else exists k Dk,
      locate r wave1 wave2 = Done (Some (Z.of_nat k))
      /\ records r !! k = Some Dk /\ sought (records r) wave1 k Dk.
Proof.
  intros Hnum Hn HD Hfirst Hlast Hw.
  pose proof (dle_ordered _ _ Hw) as [Hw1 Hw2].
  pose proof HD as [Hin Hadj].
  assert (Hlen : (0 < length (records r))%nat) by (apply lookup_lt_Some in Hfirst; lia).
  unfold locate. rewrite Hnum, int32_small by lia.
  assert (Hfl : fetch (records r) (Z.of_nat (length (records r)) - 1) = Done last).
  { apply fetch_done. split; [lia|].
    replace (Z.to_nat (Z.of_nat (length (records r)) - 1))
      with (length (records r) - 1)%nat by lia. exact Hlast. }
  assert (Hff : fetch (records r) 0 = Done first) by (apply fetch_done; split; [lia | exact Hfirst]).
  rewrite Hfl; cbn [bind].
  destruct (dgt wave1 (wl2 last)) eqn:Hbeyond; cbn [orb]; [reflexivity|].
  rewrite Hff; cbn [bind].
  destruct (dlt wave2 (wl1 first)) eqn:Hbefore; [reflexivity|].
  assert (Hlast_hi : dle wave1 (wl2 last) = true).
  { unfold dgt in Hbeyond. rewrite dlt_not_dle in Hbeyond; auto.
    - now apply negb_false_iff in Hbeyond.
    - apply (dle_ordered _ _ (Hin _ _ Hlast)). }
  destruct (dlt wave1 (wl1 first)) eqn:Hlow.
  - exists 0%nat, first. split; [reflexivity|]. split; [exact Hfirst|].
    apply sought_first_above; auto. intros m Dm Hm. lia.
  - assert (Hleft : dle (wl1 first) wave1 = true).
    { rewrite dlt_not_dle in Hlow; auto.
      - now apply negb_false_iff in Hlow.
      - apply (dle_ordered _ _ (Hin _ _ Hfirst)). }
    destruct (bisect_spec (records r) wave1 HD Hn
                (Z.to_nat (Z.of_nat (length (records r)) - 1)) 0
                (Z.of_nat (length (records r)) - 1) 0)
      as (i & j & k & Hb & Hi & Hij & Hj & Hnarrow & Hstrict & (ri & Hri & Hile) & Hright);
      try lia; eauto.
    rewrite Hb; cbn [bind].
    assert (Hfi : fetch (records r) i = Done ri) by (apply fetch_done; auto).
    rewrite Hfi; cbn [bind].
    assert (is_Some (records r !! Z.to_nat j)) as [rj Hrj] by (apply lookup_lt_is_Some; lia).
    destruct (dgt wave1 (wl2 ri)) eqn:Hpast.
    + exists (Z.to_nat j), rj. rewrite Z2Nat.id by lia.
      split; [reflexivity|]. split; [exact Hrj|].
      assert (Hneq : (i < j)%Z).
      { destruct (Z.eq_dec i j) as [-> | Hne]; [|lia]. exfalso.
        assert (Z.of_nat (length (records r)) - 1 = 0)%Z as Hone by lia.
        assert (j = 0)%Z as -> by lia.
        assert (ri = last).
        { replace (length (records r) - 1)%nat with (Z.to_nat 0) in Hlast by lia.
          congruence. }
        subst ri. congruence. }
      assert (Hbelow : forall m Dm, (m < Z.to_nat j)%nat -> records r !! m = Some Dm ->
                                    dlt (wl2 Dm) wave1 = true).
      { intros m Dm Hm HDm. unfold dgt in Hpast.
        destruct (Nat.eq_dec m (Z.to_nat i)) as [-> | Hne].
        - assert (Dm = ri) as -> by congruence. exact Hpast.
        - assert (Hmi : (m < Z.to_nat i)%nat) by lia.
          pose proof (sorted_apart _ _ _ _ _ HD Hmi HDm Hri) as H1.
          eapply dle_dlt_trans; [|exact Hpast].
          eapply dle_trans; [exact H1 | apply (Hin _ _ Hri)]. }
      destruct (dlt wave1 (wl1 rj)) eqn:Hup.
      * apply sought_first_above; auto.
      * apply sought_holding; auto.
        assert (j = Z.of_nat (length (records r)) - 1)%Z as Hjlast.
        { destruct Hright as [-> | (rj' & Hrj' & Hlt)]; [reflexivity | congruence]. }
        assert (rj = last).
        { replace (length (records r) - 1)%nat with (Z.to_nat j) in Hlast by lia.
          congruence. }
        subst rj. split; [|exact Hlast_hi].
        rewrite dlt_not_dle in Hup; auto.
        -- now apply negb_false_iff in Hup.
        -- apply (dle_ordered _ _ (Hin _ _ Hlast)).
    + exists (Z.to_nat i), ri. rewrite Z2Nat.id by lia.
      split; [reflexivity|]. split; [exact Hri|].
      apply sought_holding; auto. split; [exact Hile|].
      unfold dgt in Hpast. rewrite dlt_not_dle in Hpast; auto.
      * now apply negb_false_iff in Hpast.
      * apply (dle_ordered _ _ (Hin _ _ Hri)).
Qed.

Lemma read_located_codes (f : Z) (r : reader) (k : Z) (wave1 wave2 : double)
  (lib : library) (b : buffers) (code : Z) (lib' : library) (b' : buffers) :
  read_located f r k wave1 wave2 lib b = Done (code, lib', b') ->
  code = (-4)%Z \/ (0 <= code)%Z.
Proof.
  unfold read_located. intros H.
  apply bind_done in H as (Dk & _ & H).
  apply bind_done in H as ([[ok r'] g] & _ & H).
  destruct (negb ok); [injection H as <- _ _; auto|].
  apply bind_done in H as ([[nlines g'] b1] & _ & H).
  apply bind_done in H as ([fc b2] & _ & H).
  injection H as <- _ _. right. lia.
Qed.



(** The directory of the sample file is sorted. *)
Lemma sample_directory_sorted : sorted_directory Samples.directory.
Proof.
  split.
  - intros [|[|i]] r; simpl; intros H; try discriminate; injection H as <-; reflexivity.
  - intros [|[|i]] r r'; simpl; intros H H'; try discriminate.
    injection H as <-; injection H' as <-; reflexivity.
Qed.


Lemma holds_done {A} (P : A -> bool) (x : res A) :
  Samples.holds P x = true -> exists y, x = Done y /\ P y = true.
Proof. destruct x; simpl; intros H; try discriminate H. eauto. Qed.

(** What the assignments of the compaction do to the arrays. *)
Lemma move_entry_done {A} (a a' : list A) (fc i : nat) :
  move_entry a fc i = Done a' ->
  exists x, a !! i = Some x /\ (fc < length a)%nat /\ a' = <[fc := x]> a.
Proof.
  unfold move_entry. intros H. apply bind_done in H as (x & Hx & H).
  apply fetch_done in Hx as [_ Hx]. rewrite Nat2Z.id in Hx.
  unfold store in H. destruct (Nat.ltb_spec fc (length a)); [|discriminate].
  injection H as <-. eauto.
Qed.

Lemma move_line_done (fc i : nat) (b b' : buffers) :
  move_line fc i b = Done b' ->
  move_entry (wl b) fc i = Done (wl b')
  /\ move_entry (element b) fc i = Done (element b')
  /\ move_entry (j_low b) fc i = Done (j_low b')
  /\ move_entry (e_low b) fc i = Done (e_low b')
  /\ move_entry (j_high b) fc i = Done (j_high b')
  /\ move_entry (e_high b) fc i = Done (e_high b')
  /\ move_entry (loggf b) fc i = Done (loggf b')
  /\ move_entry (gamrad b) fc i = Done (gamrad b')
  /\ move_entry (gamst b) fc i = Done (gamst b')
  /\ move_entry (gamvw b) fc i = Done (gamvw b')
  /\ move_entry (lande_low b) fc i = Done (lande_low b')
  /\ move_entry (lande_high b) fc i = Done (lande_high b')
  /\ copy_str 76 0 fc i (str b) = Done (str b').
Proof.
  unfold move_line. intros H.
  repeat (apply bind_done in H as (? & ? & H)).
  injection H as <-. cbn [wl element j_low e_low j_high e_high loggf gamrad gamst gamvw
    lande_low lande_high str]. repeat split; assumption.
Qed.

(** The loop of lines 393-417 keeps the lines below [filtered_count] in the
    range. *)
Lemma filter_lines_in_range (a b : double) (count : nat) :
  forall (i fc : nat) (bufs : buffers) (fc' : nat) (bufs' : buffers),
    filter_lines count i a b fc bufs = Done (fc', bufs') ->
    lines_in_range a b fc (wl bufs) ->
    lines_in_range a b fc' (wl bufs').
Proof.
  induction count as [|count IH]; intros i fc bufs fc' bufs' H Hin; simpl in H.
  - injection H as <- <-. exact Hin.
  - apply bind_done in H as (w & Hw & H).
    apply fetch_done in Hw as [_ Hw]. rewrite Nat2Z.id in Hw.
    destruct (dge w a && dle w b) eqn:E; [|eapply IH; eauto].
    apply bind_done in H as (b1 & Hb1 & H).
    apply IH in H; [exact H|]. clear H IH.
    apply andb_true_iff in E as [Ea Eb]. unfold dge in Ea.
    intros k Hk. destruct (Nat.eqb_spec fc i) as [->|Hne]; simpl in Hb1.
    + injection Hb1 as <-. destruct (decide (k = i)) as [->|Hki].
      * exists w. auto.
      * apply Hin. lia.
    + apply move_line_done in Hb1 as [Hwl _].
      apply move_entry_done in Hwl as (x & Hx & Hlt & ->).
      assert (x = w) by congruence. subst x.
      destruct (decide (k = fc)) as [->|Hkf].
      * exists w. rewrite list_lookup_insert_eq by exact Hlt. auto.
      * rewrite list_lookup_insert_ne by congruence. apply Hin. lia.
Qed.

(** C3: when [ukread_] returns a count [m] that is not negative, the first
    [m] wavelengths of the output array are there and each of them [w] has
    [a <= w <= b]. *)
Theorem ukread_in_range (f : Z) (a b : double) (lib lib' : library)
  (bufs bufs' : buffers) (m : Z) :
  ukread_ f a b lib bufs = Done (m, lib', bufs') -> (0 <= m)%Z ->
  lines_in_range a b (Z.to_nat m) (wl bufs').
Proof.
  unfold ukread_. intros H Hm.
  destruct (valid_file f lib) as [r|]; [|injection H as <- _ _; lia].
  apply bind_done in H as (k & _ & H).
  destruct k as [k|]; [|injection H as <- _ _; lia].
  unfold read_located in H.
  apply bind_done in H as (Dk & _ & H).
  apply bind_done in H as ([[ok r'] g] & _ & H).
  destruct (negb ok); [injection H as <- _ _; lia|].
  apply bind_done in H as ([[nlines g'] b1] & _ & H).
  apply bind_done in H as ([fc b2] & Hf & H).
  injection H as <- _ <-. rewrite Nat2Z.id.
  apply (filter_lines_in_range a b _ _ _ _ _ _ Hf).
  intros k' Hk'. lia.
Qed.

(** [ukread_in_range] on the sample file: the read from 4900 to 5100
    returns two lines. *)
Lemma ukread_in_range_witness :
  exists lib' bufs',
    ukread_ 1 (Finite 4900) (Finite 5100) Samples.opened (Samples.room 4)
    = Done (2%Z, lib', bufs')
    /\ lines_in_range (Finite 4900) (Finite 5100) 2 (wl bufs').
Proof.
  destruct (holds_done (fun y => (fst (fst y) =? 2)%Z)
              (ukread_ 1 (Finite 4900) (Finite 5100) Samples.opened (Samples.room 4)))
    as ([[m lib'] bufs'] & E & Hm); [vm_compute; reflexivity|].
  apply Z.eqb_eq in Hm. simpl in Hm. subst m.
  exists lib', bufs'. split; [exact E|].
  apply (ukread_in_range 1 (Finite 4900) (Finite 5100) Samples.opened lib'
           (Samples.room 4) bufs' 2 E). lia.
Defined.

Lemma kept_lines_length (a b : double) (ws : list double) (n : nat) :
  (length (kept_lines a b ws n) <= n)%nat.
Proof.
  induction n as [|n IH]; simpl; [lia|].
  destruct (ws !! n); [|lia]. destruct (in_range a b d); [|lia].
  rewrite length_app. simpl. lia.
Qed.

Lemma relocated_start {A} (stride : nat) (a : list A) : relocated stride [] a a.
Proof.
  split; [reflexivity|]. split; [|reflexivity].
  intros k i t H. discriminate H.
Qed.

Lemma relocated_step {A} (stride : nat) (idx : list nat) (a0 a a' : list A) (i : nat) :
  relocated stride idx a0 a -> (length idx <= i)%nat ->
  moved (length idx * stride) (i * stride) stride a a' ->
  relocated stride (idx ++ [i]) a0 a'.
Proof.
  intros (Hlen & Hin & Hrest) Hi (Hlen' & Hp).
  split; [congruence|]. split.
  - intros k j t Hk Ht. rewrite Hp.
    apply lookup_app_Some in Hk as [Hk | [Hge Hk]].
    + apply lookup_lt_Some in Hk as Hlt.
      destruct (decide _) as [Hd|_]; [exfalso; nia|]. apply Hin; assumption.
    + apply list_lookup_singleton_Some in Hk as [Hk <-].
      assert (k = length idx) as -> by lia.
      destruct (decide _) as [_|Hd]; [|exfalso; lia].
      replace (length idx * stride + t - length idx * stride + i * stride)%nat
        with (i * stride + t)%nat by lia.
      apply Hrest. nia.
  - intros p Hge. rewrite length_app in Hge. simpl in Hge. rewrite Hp.
    destruct (decide _) as [Hd|_]; [exfalso; nia|]. apply Hrest. nia.
Qed.

Lemma relocated_stay {A} (stride : nat) (idx : list nat) (a0 a : list A) :
  relocated stride idx a0 a -> relocated stride (idx ++ [length idx]) a0 a.
Proof.
  intros (Hlen & Hin & Hrest). split; [exact Hlen|]. split.
  - intros k j t Hk Ht.
    apply lookup_app_Some in Hk as [Hk | [Hge Hk]]; [apply Hin; assumption|].
    apply list_lookup_singleton_Some in Hk as [Hk <-].
    assert (k = length idx) as -> by lia. apply Hrest. lia.
  - intros p Hge. rewrite length_app in Hge. simpl in Hge. apply Hrest. nia.
Qed.

Lemma move_entry_moved {A} (a a' : list A) (fc i : nat) :
  move_entry a fc i = Done a' -> moved (fc * 1) (i * 1) 1 a a'.
Proof.
  intros H. apply move_entry_done in H as (x & Hx & Hlt & ->).
  split; [apply length_insert|]. intros p.
  rewrite list_lookup_insert.
  destruct (decide (fc = p /\ (fc < length a)%nat)) as [[<- _]|Hd];
    destruct (decide _) as [Hd'|Hd']; try lia.
  - rewrite <- Hx. f_equal. lia.
  - reflexivity.
Qed.

Lemma moved_step {A} (dst src n : nat) (a a' : list A) (c : A) :
  a !! src = Some c -> (dst < length a)%nat -> (dst < src)%nat ->
  moved (S dst) (S src) n (<[dst := c]> a) a' ->
  moved dst src (S n) a a'.
Proof.
  intros Hc Hlt Hds (Hlen & Hp). rewrite length_insert in Hlen.
  split; [exact Hlen|]. intros p. rewrite Hp.
  destruct (decide (S dst <= p < S dst + n)%nat) as [Hd|Hd];
    destruct (decide (dst <= p < dst + S n)%nat) as [Hd'|Hd']; try lia.
  - rewrite list_lookup_insert_ne by lia. f_equal. lia.
  - assert (p = dst) as -> by lia. rewrite list_lookup_insert_eq by exact Hlt.
    rewrite <- Hc. f_equal. lia.
  - rewrite list_lookup_insert_ne by lia. reflexivity.
Qed.

(** The loop of lines 411-413 copies the 76 bytes of cell [i] to cell
    [filtered_count]. *)
Lemma copy_str_moved (fc i : nat) (count : nat) :
  forall (j : nat) (s s' : list Z),
    (fc < i)%nat ->
    copy_str count j fc i s = Done s' ->
    moved (fc * 76 + j) (i * 76 + j) count s s'.
Proof.
  induction count as [|count IH]; intros j s s' Hfi H; simpl in H.
  - injection H as <-. split; [reflexivity|]. intros p.
    destruct (decide _); [lia | reflexivity].
  - apply bind_done in H as (c & Hc & H).
    apply fetch_done in Hc as [_ Hc]. rewrite Nat2Z.id in Hc.
    apply bind_done in H as (s1 & Hs1 & H).
    unfold store in Hs1.
    destruct (Nat.ltb_spec (fc * 76 + j) (length s)); [|discriminate].
    injection Hs1 as <-.
    apply IH in H; [|exact Hfi].
    rewrite !Nat.add_succ_r in H.
    apply (moved_step _ _ _ _ _ c); try assumption. lia.
Qed.

Lemma compacted_start (b : buffers) : compacted [] b b.
Proof.
  unfold compacted.
  do 12 (split; [apply relocated_start|]). apply relocated_start.
Qed.

Lemma compacted_move (idx : list nat) (b0 b b1 : buffers) (i : nat) :
  compacted idx b0 b -> (length idx < i)%nat ->
  move_line (length idx) i b = Done b1 ->
  compacted (idx ++ [i]) b0 b1.
Proof.
  intros C Hi H. apply move_line_done in H. unfold compacted in *.
  destruct C as (C1 & C2 & C3 & C4 & C5 & C6 & C7 & C8 & C9 & C10 & C11 & C12 & C13).
  destruct H as (H1 & H2 & H3 & H4 & H5 & H6 & H7 & H8 & H9 & H10 & H11 & H12 & H13).
  do 12 (split; [eapply relocated_step;
                   [eassumption | lia | apply move_entry_moved; assumption]|]).
  eapply relocated_step; [exact C13 | lia |].
  apply copy_str_moved in H13; [|exact Hi].
  rewrite !Nat.add_0_r in H13. exact H13.
Qed.

Lemma compacted_stay (idx : list nat) (b0 b : buffers) :
  compacted idx b0 b -> compacted (idx ++ [length idx]) b0 b.
Proof.
  unfold compacted.
  intros (C1 & C2 & C3 & C4 & C5 & C6 & C7 & C8 & C9 & C10 & C11 & C12 & C13).
  do 12 (split; [apply relocated_stay; assumption|]).
  apply relocated_stay; assumption.
Qed.

(** The loop of lines 393-417 keeps the arrays compacted by the lines found
    in range so far. *)
Lemma filter_lines_compacted (a bnd : double) (b0 : buffers) (count : nat) :
  forall (i fc : nat) (b : buffers) (m : nat) (b' : buffers),
    filter_lines count i a bnd fc b = Done (m, b') ->
    fc = length (kept_lines a bnd (wl b0) i) ->
    compacted (kept_lines a bnd (wl b0) i) b0 b ->
    m = length (kept_lines a bnd (wl b0) (i + count))
    /\ compacted (kept_lines a bnd (wl b0) (i + count)) b0 b'.
Proof.
  induction count as [|count IH]; intros i fc b m b' H Hfc C; simpl in H.
  - injection H as <- <-. rewrite Nat.add_0_r. auto.
  - apply bind_done in H as (w & Hw & H).
    apply fetch_done in Hw as [_ Hw]. rewrite Nat2Z.id in Hw.
    pose proof (kept_lines_length a bnd (wl b0) i) as Hle.
    assert (wl b0 !! i = Some w) as Hw0.
    { destruct C as ((_ & _ & Hrest) & _). rewrite <- Hrest; [exact Hw | lia]. }
    assert (kept_lines a bnd (wl b0) (S i)
            = if dge w a && dle w bnd then (kept_lines a bnd (wl b0) i ++ [i])%list
              else kept_lines a bnd (wl b0) i) as Hk
      by (simpl; rewrite Hw0; reflexivity).
    replace (i + S count)%nat with (S i + count)%nat by lia.
    destruct (dge w a && dle w bnd) eqn:E.
    + apply bind_done in H as (b1 & Hb1 & H).
      apply IH in H; [exact H | rewrite Hk, length_app; simpl; lia | rewrite Hk].
      clear H IH Hk.
      remember (kept_lines a bnd (wl b0) i) as idx eqn:Hidx. clear Hidx.
      destruct (Nat.eqb_spec fc i) as [Hfi|Hfi]; simpl in Hb1.
      * injection Hb1 as <-. replace i with (length idx) by congruence.
        apply compacted_stay. exact C.
      * apply (compacted_move idx b0 b b1 i C); [lia | rewrite <- Hfc; exact Hb1].
    + apply IH in H; [exact H | rewrite Hk; exact Hfc | rewrite Hk; exact C].
Qed.

Lemma memcpy_lookup (a a' bs : list Z) (off : nat) :
  memcpy a off bs = Done a' ->
  length a' = length a
  /\ forall p, a' !! p = if decide (off <= p < off + length bs)%nat
                         then bs !! (p - off)%nat else a !! p.
Proof.
  unfold memcpy. destruct (Nat.leb_spec (off + length bs) (length a)); [|discriminate].
  intros H'. injection H' as <-. split.
  - rewrite !length_app, length_take, length_drop. lia.
  - intros p. destruct (decide _) as [Hd|Hd].
    + rewrite lookup_app_r by (rewrite length_take; lia).
      rewrite length_take. rewrite lookup_app_l by lia. f_equal. lia.
    + destruct (Nat.lt_ge_cases p off).
      * rewrite lookup_app_l by (rewrite length_take; lia).
        apply lookup_take_lt. lia.
      * rewrite lookup_app_r by (rewrite length_take; lia).
        rewrite length_take.
        rewrite lookup_app_r by lia. rewrite lookup_drop. f_equal. lia.
Qed.

Lemma field_lookup (line : list Z) (off n t : nat) :
  (t < n)%nat -> field line off n !! t = line !! (off + t)%nat.
Proof.
  intros Ht. unfold field. rewrite lookup_take_lt by exact Ht. apply lookup_drop.
Qed.

(** [ADDLINE] writes the text of line [n] to the 210 bytes from [210 n]. *)
Lemma store_line_str (cbo : bool) (line : list Z) (n : nat) (b1 b2 : buffers) :
  length line = LINE_LENGTH ->
  store_line cbo line n b1 = Done b2 ->
  length (str b2) = length (str b1)
  /\ (forall p, (p < n * 210 \/ n * 210 + 210 <= p)%nat -> str b2 !! p = str b1 !! p)
  /\ (cbo = false ->
      forall t, (t < 210)%nat -> str b2 !! (n * 210 + t)%nat = line !! (60 + t)%nat).
Proof.
  intros Hline H. unfold store_line in H.
  do 12 (apply bind_done in H as (? & _ & H)).
  apply bind_done in H as (s1 & Hs1 & H).
  apply memcpy_lookup in Hs1 as [Hlen Hp].
  assert (length (field line 60 210) = 210%nat) as Hf.
  { unfold field. rewrite length_take, length_drop, Hline. reflexivity. }
  rewrite Hf in Hp.
  injection H as <-. cbn [str]. split; [|split].
  - destruct (cbo && _); [|exact Hlen]. rewrite !length_insert. exact Hlen.
  - intros p Hout.
    assert (s1 !! p = str b1 !! p) as <-
      by (rewrite Hp; destruct (decide _); [lia | reflexivity]).
    destruct (cbo && _); [|reflexivity].
    rewrite !list_lookup_insert_ne by lia. reflexivity.
  - intros -> t Ht. cbn [andb]. rewrite Hp.
    destruct (decide _) as [_|Hd]; [|lia].
    replace (n * 210 + t - n * 210)%nat with t by lia.
    apply field_lookup. exact Ht.
Qed.

(** C9: the text that [ADDLINE] stores for line [n] is the 210 bytes from
    offset [210 n] of [str], and nothing else of [str] changes; the
    compaction of [ukread_] moves text in cells of 76 bytes.  After a read
    that returns [m] lines, the [k]-th of them being the decoded line [i]:
    the twelve numbers at position [k] are the decoded numbers of line [i],
    the 76 bytes from offset [76 k] of [str] are the decoded 76 bytes from
    offset [76 i], and from offset [76 m] on [str] is as it was decoded. *)
Theorem ukread_compaction (f : Z) (a b : double) (lib lib' : library)
  (bufs bufs' : buffers) (m : Z) :
  ukread_ f a b lib bufs = Done (m, lib', bufs') -> (0 <= m)%Z ->
  (forall cbo line n b1 b2,
      length line = LINE_LENGTH -> store_line cbo line n b1 = Done b2 ->
      length (str b2) = length (str b1)
      /\ (forall p, (p < n * 210 \/ n * 210 + 210 <= p)%nat -> str b2 !! p = str b1 !! p)
      /\ (cbo = false ->
          forall t, (t < 210)%nat -> str b2 !! (n * 210 + t)%nat = line !! (60 + t)%nat))
  /\ exists len g nlines g' decoded,
      uncompress len g bufs = Done (nlines, g', decoded)
      /\ m = Z.of_nat (length (kept_lines a b (wl decoded) nlines))
      /\ (forall k i, kept_lines a b (wl decoded) nlines !! k = Some i ->
            same_numbers k i bufs' decoded
            /\ forall t, (t < 76)%nat ->
                 str bufs' !! (k * 76 + t)%nat = str decoded !! (i * 76 + t)%nat)
      /\ (forall p, (Z.to_nat m * 76 <= p)%nat -> str bufs' !! p = str decoded !! p).
Proof.
  intros H Hm. split; [intros; eapply store_line_str; eassumption|].
  unfold ukread_ in H.
  destruct (valid_file f lib) as [r|]; [|injection H as <- _ _; lia].
  apply bind_done in H as (k & _ & H).
  destruct k as [k|]; [|injection H as <- _ _; lia].
  unfold read_located in H.
  apply bind_done in H as (Dk & _ & H).
  apply bind_done in H as ([[ok r'] g] & _ & H).
  destruct (negb ok); [injection H as <- _ _; lia|].
  apply bind_done in H as ([[nlines g'] decoded] & Hdec & H).
  apply bind_done in H as ([fc b2] & Hf & H).
  injection H as <- _ <-.
  exists (rlength Dk), g, nlines, g', decoded.
  apply (filter_lines_compacted a b decoded) in Hf as [-> C];
    [|reflexivity|apply compacted_start].
  simpl in C. rewrite Nat2Z.id.
  split; [exact Hdec|]. split; [reflexivity|].
  destruct C as (C1 & C2 & C3 & C4 & C5 & C6 & C7 & C8 & C9 & C10 & C11 & C12 & C13).
  split.
  - intros j i Hj. split.
    + unfold same_numbers.
      do 11 (split; [match goal with
                     | C : relocated 1 _ ?x0 ?x |- ?x !! _ = ?x0 !! _ =>
                         destruct C as (_ & C & _); specialize (C j i 0%nat Hj);
                         rewrite !Nat.mul_1_r, !Nat.add_0_r in C; apply C; lia
                     end|]).
      destruct C12 as (_ & C & _); specialize (C j i 0%nat Hj).
      rewrite !Nat.mul_1_r, !Nat.add_0_r in C; apply C; lia.
    + intros t Ht. destruct C13 as (_ & C & _). apply C; assumption.
  - intros p Hp. destruct C13 as (_ & _ & C). apply C. exact Hp.
Qed.

(** [ukread_compaction] on the sample file, where the first of the three
    decoded lines is below the range from 4900 to 5100. *)
Lemma ukread_compaction_witness :
  exists lib' bufs',
    ukread_ 1 (Finite 4900) (Finite 5100) Samples.opened (Samples.room 4)
    = Done (2%Z, lib', bufs')
    /\ exists len g nlines g' decoded,
         uncompress len g (Samples.room 4) = Done (nlines, g', decoded)
         /\ 2%Z = Z.of_nat (length (kept_lines (Finite 4900) (Finite 5100)
                                      (wl decoded) nlines))
         /\ (forall k i,
               kept_lines (Finite 4900) (Finite 5100) (wl decoded) nlines !! k = Some i ->
               same_numbers k i bufs' decoded
               /\ forall t, (t < 76)%nat ->
                    str bufs' !! (k * 76 + t)%nat = str decoded !! (i * 76 + t)%nat)
         /\ (forall p, (Z.to_nat 2 * 76 <= p)%nat -> str bufs' !! p = str decoded !! p).
Proof.
  destruct (holds_done (fun y => (fst (fst y) =? 2)%Z)
              (ukread_ 1 (Finite 4900) (Finite 5100) Samples.opened (Samples.room 4)))
    as ([[m lib'] bufs'] & E & Hm); [vm_compute; reflexivity|].
  apply Z.eqb_eq in Hm. simpl in Hm. subst m.
  exists lib', bufs'. split; [exact E|].
  apply (ukread_compaction 1 (Finite 4900) (Finite 5100) Samples.opened lib'
           (Samples.room 4) bufs' 2 E). lia.
Defined.

(** C9, against the consequence it draws: a record holds a transition at
    4100 and one at 4950 with the same text.  The read for the range from
    4000 decodes both; the read for the range from 4900 returns the
    second, which the first precedes below the range, and the 210 bytes at
    its returned position are the 210 bytes that were decoded for it. *)
Lemma equal_blocks_survive_compaction :
  match ukread_ 1 (Finite 4000) (Finite 5000) Samples.uniform_opened (Samples.room 2),
        ukread_ 1 (Finite 4900) (Finite 5000) Samples.uniform_opened (Samples.room 2)
  with
  | Done (n, _, decoded), Done (m, _, returned) =>
      n = 2%Z /\ m = 1%Z
      /\ kept_lines (Finite 4900) (Finite 5000) (wl decoded) 2 = [1%nat]
      /\ (fun w => dlt w (Finite 4900)) <$> (wl decoded !! 0%nat) = Some true
      /\ element decoded !! 1%nat = Some 2601%Z
      /\ element returned !! 0%nat = Some 2601%Z
      /\ take 210 (str returned) = take 210 (drop 210 (str decoded))
  | _, _ => False
  end.
Proof. vm_compute. repeat split; reflexivity. Qed.

End Unkompress3Facts.

(** ** vald/lib/vald3/src/vald3_decompress.cpp *)
Module Vald3ReaderFacts.
Import Ieee Unkompress3 Vald3Reader Spec Unkompress3Facts.

Lemma push_line_wl (i : nat) (tmp o o' : buffers) :
  push_line i tmp o = Done o' ->
  exists w, fetch (wl tmp) (Z.of_nat i) = Done w /\ wl o' = (wl o ++ [w])%list.
Proof.
  unfold push_line. intros H.
  apply bind_done in H as (w & Hw & H).
  do 11 (apply bind_done in H as (? & _ & H)).
  destruct (negb _); [discriminate H|]. injection H as <-. eauto.
Qed.

Lemma copy_lines_in_range (wl_min wl_max : double) (max_lines : Z) (tmp : buffers)
  (count : nat) :
  forall (i : nat) (total_lines : Z) (o : buffers) (total' : Z) (o' : buffers),
    copy_lines count i wl_min wl_max max_lines tmp total_lines o = Done (total', o') ->
    all_in_range wl_min wl_max (wl o) ->
    all_in_range wl_min wl_max (wl o').
Proof.
  induction count as [|count IH]; intros i total_lines o total' o' H Ho; simpl in H.
  - injection H as _ <-. exact Ho.
  - destruct (total_lines <? max_lines)%Z; [|injection H as _ <-; exact Ho].
    apply bind_done in H as (w & Hw & H).
    destruct (dge w wl_min && dle w wl_max) eqn:E; [|eapply IH; eauto].
    apply bind_done in H as (o1 & Ho1 & H).
    apply IH in H; [exact H|].
    apply push_line_wl in Ho1 as (w' & Hw' & ->).
    assert (w' = w) as -> by congruence.
    apply Forall_app. split; [exact Ho|]. constructor; [exact E | constructor].
Qed.

Lemma query_loop_in_range (fh : Z) (wl_min wl_max : double) (max_lines : Z)
  (fuel : nat) :
  forall (nlines : Z) (lib : library) (tmp : buffers) (total_lines : Z) (o : buffers)
         (total' : Z) (o' : buffers) (lib' : library),
    query_loop fuel fh wl_min wl_max max_lines nlines lib tmp total_lines o
    = Done (total', o', lib') ->
    all_in_range wl_min wl_max (wl o) ->
    all_in_range wl_min wl_max (wl o').
Proof.
  induction fuel as [|fuel IH]; intros nlines lib tmp total_lines o total' o' lib' H Ho;
    simpl in H; destruct ((0 <? nlines)%Z && (total_lines <? max_lines)%Z);
    try discriminate H; try (injection H as _ <- _; exact Ho).
  apply bind_done in H as ([total1 o1] & Hcopy & H).
  apply copy_lines_in_range in Hcopy; [|exact Ho].
  apply bind_done in H as ([[n1 lib1] tmp1] & _ & H).
  apply bind_done in H as (stop & _ & H).
  destruct stop; [injection H as _ <- _; exact Hcopy|].
  eapply IH; eauto.
Qed.

(** [uknext_] hands on what [uncompress] gave. *)
Lemma uknext_decoded (fh : Z) (lib lib1 : library) (tmp tmp1 : buffers) (n : Z) :
  uknext_ fh lib tmp = Done (n, lib1, tmp1) -> (0 <= n)%Z ->
  exists len g g', uncompress len g tmp = Done (Z.to_nat n, g', tmp1).
Proof.
  unfold uknext_. intros H Hn.
  destruct (valid_file fh lib) as [r|]; [|injection H as <- _ _; lia].
  destruct (_ <=? _)%Z; [injection H as <- _ _; lia|].
  apply bind_done in H as (Dk & _ & H).
  apply bind_done in H as ([[ok r'] g] & _ & H).
  destruct (negb ok); [injection H as <- _ _; lia|].
  apply bind_done in H as ([[nlines g'] b1] & Hdec & H).
  injection H as <- _ <-. rewrite Nat2Z.id. eauto.
Qed.

(** What [query_range] returns lies in the range that was asked for. *)
Lemma query_range_in_range (this : VALD3Reader) (wl_min wl_max : double)
  (max_lines : Z) (lib lib' : library) (n : Z) (o : buffers) :
  query_range this wl_min wl_max max_lines lib = Done (dict n (Some o), lib') ->
  all_in_range wl_min wl_max (wl o).
Proof.
  unfold query_range. intros H.
  destruct (negb (is_open this)); [discriminate H|].
  destruct (dge wl_min wl_max); [discriminate H|].
  apply bind_done in H as ([[nlines lib1] tmp] & _ & H).
  apply bind_done in H as ([[total o1] lib2] & Hloop & H).
  apply query_loop_in_range in Hloop; [|constructor].
  destruct (0 <? total)%Z; [|discriminate H].
  injection H as _ <- _. exact Hloop.
Qed.



End Vald3ReaderFacts.

(** ** libc: properties of the string functions *)
Module CStrProperties.
Import CStr Spec.

Lemma all_chars_impl (p q : ascii -> bool) (s : string) :
  (forall c, p c = true -> q c = true) -> all_chars p s = true -> all_chars q s = true.
Proof.
  intros Hpq. induction s as [|c s IH]; simpl; [reflexivity|].
  rewrite !andb_true_iff. intros [Hc Hs]. auto.
Qed.

Lemma append_cons (c : ascii) (a b : string) : String c a +:+ b = String c (a +:+ b).
Proof. reflexivity. Qed.

Lemma append_nil_l (b : string) : EmptyString +:+ b = b.
Proof. reflexivity. Qed.

Lemma append_nil_r (a : string) : a +:+ EmptyString = a.
Proof. induction a as [|c a IH]; [reflexivity|]. rewrite append_cons. now f_equal. Qed.

Lemma append_assoc (a b c : string) : (a +:+ b) +:+ c = a +:+ (b +:+ c).
Proof. induction a as [|x a IH]; [reflexivity|]. rewrite !append_cons. now f_equal. Qed.

Lemma all_chars_app (p : ascii -> bool) (a b : string) :
  all_chars p (a +:+ b) = all_chars p a && all_chars p b.
Proof.
  induction a as [|c a IH]; [reflexivity|]. rewrite append_cons. simpl.
  rewrite IH. apply andb_assoc.
Qed.

Lemma all_chars_and (p q : ascii -> bool) (s : string) :
  all_chars p s = true -> all_chars q s = true ->
  all_chars (fun c => p c && q c) s = true.
Proof.
  induction s as [|c s IH]; simpl; [reflexivity|].
  rewrite !andb_true_iff. intros [-> Hp] [-> Hq]. auto.
Qed.

Lemma all_chars_take (p : ascii -> bool) (k : nat) (s : string) :
  all_chars p s = true -> all_chars p (str_take k s) = true.
Proof.
  revert s; induction k as [|k IH]; intros [|c s]; simpl; try reflexivity.
  rewrite !andb_true_iff. intros [-> Hs]. auto.
Qed.

Lemma all_chars_drop (p : ascii -> bool) (k : nat) (s : string) :
  all_chars p s = true -> all_chars p (str_drop k s) = true.
Proof.
  revert s; induction k as [|k IH]; intros [|c s]; simpl; try reflexivity; auto.
  rewrite !andb_true_iff. intros [_ Hs]. auto.
Qed.

Lemma all_chars_cut (p stop : ascii -> bool) (s : string) :
  all_chars p s = true -> all_chars p (cut_at_first stop s) = true.
Proof.
  induction s as [|c s IH]; simpl; [reflexivity|].
  rewrite andb_true_iff. intros [Hc Hs].
  destruct (stop c); [reflexivity|]. simpl. rewrite Hc. auto.
Qed.

Lemma cut_stops (stop : ascii -> bool) (s : string) :
  all_chars (fun c => negb (stop c)) (cut_at_first stop s) = true.
Proof.
  induction s as [|c s IH]; simpl; [reflexivity|].
  destruct (stop c) eqn:E; [reflexivity|]. simpl. now rewrite E.
Qed.

Lemma strchr_None (s : string) (x : ascii) :
  strchr s x = None <-> all_chars (is_not x) s = true.
Proof.
  unfold is_not. induction s as [|c s IH]; simpl; [tauto|].
  destruct (Ascii.eqb c x); simpl.
  - split; discriminate.
  - rewrite <- IH. destruct (strchr s x); simpl; split; congruence.
Qed.

Lemma strrchr_None (s : string) (x : ascii) :
  strrchr s x = None <-> all_chars (is_not x) s = true.
Proof.
  unfold is_not. induction s as [|c s IH]; simpl; [tauto|].
  destruct (strrchr s x) as [k|].
  - split; [discriminate|]. rewrite andb_true_iff. intros [_ H].
    apply IH in H. discriminate.
  - destruct (Ascii.eqb c x); simpl; [split; discriminate|].
    split; [intros _; now apply IH | reflexivity].
Qed.

Lemma strrchr_drop (s : string) (x : ascii) (k : nat) :
  strrchr s x = Some k -> all_chars (is_not x) (str_drop (S k) s) = true.
Proof.
  revert k; induction s as [|c s IH]; intros k; simpl; [discriminate|].
  destruct (strrchr s x) as [k'|] eqn:E.
  - intros H. injection H as <-. destruct s as [|d s]; [discriminate E|].
    apply (IH k' eq_refl).
  - destruct (Ascii.eqb c x); [|discriminate]. intros H. injection H as <-.
    simpl. now apply strrchr_None.
Qed.

Lemma strchr_app_first (a b : string) (x : ascii) :
  all_chars (is_not x) a = true -> strchr (a +:+ String x b) x = Some (strlen a).
Proof.
  unfold is_not. induction a as [|c a IH].
  - intros _. rewrite append_nil_l. simpl. now rewrite Ascii.eqb_refl.
  - cbn [all_chars]. rewrite andb_true_iff, negb_true_iff. intros [Hc Ha].
    rewrite append_cons. cbn [strchr]. rewrite Hc, (IH Ha). reflexivity.
Qed.

Lemma str_take_app (a b : string) : str_take (strlen a) (a +:+ b) = a.
Proof.
  induction a as [|c a IH]; simpl; [now destruct b|]. now f_equal.
Qed.

Lemma str_drop_app (a b : string) : str_drop (strlen a) (a +:+ b) = b.
Proof. induction a as [|c a IH]; simpl; [reflexivity | exact IH]. Qed.

Lemma str_drop_S_app (a b : string) (x : ascii) :
  str_drop (S (strlen a)) (a +:+ String x b) = b.
Proof. induction a as [|c a IH]; simpl; [reflexivity | exact IH]. Qed.

Lemma atol_digits_value (d : Decimal.uint) (acc : Z) :
  atol_digits (NilEmpty.string_of_uint d) acc = digits_value d acc.
Proof.
  revert acc; induction d; intros acc; simpl; try reflexivity; rewrite IHd; f_equal; lia.
Qed.

Lemma digits_value_acc (d : Decimal.uint) (p : positive) :
  digits_value d (Zpos p) = Zpos (Pos.of_uint_acc d p).
Proof.
  revert p; induction d; intros p; simpl; try reflexivity;
    match goal with
    | |- digits_value _ ?z = Zpos (Pos.of_uint_acc _ ?q) =>
        replace z with (Zpos q) by lia; apply IHd
    end.
Qed.

Lemma digits_value_0 (d : Decimal.uint) : digits_value d 0 = Z.of_N (Pos.of_uint d).
Proof.
  induction d; simpl; try reflexivity; try exact IHd;
    match goal with
    | |- digits_value _ ?z = Zpos (Pos.of_uint_acc _ ?q) =>
        replace z with (Zpos q) by lia; apply digits_value_acc
    end.
Qed.

Lemma digits_of_positive (p : positive) :
  atol_digits (NilZero.string_of_uint (Pos.to_uint p)) 0 = Zpos p.
Proof.
  unfold NilZero.string_of_uint.
  pose proof (Unsigned.to_uint_nonnil p) as Hnil.
  destruct (Pos.to_uint p) eqn:E; [congruence | ..];
    rewrite <- E, atol_digits_value, digits_value_0, Unsigned.of_to; reflexivity.
Qed.

Lemma digit_string_starts (d : Decimal.uint) :
  d <> Decimal.Nil ->
  exists c t, NilEmpty.string_of_uint d = String c t /\ isdigit c = true.
Proof. destruct d; intros H; try congruence; simpl; eauto. Qed.

Lemma atol_of_digit (c : ascii) (t : string) :
  isdigit c = true -> atol (String c t) = atol_digits (String c t) 0.
Proof.
  intros H. cbn [atol].
  assert (isspace c = false /\ Ascii.eqb c "-" = false /\ Ascii.eqb c "+" = false)
    as (-> & -> & ->); [|reflexivity].
  unfold isdigit, isspace, in_range in *.
  apply andb_true_iff in H as [H1 H2]. apply Nat.leb_le in H1, H2.
  repeat split.
  - apply orb_false_iff. split.
    + destruct (Ascii.eqb_spec c " ") as [->|]; [vm_compute in H1; lia | reflexivity].
    + apply andb_false_iff. right. apply Nat.leb_gt. lia.
  - destruct (Ascii.eqb_spec c "-") as [->|]; [vm_compute in H1; lia | reflexivity].
  - destruct (Ascii.eqb_spec c "+") as [->|]; [vm_compute in H1; lia | reflexivity].
Qed.

Lemma atol_fmt_ld (n : Z) : atol (fmt_ld n) = n.
Proof.
  unfold fmt_ld. destruct n as [|p|p]; [reflexivity | |].
  - cbn [Z.to_int NilZero.string_of_int].
    pose proof (digits_of_positive p) as H.
    unfold NilZero.string_of_uint in *.
    pose proof (Unsigned.to_uint_nonnil p) as Hnil.
    destruct (digit_string_starts _ Hnil) as (c & t & E & Hc).
    destruct (Pos.to_uint p) eqn:Ep; [congruence | ..];
      rewrite E in *; now rewrite atol_of_digit.
  - cbn [Z.to_int NilZero.string_of_int].
    change (atol (String "-" (NilZero.string_of_uint (Pos.to_uint p))) = Z.neg p).
    cbn [atol]. change (isspace "-") with false. cbn [Ascii.eqb].
    simpl. rewrite digits_of_positive. reflexivity.
Qed.

Lemma digits_no_newline (d : Decimal.uint) :
  strchr (NilEmpty.string_of_uint d) NL = None.
Proof. induction d; simpl; try reflexivity; now rewrite IHd. Qed.

Lemma fmt_ld_no_newline (n : Z) : strchr (fmt_ld n) NL = None.
Proof.
  unfold fmt_ld.
  assert (H : forall d, strchr (NilZero.string_of_uint d) NL = None).
  { intros d. unfold NilZero.string_of_uint. destruct d; try reflexivity;
      apply (digits_no_newline (_ d)). }
  destruct n as [|p|p]; [reflexivity | apply H |].
  cbn [Z.to_int NilZero.string_of_int]. simpl. now rewrite H.
Qed.

Lemma fgets_chunk_whole (k : nat) (s : string) :
  strchr s NL = None -> (strlen s <= k)%nat -> fgets_chunk k s = (s, EmptyString).
Proof.
  unfold strlen. revert s; induction k as [|k IH]; intros [|c s]; simpl;
    try reflexivity; try lia.
  destruct (Ascii.eqb c NL); [discriminate|].
  destruct (strchr s NL) eqn:E; [discriminate|]. intros _ Hlen.
  rewrite IH by (auto; lia). reflexivity.
Qed.

End CStrProperties.

(** ** backend/parsemail.c: further properties *)
Module ParsemailProperties.
Import CStr Parsemail Spec CStrFacts CStrProperties ParsemailFacts.

Lemma compress_loop_kept (n : nat) (s : string) :
  all_chars kept (compress_loop n s) = true.
Proof.
  revert s; induction n as [|n IH]; intros [|c s]; simpl; try reflexivity.
  destruct (Ascii.eqb c "#"); [reflexivity|].
  destruct (kept c) eqn:Hk; [simpl; rewrite Hk; apply IH | apply IH].
Qed.

Lemma compress_loop_length (n : nat) (s : string) :
  (strlen (compress_loop n s) <= n)%nat.
Proof.
  unfold strlen. revert s; induction n as [|n IH]; intros [|c s]; simpl; try lia.
  destruct (Ascii.eqb c "#"); [simpl; lia|].
  destruct (kept c); simpl; specialize (IH s); lia.
Qed.

Lemma compress_loop_fixed (n : nat) (s : string) :
  all_chars kept s = true -> (strlen s <= n)%nat -> compress_loop n s = s.
Proof.
  unfold strlen. revert s; induction n as [|n IH]; intros [|c s]; simpl; try reflexivity;
    try lia.
  rewrite andb_true_iff. intros [Hc Hs] Hlen.
  destruct (Ascii.eqb_spec c "#") as [->|_]; [discriminate Hc|].
  rewrite Hc. f_equal. apply IH; [exact Hs | lia].
Qed.

(** X1: what [compress] returns holds only letters, digits and the
    characters [: . , - +], is no longer than the text and than 80
    characters, and [compress] leaves it as it is. *)
Theorem compress_idempotent (s : string) :
  all_chars kept (compress s) = true
  /\ (strlen (compress s) <= Nat.min (strlen s) 80)%nat
  /\ compress (compress s) = compress s.
Proof.
  assert (Hlen : (strlen (compress s) <= Nat.min (strlen s) 80)%nat).
  { unfold compress. pose proof (compress_loop_length
      (if (strlen s <? 80)%nat then strlen s else 80%nat) s) as H.
    destruct (Nat.ltb_spec (strlen s) 80); lia. }
  split; [apply compress_loop_kept|]. split; [exact Hlen|].
  unfold compress at 1.
  apply compress_loop_fixed; [apply compress_loop_kept|].
  destruct (Nat.ltb_spec (strlen (compress s)) 80); lia.
Qed.

Lemma swallow_copy_no_open (s : string) (o c : ascii) (q : bool) :
  all_chars (is_not o) (fst (swallow_copy s o c q)) = true.
Proof.
  unfold is_not. revert q; induction s as [|x s IH]; intros q; simpl; [reflexivity|].
  destruct (Ascii.eqb x o && negb q) eqn:E1; [apply IH|].
  destruct (Ascii.eqb x c && q) eqn:E2; [apply IH|].
  destruct q; simpl; [apply IH|].
  specialize (IH false). destruct (swallow_copy s o c false) as [r q'].
  simpl in *. rewrite andb_true_r in E1. now rewrite E1.
Qed.

Lemma swallow_copy_sub (p : ascii -> bool) (s : string) (o c : ascii) (q : bool) :
  all_chars p s = true -> all_chars p (fst (swallow_copy s o c q)) = true.
Proof.
  revert q; induction s as [|x s IH]; intros q; simpl; [reflexivity|].
  rewrite andb_true_iff. intros [Hx Hs].
  destruct (Ascii.eqb x o && negb q); [now apply IH|].
  destruct (Ascii.eqb x c && q); [now apply IH|].
  destruct q; simpl; [now apply IH|].
  specialize (IH false Hs). destruct (swallow_copy s o c false) as [r q'].
  simpl in *. now rewrite Hx.
Qed.

Lemma swallow_copy_app (a b : string) (o c : ascii) (q : bool) :
  swallow_copy (a +:+ b) o c q
  = (fst (swallow_copy a o c q)
     +:+ fst (swallow_copy b o c (snd (swallow_copy a o c q))),
     snd (swallow_copy b o c (snd (swallow_copy a o c q)))).
Proof.
  revert q; induction a as [|x a IH]; intros q.
  - simpl. rewrite append_nil_l. now destruct (swallow_copy b o c q).
  - rewrite append_cons. simpl.
    destruct (Ascii.eqb x o && negb q); [apply IH|].
    destruct (Ascii.eqb x c && q); [apply IH|].
    destruct q; simpl; [apply IH|].
    rewrite IH. destruct (swallow_copy a o c false) as [r q']. reflexivity.
Qed.

Lemma swallow_copy_outside (a : string) (o c : ascii) :
  all_chars (is_not o) a = true -> swallow_copy a o c false = (a, false).
Proof.
  unfold is_not. induction a as [|x a IH]; simpl; [reflexivity|].
  rewrite andb_true_iff, negb_true_iff. intros [-> Ha]. simpl.
  rewrite andb_false_r. now rewrite (IH Ha).
Qed.

Lemma swallow_copy_inside (b : string) (o c : ascii) :
  all_chars (is_not c) b = true -> swallow_copy b o c true = (EmptyString, true).
Proof.
  unfold is_not. induction b as [|x b IH]; simpl; [reflexivity|].
  rewrite andb_true_iff, negb_true_iff. intros [-> Hb].
  rewrite andb_false_r. simpl. now apply IH.
Qed.

Lemma swallow_quotes_no_open (s : string) (o c : ascii) :
  all_chars (is_not o) (swallow_quotes s o c) = true.
Proof.
  unfold swallow_quotes. pose proof (swallow_copy_no_open s o c false) as H.
  destruct (swallow_copy s o c false) as [t q]. now destruct q.
Qed.

Lemma swallow_quotes_sub (p : ascii -> bool) (s : string) (o c : ascii) :
  all_chars p s = true -> all_chars p (swallow_quotes s o c) = true.
Proof.
  intros Hs. unfold swallow_quotes. pose proof (swallow_copy_sub p s o c false Hs) as H.
  destruct (swallow_copy s o c false) as [t q]. now destruct q.
Qed.

Lemma swallow_quotes_outside (a : string) (o c : ascii) :
  all_chars (is_not o) a = true -> swallow_quotes a o c = a.
Proof. intros H. unfold swallow_quotes. now rewrite swallow_copy_outside. Qed.

Lemma swallow_quotes_quoted (a b rest : string) (o c : ascii) :
  all_chars (is_not o) a = true -> all_chars (is_not c) b = true ->
  all_chars (is_not o) rest = true ->
  swallow_quotes (a +:+ String o (b +:+ String c rest)) o c = a +:+ rest.
Proof.
  intros Ha Hb Hr. unfold swallow_quotes.
  rewrite swallow_copy_app, (swallow_copy_outside a o c Ha). cbn [fst snd].
  cbn [swallow_copy]. rewrite Ascii.eqb_refl. cbn [negb andb].
  rewrite swallow_copy_app, (swallow_copy_inside b o c Hb). cbn [fst snd].
  cbn [swallow_copy]. rewrite Ascii.eqb_refl.
  replace (Ascii.eqb c o && negb true) with false by now rewrite andb_false_r.
  cbn [andb]. rewrite (swallow_copy_outside rest o c Hr). reflexivity.
Qed.

Lemma swallow_quotes_unclosed (a b : string) (o c : ascii) :
  all_chars (is_not o) a = true -> all_chars (is_not c) b = true ->
  swallow_quotes (a +:+ String o b) o c = EmptyString.
Proof.
  intros Ha Hb. unfold swallow_quotes.
  rewrite swallow_copy_app, (swallow_copy_outside a o c Ha). cbn [fst snd].
  cbn [swallow_copy]. rewrite Ascii.eqb_refl. cbn [negb andb].
  rewrite (swallow_copy_inside b o c Hb). reflexivity.
Qed.

(** X2: [swallow_quotes] returns a text without opening quote as it is,
    drops a quoted part with its quotes and keeps what stands around it,
    returns the empty text when a quote is opened and not closed, and never
    copies an opening quote. *)
Theorem swallow_quotes_drops_quoted_text (o c : ascii) (a b rest s : string) :
  all_chars (is_not o) a = true -> all_chars (is_not c) b = true ->
  all_chars (is_not o) rest = true ->
  swallow_quotes a o c = a
  /\ swallow_quotes (a +:+ String o (b +:+ String c rest)) o c = a +:+ rest
  /\ swallow_quotes (a +:+ String o b) o c = EmptyString
  /\ all_chars (is_not o) (swallow_quotes s o c) = true.
Proof.
  intros Ha Hb Hr. split; [now apply swallow_quotes_outside|].
  split; [now apply swallow_quotes_quoted|].
  split; [now apply swallow_quotes_unclosed | apply swallow_quotes_no_open].
Qed.

(** [swallow_quotes_drops_quoted_text] on an address with an alias in
    parentheses. *)
Lemma swallow_quotes_drops_quoted_text_witness :
  swallow_quotes "eve@example.net " "(" ")" = "eve@example.net "
  /\ swallow_quotes ("eve@example.net " +:+ String "(" ("Eve" +:+ String ")" Samples.nl))
       "(" ")"
     = "eve@example.net " +:+ Samples.nl
  /\ swallow_quotes ("eve@example.net " +:+ String "(" "Eve") "(" ")" = EmptyString
  /\ all_chars (is_not "(") (swallow_quotes "a(b(c)d" "(" ")") = true.
Proof.
  apply (swallow_quotes_drops_quoted_text "(" ")" "eve@example.net " "Eve" Samples.nl
           "a(b(c)d"); reflexivity.
Defined.

Lemma strip_aliases_clean (s6 : string) :
  all_chars (is_not DQ) (strip_aliases s6) = true
  /\ all_chars (is_not "(") (strip_aliases s6) = true.
Proof.
  unfold strip_aliases. split.
  - apply swallow_quotes_sub, swallow_quotes_no_open.
  - apply swallow_quotes_no_open.
Qed.

Lemma terminate_clean (s1 : string) :
  all_chars (is_not ">") (terminate s1) = true
  /\ all_chars (is_not NL) (terminate s1) = true.
Proof.
  rewrite terminate_cut.
  destruct (strchr s1 ">") eqn:E.
  - split; (eapply all_chars_impl; [|apply cut_stops]); unfold is_not; intros c;
      rewrite negb_orb, andb_true_iff; tauto.
  - split.
    + apply all_chars_cut. now apply strchr_None.
    + eapply all_chars_impl; [|apply cut_stops]. unfold is_not; intros c.
      rewrite negb_orb, andb_true_iff; tauto.
Qed.

Lemma terminate_sub (p : ascii -> bool) (s1 : string) :
  all_chars p s1 = true -> all_chars p (terminate s1) = true.
Proof.
  intros H. rewrite terminate_cut. now apply all_chars_cut.
Qed.

Lemma after_bracket_sub (p : ascii -> bool) (s1 : string) :
  all_chars p s1 = true -> all_chars p (after_bracket s1) = true.
Proof.
  intros H. unfold after_bracket. destruct (strchr s1 "<"); [|exact H].
  now apply all_chars_drop.
Qed.

Lemma trim_route_sub (p : ascii -> bool) (a : string) :
  all_chars p a = true -> all_chars p (trim_route a) = true.
Proof.
  intros H. unfold trim_route.
  destruct (strrchr a ">") as [k1|]; [apply (all_chars_take p k1) in H|];
    (destruct (strrchr _ ":") as [k2|]; [apply (all_chars_drop p (S k2)) in H|]);
    (destruct (strrchr _ "!") as [k3|]; [apply (all_chars_drop p (S k3)) in H|]);
    exact H.
Qed.

Lemma trim_route_clean (a : string) :
  all_chars (is_not ":") (trim_route a) = true
  /\ all_chars (is_not "!") (trim_route a) = true.
Proof.
  unfold trim_route.
  set (a1 := match strrchr a ">" with Some c => str_take c a | None => a end).
  assert (H2 : all_chars (is_not ":")
                 (match strrchr a1 ":" with
                  | Some c => str_drop (S c) a1 | None => a1 end) = true).
  { destruct (strrchr a1 ":") as [k|] eqn:E; [now apply strrchr_drop|].
    now apply strrchr_None. }
  set (a2 := match strrchr a1 ":" with Some c => str_drop (S c) a1 | None => a1 end) in *.
  split.
  - destruct (strrchr a2 "!"); [now apply all_chars_drop | exact H2].
  - destruct (strrchr a2 "!") as [k|] eqn:E; [now apply strrchr_drop|].
    now apply strrchr_None.
Qed.


Lemma plain_is_not (x : ascii) (a : string) :
  plain x = false -> all_chars plain a = true -> all_chars (is_not x) a = true.
Proof.
  intros Hx. apply all_chars_impl. intros c Hc. unfold is_not.
  destruct (Ascii.eqb_spec c x) as [->|_]; [congruence | reflexivity].
Qed.

Lemma trim_route_plain (a : string) : all_chars plain a = true -> trim_route a = a.
Proof.
  intros Ha. unfold trim_route.
  assert (H1 : strrchr a ">" = None) by (apply strrchr_None, plain_is_not; auto).
  assert (H2 : strrchr a ":" = None) by (apply strrchr_None, plain_is_not; auto).
  assert (H3 : strrchr a "!" = None) by (apply strrchr_None, plain_is_not; auto).
  now rewrite H1, H2, H3.
Qed.

Lemma after_bracket_plain (a : string) : all_chars plain a = true -> after_bracket a = a.
Proof.
  intros Ha. unfold after_bracket.
  assert (H1 : strchr a "<" = None) by (apply strchr_None, plain_is_not; auto).
  now rewrite H1.
Qed.

(** The cut of lines 321-325 on a text that holds a [>]. *)
Lemma terminate_bracket (alias a rest : string) :
  all_chars (is_not ">") alias = true -> all_chars (is_not NL) alias = true ->
  all_chars plain a = true ->
  terminate (alias +:+ String "<" (a +:+ String ">" rest)) = alias +:+ String "<" a.
Proof.
  intros Hgt Hnl Ha. unfold terminate.
  assert (Hfront : all_chars (is_not ">") (alias +:+ String "<" a) = true).
  { rewrite all_chars_app, Hgt. simpl. apply plain_is_not; auto. }
  replace (alias +:+ String "<" (a +:+ String ">" rest))
    with ((alias +:+ String "<" a) +:+ String ">" rest)
    by (rewrite append_assoc; reflexivity).
  rewrite (strchr_app_first _ rest ">" Hfront), str_take_app.
  assert (Hn : strchr (alias +:+ String "<" a) NL = None).
  { apply strchr_None. rewrite all_chars_app, Hnl. simpl. apply plain_is_not; auto. }
  now rewrite Hn.
Qed.

Lemma after_bracket_first (alias a : string) :
  all_chars (is_not "<") alias = true ->
  after_bracket (alias +:+ String "<" a) = a.
Proof.
  intros H. unfold after_bracket. rewrite (strchr_app_first alias a "<" H).
  apply str_drop_S_app.
Qed.

Lemma alias_is_not (x : ascii) (a : string) :
  alias_char x = false -> all_chars alias_char a = true -> all_chars (is_not x) a = true.
Proof.
  intros Hx. apply all_chars_impl. intros c Hc. unfold is_not.
  destruct (Ascii.eqb_spec c x) as [->|_]; [congruence | reflexivity].
Qed.

(** X4: the four forms of a [From:] line that the comment of lines 299-304
    lists give the address: [name@address], [alias <name@address>],
    ["alias" <name@address>] and [name@address (alias)]. *)
Theorem extract_address_formats (a alias : string) :
  all_chars plain a = true ->
  all_chars alias_char alias = true ->
  extract_address (a +:+ Samples.nl) = a
  /\ extract_address (alias +:+ String "<" (a +:+ String ">" Samples.nl)) = a
  /\ extract_address
       (String DQ (alias +:+ String DQ (String " " (String "<" (a +:+ String ">" Samples.nl)))))
     = a
  /\ extract_address (a +:+ String " " (String "(" (alias +:+ String ")" Samples.nl))) = a.
Proof.
  intros Ha Hal.
  assert (Hbr : forall x, plain x = false -> x <> "<"%char -> x <> ">"%char -> x <> NL ->
            all_chars (is_not x) (String "<" (a +:+ String ">" Samples.nl)) = true).
  { intros x Hx N1 N2 N3. cbn [all_chars]. rewrite all_chars_app. cbn [all_chars Samples.nl].
    rewrite (plain_is_not x a Hx Ha). unfold is_not.
    destruct (Ascii.eqb_spec "<" x); [congruence|].
    destruct (Ascii.eqb_spec ">" x); [congruence|].
    destruct (Ascii.eqb_spec NL x); [congruence|]. reflexivity. }
  assert (Hfinish : forall front, all_chars (is_not "<") front = true ->
            all_chars (is_not ">") front = true -> all_chars (is_not NL) front = true ->
            trim_route (after_bracket
              (terminate (front +:+ String "<" (a +:+ String ">" Samples.nl)))) = a).
  { intros front F1 F2 F3. rewrite terminate_bracket by assumption.
    rewrite after_bracket_first by assumption. now apply trim_route_plain. }
  split; [|split; [|split]].
  - unfold extract_address, strip_aliases.
    assert (Hq : all_chars (is_not DQ) (a +:+ Samples.nl) = true)
      by (rewrite all_chars_app, (plain_is_not DQ a); auto).
    assert (Hp : all_chars (is_not "(") (a +:+ Samples.nl) = true)
      by (rewrite all_chars_app, (plain_is_not "(" a); auto).
    rewrite (swallow_quotes_outside _ DQ DQ Hq), (swallow_quotes_outside _ "(" ")" Hp).
    unfold terminate.
    assert (H1 : strchr (a +:+ Samples.nl) ">" = None)
      by (apply strchr_None; rewrite all_chars_app, (plain_is_not ">" a); auto).
    assert (H2 : strchr (a +:+ Samples.nl) " " = None)
      by (apply strchr_None; rewrite all_chars_app, (plain_is_not " " a); auto).
    rewrite H1, H2. unfold Samples.nl.
    rewrite (strchr_app_first a EmptyString NL) by (apply plain_is_not; auto).
    rewrite str_take_app, after_bracket_plain by assumption.
    now apply trim_route_plain.
  - unfold extract_address, strip_aliases.
    rewrite (swallow_quotes_outside _ DQ DQ)
      by (rewrite all_chars_app, (alias_is_not DQ alias); auto;
          apply Hbr; [reflexivity | discriminate ..]).
    rewrite (swallow_quotes_outside _ "(" ")")
      by (rewrite all_chars_app, (alias_is_not "(" alias); auto;
          apply Hbr; [reflexivity | discriminate ..]).
    apply Hfinish; apply alias_is_not; auto.
  - unfold extract_address, strip_aliases.
    set (rest := String " " (String "<" (a +:+ String ">" Samples.nl))).
    assert (Hs : swallow_quotes (String DQ (alias +:+ String DQ rest)) DQ DQ = rest).
    { apply (swallow_quotes_quoted EmptyString alias rest DQ DQ eq_refl).
      - apply alias_is_not; auto.
      - unfold rest.
        change (is_not DQ " "%char && all_chars (is_not DQ)
                  (String "<" (a +:+ String ">" Samples.nl)) = true).
        rewrite (Hbr DQ); [reflexivity .. | discriminate | discriminate | discriminate]. }
    rewrite Hs. unfold rest.
    rewrite (swallow_quotes_outside _ "(" ")")
      by (change (is_not "("%char " "%char && all_chars (is_not "("%char)
                      (String "<" (a +:+ String ">" Samples.nl)) = true);
          rewrite (Hbr "("%char); [reflexivity .. | discriminate | discriminate | discriminate]).
    apply (Hfinish " "); reflexivity.
  - unfold extract_address, strip_aliases.
    assert (Hq : all_chars (is_not DQ)
                   (a +:+ String " " (String "(" (alias +:+ String ")" Samples.nl))) = true).
    { rewrite all_chars_app, (plain_is_not DQ a) by auto. cbn [all_chars andb].
      rewrite all_chars_app, (alias_is_not DQ alias) by auto. reflexivity. }
    rewrite (swallow_quotes_outside _ DQ DQ Hq).
    replace (a +:+ String " " (String "(" (alias +:+ String ")" Samples.nl)))
      with ((a +:+ " ") +:+ String "(" (alias +:+ String ")" Samples.nl))
      by (rewrite append_assoc; reflexivity).
    rewrite (swallow_quotes_quoted (a +:+ " ") alias Samples.nl "(" ")").
    2:{ rewrite all_chars_app, (plain_is_not "(" a) by auto. reflexivity. }
    2:{ apply alias_is_not; auto. }
    2:{ reflexivity. }
    rewrite append_assoc. change (" " +:+ Samples.nl) with (String " " Samples.nl).
    unfold terminate.
    assert (H1 : strchr (a +:+ String " " Samples.nl) ">" = None)
      by (apply strchr_None; rewrite all_chars_app, (plain_is_not ">" a); auto).
    rewrite H1, (strchr_app_first a Samples.nl " ") by (apply plain_is_not; auto).
    rewrite str_take_app.
    assert (H2 : strchr a NL = None) by (apply strchr_None, plain_is_not; auto).
    rewrite H2, after_bracket_plain by assumption.
    now apply trim_route_plain.
Qed.

(** [extract_address_formats] on the address of a sample client. *)
Lemma extract_address_formats_witness :
  extract_address ("alice@example.org" +:+ Samples.nl) = "alice@example.org"
  /\ extract_address ("Alice Example " +:+ String "<" ("alice@example.org" +:+ String ">" Samples.nl))
     = "alice@example.org"
  /\ extract_address
       (String DQ ("Alice Example " +:+ String DQ (String " " (String "<"
          ("alice@example.org" +:+ String ">" Samples.nl)))))
     = "alice@example.org"
  /\ extract_address
       ("alice@example.org" +:+ String " " (String "(" ("Alice Example " +:+ String ")" Samples.nl)))
     = "alice@example.org".
Proof.
  apply (extract_address_formats "alice@example.org" "Alice Example "); reflexivity.
Defined.

(** X5: the empty address is found in a register exactly when the register
    has a line that is not a comment: the comparison of line 91 is over no
    character at all. *)
Theorem empty_address_matches (reg ClientName : string) :
  fst (CheckClient reg EmptyString ClientName) = true
  <-> exists line, In line (fgets_lines 160 reg) /\ address_line line = true.
Proof.
  unfold CheckClient. cbn [str2lower strlen String.length].
  rewrite CheckClient_loop_match. split.
  - intros (line & Hin & Ha & _). eauto.
  - intros (line & Hin & Ha). exists line. repeat split; auto.
    unfold address_matches.
    destruct (Nat.ltb_spec 0 (strlen (str2lower line))) as [_|Hz]; [reflexivity|].
    now replace (strlen (str2lower line)) with 0%nat by lia.
Qed.


Section Driver.
Context `{valdems_h}.

Lemma process_new_mail (st : state) :
  process (new_mail st)
  = match fo st with
    | None => process st
    | Some _ =>
        if has_begin_request st then (process st ++ section_at_boundary st)%list
        else process st
    end.
Proof.
  unfold new_mail. destruct (fo st); [destruct (has_begin_request st)|]; reflexivity.
Qed.

Lemma process_last_mail (n_requests_orig : Z) (st : state) :
  process (last_mail n_requests_orig st)
  = match fo st with
    | None => process st
    | Some _ =>
        if has_begin_request st then (process st ++ section_at_end n_requests_orig st)%list
        else process st
    end.
Proof.
  unfold last_mail. destruct (fo st); [destruct (has_begin_request st)|]; reflexivity.
Qed.

Lemma section_reply_begun (st : state) :
  has_begin_request st = true ->
  section_reply st
  = (reply_lines st
     ++ [ (if negb (is_mirror st) then "cat " else "head -20 ") +:+ filename st +:+ " >> "
            +:+ logs +:+ "/requests.log" +:+ String NL EmptyString ])%list.
Proof. intros Hb. unfold section_reply. rewrite Hb, orb_true_r. reflexivity. Qed.

(** X6: a request that has its begin request line is answered, whoever
    sent it: when the next mail starts or the mailbox ends, the lines that
    mail the result to the sender are written to the process file, also
    for the client [VALDMirrorSite]. *)
Theorem committed_request_is_answered (st : state) (name : string) (n_requests_orig : Z) :
  fo st = Some name -> has_begin_request st = true ->
  (exists before after,
      process (new_mail st) = (process st ++ before ++ reply_lines st ++ after)%list)
  /\ (exists before after,
      process (last_mail n_requests_orig st)
      = (process st ++ before ++ reply_lines st ++ after)%list).
Proof.
  intros Hfo Hb. split.
  - rewrite process_new_mail, Hfo, Hb. unfold section_at_boundary.
    rewrite (section_reply_begun st Hb).
    match goal with
    | |- context [ (section_head st ++ ?j ++ ?d ++ (reply_lines st ++ ?l))%list ] =>
        exists (section_head st ++ j ++ d)%list, l
    end.
    rewrite <- !app_assoc. reflexivity.
  - rewrite process_last_mail, Hfo, Hb. unfold section_at_end.
    rewrite (section_reply_begun st Hb).
    match goal with
    | |- context [ (section_head st ++ ?j ++ ?d ++ (reply_lines st ++ ?l))%list ] =>
        exists (section_head st ++ j ++ d)%list, l
    end.
    rewrite <- !app_assoc. reflexivity.
Qed.


End Driver.

Lemma fgets_chunk_split (k : nat) (f : string) :
  fst (fgets_chunk k f) +:+ snd (fgets_chunk k f) = f.
Proof.
  revert f; induction k as [|k IH]; intros [|c t]; cbn [fgets_chunk]; try reflexivity.
  destruct (Ascii.eqb c NL); [reflexivity|].
  specialize (IH t). destruct (fgets_chunk k t) as [l r]. cbn [fst snd] in *.
  rewrite append_cons. now rewrite IH.
Qed.

Lemma fgets_chunk_rest (k : nat) (c : ascii) (t : string) :
  (strlen (snd (fgets_chunk (S k) (String c t))) <= strlen t)%nat.
Proof.
  cbn [fgets_chunk]. destruct (Ascii.eqb c NL); [cbn [snd]; lia|].
  pose proof (fgets_chunk_split k t) as H.
  destruct (fgets_chunk k t) as [l r]. cbn [fst snd] in *.
  rewrite <- H, ParserequestFacts.strlen_append. lia.
Qed.

Lemma fgets_chunk_chars (p : ascii -> bool) (k : nat) (f : string) :
  all_chars p f = true ->
  all_chars p (fst (fgets_chunk k f)) = true /\ all_chars p (snd (fgets_chunk k f)) = true.
Proof.
  intros H. rewrite <- (fgets_chunk_split k f) in H.
  rewrite all_chars_app in H. now apply andb_true_iff in H.
Qed.

Lemma fgets_lines_from_any (size : nat) (fuel1 : nat) :
  forall fuel2 f, (strlen f <= fuel1)%nat -> (strlen f <= fuel2)%nat -> (2 <= size)%nat ->
                  fgets_lines_from fuel1 size f = fgets_lines_from fuel2 size f.
Proof.
  induction fuel1 as [|fuel1 IH]; intros fuel2 f H1 H2 Hs.
  - destruct f; [now destruct fuel2 | cbn in H1; lia].
  - destruct f as [|c t]; [now destruct fuel2|].
    destruct fuel2 as [|fuel2]; [cbn in H2; lia|].
    cbn [fgets_lines_from fgets].
    destruct size as [|[|k]]; try lia. change (S (S k) - 1)%nat with (S k).
    pose proof (fgets_chunk_rest k c t) as Hr.
    destruct (fgets_chunk (S k) (String c t)) as [l r]. cbn [snd] in Hr.
    f_equal. cbn in H1, H2. apply IH; unfold strlen in *; lia.
Qed.

Lemma fgets_lines_from_enough (size : nat) (fuel : nat) (f : string) :
  (strlen f <= fuel)%nat -> (2 <= size)%nat ->
  fgets_lines_from fuel size f = fgets_lines size f.
Proof. intros Hf Hs. apply fgets_lines_from_any; auto. Qed.

Lemma fgets_lines_cons (size : nat) (c : ascii) (t : string) :
  (2 <= size)%nat ->
  fgets_lines size (String c t)
  = fst (fgets_chunk (size - 1) (String c t))
      :: fgets_lines size (snd (fgets_chunk (size - 1) (String c t))).
Proof.
  intros Hs. unfold fgets_lines at 1.
  change (String.length (String c t)) with (S (strlen t)).
  cbn [fgets_lines_from fgets].
  destruct size as [|[|k]]; try lia. change (S (S k) - 1)%nat with (S k).
  pose proof (fgets_chunk_rest k c t) as Hr.
  destruct (fgets_chunk (S k) (String c t)) as [l r]. cbn [fst snd] in *.
  f_equal. apply fgets_lines_from_enough; [exact Hr | lia].
Qed.

Lemma until_nul_line (line : string) (rest : list ascii) :
  all_chars (is_not NUL) line = true ->
  until_nul (list_ascii_of_string line ++ NUL :: rest) = line.
Proof.
  induction line as [|c line IH]; [reflexivity|]. cbn [all_chars].
  rewrite andb_true_iff. unfold is_not at 1. rewrite negb_true_iff. intros [Hc Hl].
  cbn [list_ascii_of_string app until_nul]. now rewrite Hc, IH.
Qed.

Lemma buf_str_puts (line : string) (b : cbuf) :
  all_chars (is_not NUL) line = true -> buf_str 0 (buf_puts line b) = line.
Proof. intros H. unfold buf_str, buf_puts. cbn [drop]. now apply until_nul_line. Qed.

Lemma fgets_chunk_line (t rest : string) (k : nat) :
  all_chars (is_not NL) t = true -> (strlen t < k)%nat ->
  fgets_chunk k ((t +:+ String NL EmptyString) +:+ rest) = (t +:+ String NL EmptyString, rest).
Proof.
  revert k; induction t as [|c t IH]; intros k Ht Hk.
  - destruct k; [cbn in Hk; lia|]. reflexivity.
  - destruct k; [cbn in Hk; lia|]. cbn [all_chars] in Ht.
    apply andb_true_iff in Ht as [Hc Ht]. unfold is_not in Hc. apply negb_true_iff in Hc.
    rewrite !append_cons. cbn [fgets_chunk]. rewrite Hc.
    rewrite IH; [reflexivity | exact Ht | unfold strlen in *; cbn in Hk; lia].
Qed.

Lemma fgets_whole_line (l rest : string) :
  whole_line l -> fgets 80 (l +:+ rest) = Some (l, rest).
Proof.
  intros (t & -> & Hnl & _ & Hlen). unfold fgets.
  destruct ((t +:+ String NL EmptyString) +:+ rest) eqn:E.
  - destruct t; discriminate E.
  - rewrite <- E. change (80 - 1)%nat with 79%nat. f_equal.
    apply fgets_chunk_line; [exact Hnl | lia].
Qed.

Lemma whole_line_no_nul (l : string) : whole_line l -> all_chars (is_not NUL) l = true.
Proof.
  intros (t & -> & _ & Hnul & _). rewrite all_chars_app, Hnul. reflexivity.
Qed.

Lemma until_nul_drop (k : nat) (line : string) (rest : list ascii) :
  all_chars (is_not NUL) line = true -> (k <= strlen line)%nat ->
  until_nul (drop k (list_ascii_of_string line ++ NUL :: rest)) = str_drop k line.
Proof.
  revert line; induction k as [|k IH]; intros line Hn Hk.
  - rewrite drop_0. destruct line; apply until_nul_line; exact Hn.
  - destruct line as [|c line]; [cbn in Hk; lia|].
    cbn [all_chars] in Hn. apply andb_true_iff in Hn as [_ Hn].
    cbn [list_ascii_of_string app drop str_drop]. apply IH; [exact Hn|].
    unfold strlen in *. cbn in Hk. lia.
Qed.

Lemma buf_str_puts_drop (k : nat) (line : string) (b : cbuf) :
  all_chars (is_not NUL) line = true -> (k <= strlen line)%nat ->
  buf_str k (buf_puts line b) = str_drop k line.
Proof. intros. unfold buf_str, buf_puts. now apply until_nul_drop. Qed.

Lemma strncmp0_length (a b : string) (n : nat) :
  strncmp0 a b n = true -> (n <= strlen b)%nat -> (n <= strlen a)%nat.
Proof.
  unfold strlen. revert a b; induction n as [|n IH]; intros a b H Hb; [lia|].
  destruct a as [|x a], b as [|y b]; cbn in *; try discriminate; try lia.
  apply andb_true_iff in H as [_ H]. specialize (IH a b H). lia.
Qed.

(** A line that starts with [F] is neither [begin request] nor
    [end request]. *)
Lemma from_line_is_no_request (l key : string) (n : nat) :
  strncmp0 l (String "F" key) (S n) = true ->
  strncmp0 (str2lower (compress l)) "beginrequest" (strlen "beginrequest") = false
  /\ strncmp0 (str2lower (compress l)) "endrequest" (strlen "endrequest") = false.
Proof.
  destruct l as [|c l]; [discriminate|]. cbn [strncmp0].
  intros [Hc _]%andb_true_iff. apply Ascii.eqb_eq in Hc. subst c.
  unfold compress.
  destruct (if (strlen (String "F" l) <? 80)%nat then strlen (String "F" l) else 80%nat)
    as [|k] eqn:E.
  { destruct (strlen (String "F" l) <? 80)%nat; [discriminate E | discriminate E]. }
  split; reflexivity.
Qed.

Lemma header_opens_no_mail (h : string) :
  strncmp0 h "From: " 6 = true -> strncmp0 h "From " 5 = false.
Proof.
  intros H.
  destruct h as [|a [|b [|c [|d [|e h]]]]]; cbn [strncmp0] in H;
    rewrite ?andb_false_r in H; try discriminate H.
  do 4 (apply andb_true_iff in H as [_ H]). apply andb_true_iff in H as [He _].
  apply Ascii.eqb_eq in He. subst e. cbn [strncmp0]. now rewrite !andb_false_r.
Qed.

Section Copy.
Context `{valdems_h}.

Lemma loop_body_copies (cl_register cl_register_local : option string) (st : state)
  (line : string) :
  buf_str 0 (s st) = line -> body_line line = true ->
  loop_body cl_register cl_register_local st = copy_line st.
Proof.
  unfold loop_body, body_line. intros -> Hb. apply andb_true_iff in Hb as [H1 H2].
  apply negb_true_iff in H1, H2. now rewrite H1, H2.
Qed.

Lemma main_loop_copies (cl_register cl_register_local : option string) (name : string)
  (fuel : nat) :
  forall st : state,
    fo st = Some name ->
    all_chars (is_not NUL) (fi st) = true ->
    Forall (fun l => body_line l = true) (fgets_lines 80 (fi st)) ->
    (strlen (fi st) < fuel)%nat ->
    let st' := main_loop fuel cl_register cl_register_local st in
    fi st' = EmptyString /\ fo st' = Some name
    /\ n_requests st' = n_requests st /\ process st' = process st
    /\ filename st' = filename st /\ address st' = address st
    /\ ClientName st' = ClientName st /\ is_mirror st' = is_mirror st
    /\ files st'
       = (if is_empty (fi st) then files st
          else <[name := default EmptyString (files st !! name) +:+ fi st]> (files st))
    /\ has_begin_request st'
       = has_begin_request st || existsb begins_request (fgets_lines 80 (fi st)).
Proof.
  induction fuel as [|fuel IH]; intros st Hfo Hnul Hbody Hfuel; [lia|].
  cbn [main_loop]. destruct (fi st) as [|c t] eqn:Efi.
  - cbn [fgets]. cbv zeta. rewrite Efi. cbn [is_empty existsb fgets_lines
      fgets_lines_from String.length]. rewrite orb_false_r. auto 12.
  - cbn [fgets is_empty]. change (80 - 1)%nat with 79%nat.
    rewrite (fgets_lines_cons 80 c t) in Hbody by lia.
    rewrite (fgets_lines_cons 80 c t) by lia. change (80 - 1)%nat with 79%nat in *.
    pose proof (fgets_chunk_split 79 (String c t)) as Hsplit.
    pose proof (fgets_chunk_rest 78 c t) as Hrest.
    pose proof (fgets_chunk_chars (is_not NUL) 79 (String c t) Hnul) as [Hl Hr].
    destruct (fgets_chunk 79 (String c t)) as [line rest]. cbn [fst snd] in *.
    apply Forall_cons in Hbody as [Hline Hbody].
    set (st1 := mkState rest (buf_puts line (s st)) (n_requests st) (fo st) (filename st)
                  (address st) (ClientName st) (has_begin_request st)
                  (has_end_request st) (is_mirror st) (process st) (files st)).
    rewrite (loop_body_copies cl_register cl_register_local st1 line
               (buf_str_puts line (s st) Hl) Hline).
    unfold copy_line. cbn [fo st1]. rewrite Hfo.
    cbn [s fi n_requests fo filename address ClientName has_begin_request
           has_end_request is_mirror process files st1].
    rewrite (buf_str_puts line (s st) Hl).
    match goal with |- context [main_loop fuel _ _ ?x] => set (st2 := x) end.
    specialize (IH st2 eq_refl Hr Hbody
                  ltac:(cbn [fi st2]; unfold strlen in *; cbn [String.length] in Hfuel;
                        lia)).
    cbv zeta in IH. cbv zeta.
    destruct IH as (I1 & I2 & I3 & I4 & I5 & I6 & I7 & I8 & I9 & I10).
    cbn [fi fo n_requests process filename address ClientName is_mirror files
           has_begin_request st2] in *.
    rewrite I1, I2, I3, I4, I5, I6, I7, I8, I9, I10.
    do 8 (split; [reflexivity|]). split.
    + rewrite <- Hsplit. destruct rest as [|r rest]; cbn [is_empty].
      * now rewrite append_nil_r.
      * rewrite lookup_insert_eq. cbn [default]. unfold id.
        rewrite insert_insert_eq. now rewrite append_assoc.
    + cbn [existsb]. unfold begins_request at 2.
      destruct (strncmp0 _ "beginrequest" _); [now rewrite orb_true_r|].
      reflexivity.
Qed.

(** X15: while a request file is open, the lines of the mail that open no
    mail and name no sender are copied to it as they are: when the rest of
    the mailbox holds only such lines, and no NUL character, the loop reads
    it to its end and the request file has grown by exactly that text,
    whatever the lengths of the lines; no other file, the counter and the
    process file are not touched, and [begin request] is noticed exactly
    when one of the lines read spells it. *)
Theorem mail_body_is_copied (cl_register cl_register_local : option string)
  (name : string) (fuel : nat) :
  forall st : state,
    fo st = Some name ->
    all_chars (is_not NUL) (fi st) = true ->
    Forall (fun l => body_line l = true) (fgets_lines 80 (fi st)) ->
    (strlen (fi st) < fuel)%nat ->
    let st' := main_loop fuel cl_register cl_register_local st in
    fi st' = EmptyString /\ fo st' = Some name
    /\ n_requests st' = n_requests st /\ process st' = process st
    /\ address st' = address st /\ ClientName st' = ClientName st
    /\ default EmptyString (files st' !! name)
       = default EmptyString (files st !! name) +:+ fi st
    /\ (forall other, other <> name -> files st' !! other = files st !! other)
    /\ has_begin_request st'
       = has_begin_request st || existsb begins_request (fgets_lines 80 (fi st)).
Proof.
  intros st Hfo Hnul Hbody Hfuel.
  destruct (main_loop_copies cl_register cl_register_local name fuel st Hfo Hnul Hbody
              Hfuel) as (I1 & I2 & I3 & I4 & _ & I6 & I7 & _ & I9 & I10).
  cbv zeta. rewrite I9.
  do 6 (split; [assumption|]). split; [|split; [|exact I10]].
  - destruct (fi st); cbn [is_empty]; [now rewrite append_nil_r|].
    now rewrite lookup_insert_eq.
  - intros other Ho. destruct (fi st); cbn [is_empty]; [reflexivity|].
    apply lookup_insert_ne. congruence.
Qed.

Lemma main_loop_envelope (cl_register cl_register_local : option string)
  (envelope rest : string) (n : Z) (fuel : nat) :
  whole_line envelope -> strncmp0 envelope "From " 5 = true ->
  main_loop (S fuel) cl_register cl_register_local (at_start (envelope +:+ rest) n)
  = main_loop fuel cl_register cl_register_local (after_envelope envelope rest n).
Proof.
  intros Hl Hfrom. unfold at_start. cbn [main_loop fi s n_requests fo filename address ClientName has_begin_request
    has_end_request is_mirror process files].
  rewrite (fgets_whole_line envelope rest Hl). f_equal.
  pose proof (whole_line_no_nul envelope Hl) as Hnul.
  unfold loop_body. cbn [s]. rewrite (buf_str_puts envelope [] Hnul), Hfrom.
  unfold new_mail. cbn [fo n_requests fi s ClientName has_begin_request has_end_request
                          is_mirror process files].
  unfold copy_line. cbn [fo s fi n_requests filename address ClientName
                           has_begin_request has_end_request is_mirror process files].
  rewrite (buf_str_puts envelope [] Hnul).
  destruct (from_line_is_no_request envelope "rom " 4 Hfrom) as [-> ->].
  rewrite lookup_insert_eq. cbn [default]. unfold id.
  rewrite insert_insert_eq, insert_empty. reflexivity.
Qed.

Lemma main_loop_header (cl_register cl_register_local : option string)
  (envelope header rest : string) (n : Z) (fuel : nat) :
  whole_line header -> strncmp0 header "From: " 6 = true ->
  strchr header "@" <> None ->
  let client := authenticate cl_register cl_register_local
                  (extract_address (str_drop 6 header)) in
  main_loop (S fuel) cl_register cl_register_local
    (after_envelope envelope (header +:+ rest) n)
  = main_loop fuel cl_register cl_register_local
      (if is_empty client then after_stranger envelope header rest n
       else after_header envelope header rest client n).
Proof.
  intros Hl Hfrom Hat client. unfold after_envelope at 1.
  cbn [main_loop fi s n_requests fo filename address ClientName has_begin_request
    has_end_request is_mirror process files].
  rewrite (fgets_whole_line header rest Hl). f_equal.
  pose proof (whole_line_no_nul header Hl) as Hnul.
  unfold loop_body. cbn [s].
  rewrite (buf_str_puts header _ Hnul), (header_opens_no_mail header Hfrom), Hfrom.
  unfold from_header. cbn [s fi].
  rewrite (buf_str_puts header _ Hnul).
  destruct (strchr header "@") as [k|] eqn:E; [|congruence].
  rewrite (buf_str_puts_drop 6 header _ Hnul (strncmp0_length _ _ _ Hfrom ltac:(cbn; lia))).
  fold client. destruct (is_empty client) eqn:Ec.
  - unfold after_stranger.
    cbn [n_requests filename process files].
    assert (client = EmptyString) as -> by (destruct client; [reflexivity | discriminate Ec]).
    rewrite delete_singleton_eq. f_equal. f_equal. lia.
  - unfold copy_line. cbn [fo s fi n_requests filename address ClientName
                             has_begin_request has_end_request is_mirror process files].
    rewrite (buf_str_puts header _ Hnul).
    destruct (from_line_is_no_request header "rom: " 5 Hfrom) as [-> ->].
    rewrite lookup_singleton_eq. cbn [default]. unfold id.
    rewrite insert_singleton_eq. unfold after_header.
    destruct (strcmp0 client "VALDMirrorSite"); reflexivity.
Qed.

Lemma main_loop_skips (cl_register cl_register_local : option string) (fuel : nat) :
  forall st : state,
    fo st = None ->
    all_chars (is_not NUL) (fi st) = true ->
    Forall (fun l => body_line l = true) (fgets_lines 80 (fi st)) ->
    (strlen (fi st) < fuel)%nat ->
    let st' := main_loop fuel cl_register cl_register_local st in
    fi st' = EmptyString /\ fo st' = None
    /\ n_requests st' = n_requests st /\ process st' = process st
    /\ files st' = files st.
Proof.
  induction fuel as [|fuel IH]; intros st Hfo Hnul Hbody Hfuel; [lia|].
  cbn [main_loop]. destruct (fi st) as [|c t] eqn:Efi.
  - cbn [fgets]. cbv zeta. rewrite Efi. auto.
  - cbn [fgets]. change (80 - 1)%nat with 79%nat.
    rewrite (fgets_lines_cons 80 c t) in Hbody by lia. change (80 - 1)%nat with 79%nat in *.
    pose proof (fgets_chunk_rest 78 c t) as Hrest.
    pose proof (fgets_chunk_chars (is_not NUL) 79 (String c t) Hnul) as [Hl Hr].
    destruct (fgets_chunk 79 (String c t)) as [line rest]. cbn [fst snd] in *.
    apply Forall_cons in Hbody as [Hline Hbody].
    set (st1 := mkState rest (buf_puts line (s st)) (n_requests st) (fo st) (filename st)
                  (address st) (ClientName st) (has_begin_request st)
                  (has_end_request st) (is_mirror st) (process st) (files st)).
    rewrite (loop_body_copies cl_register cl_register_local st1 line
               (buf_str_puts line (s st) Hl) Hline).
    unfold copy_line. cbn [fo st1]. rewrite Hfo. fold st1.
    specialize (IH st1 Hfo Hr Hbody
                  ltac:(cbn [fi st1]; unfold strlen in *; cbn [String.length] in Hfuel; lia)).
    exact IH.
Qed.


End Copy.

#[local] Existing Instance Samples.site.

(** [committed_request_is_answered] on a request of the mirror site. *)
Lemma committed_request_is_answered_witness :
  (exists before after,
      process (new_mail Samples.mirror_request)
      = (process Samples.mirror_request ++ before
         ++ reply_lines Samples.mirror_request ++ after)%list)
  /\ (exists before after,
      process (last_mail 6 Samples.mirror_request)
      = (process Samples.mirror_request ++ before
         ++ reply_lines Samples.mirror_request ++ after)%list).
Proof.
  apply (committed_request_is_answered Samples.mirror_request "request.000007" 6);
    reflexivity.
Defined.


Lemma compress_loop_sub (p : ascii -> bool) (n : nat) (s : string) :
  all_chars p s = true -> all_chars p (compress_loop n s) = true.
Proof.
  revert s; induction n as [|n IH]; intros [|c s]; simpl; try reflexivity.
  intros H. apply andb_true_iff in H as [Hc Hs].
  destruct (Ascii.eqb c "#"); [reflexivity|].
  destruct (kept c); [simpl; rewrite Hc; simpl|]; auto.
Qed.

Lemma blank_non_alpha_chars (s : string) :
  all_chars (fun c => isalpha c || Ascii.eqb c " ") (blank_non_alpha s) = true.
Proof.
  induction s as [|c s IH]; simpl; [reflexivity|]. rewrite IH, andb_true_r.
  destruct (isalpha c) eqn:E; [now rewrite E | reflexivity].
Qed.

Lemma client_of_comment_letters (s : string) :
  all_chars isalpha (client_of_comment s) = true
  /\ (strlen (client_of_comment s) <= 80)%nat.
Proof.
  unfold client_of_comment. split.
  - pose proof (blank_non_alpha_chars (String " " (String " " (str_drop 2 s)))) as Hb.
    set (t := blank_non_alpha _) in *. clearbody t.
    pose proof (compress_loop_sub _ (if (strlen t <? 80)%nat then strlen t else 80%nat) t Hb)
      as H1.
    pose proof (compress_loop_kept (if (strlen t <? 80)%nat then strlen t else 80%nat) t)
      as H2.
    unfold compress. set (r := compress_loop _ t) in *. clearbody r.
    induction r as [|c r IH]; [reflexivity|]. simpl in *.
    apply andb_true_iff in H1 as [A1 H1]. apply andb_true_iff in H2 as [A2 H2].
    rewrite (IH H1 H2), andb_true_r.
    destruct (isalpha c); [reflexivity|]. simpl in A1.
    apply Ascii.eqb_eq in A1. subst c. discriminate A2.
  - unfold compress.
    set (t := blank_non_alpha (String " " (String " " (str_drop 2 s)))).
    pose proof (compress_loop_length (if (strlen t <? 80)%nat then strlen t else 80%nat) t)
      as Hlen.
    destruct (Nat.ltb_spec (strlen t) 80); lia.
Qed.

Lemma CheckClient_loop_name (lines : list string) (s1 : string) (l : nat)
  (ClientName : string) :
  all_chars isalpha ClientName = true -> (strlen ClientName <= 80)%nat ->
  all_chars isalpha (snd (CheckClient_loop lines s1 l ClientName)) = true
  /\ (strlen (snd (CheckClient_loop lines s1 l ClientName)) <= 80)%nat.
Proof.
  revert ClientName; induction lines as [|s rest IH]; intros ClientName Ha Hl.
  - split; [reflexivity | simpl; lia].
  - rewrite CheckClient_loop_cons.
    destruct (Ascii.eqb (char_at 0 s) "#").
    + destruct (negb (Ascii.eqb (char_at 1 s) "$")); [now apply IH|].
      apply IH; apply client_of_comment_letters.
    + destruct (address_matches s1 l (str2lower s)); [split; assumption | now apply IH].
Qed.

(** X11: whatever the register holds, the client name [CheckClient] leaves is
    made of letters only and has at most 80 characters. *)
Theorem client_name_is_letters (reg address : string) :
  all_chars isalpha (snd (CheckClient reg address EmptyString)) = true
  /\ (strlen (snd (CheckClient reg address EmptyString)) <= 80)%nat.
Proof. unfold CheckClient. apply CheckClient_loop_name; [reflexivity | simpl; lia]. Qed.

Lemma authenticate_shape (cl_register cl_register_local : option string)
  (address : string) :
  exists n, all_chars isalpha n = true /\ (strlen n <= 80)%nat
    /\ (authenticate cl_register cl_register_local address = n
        \/ (n <> EmptyString
            /\ authenticate cl_register cl_register_local address
               = n +:+ "_local")).
Proof.
  assert (Hnames : forall reg, all_chars isalpha
                     (snd (CheckClient reg address EmptyString)) = true
                   /\ (strlen (snd (CheckClient reg address EmptyString)) <= 80)%nat).
  { intros reg. unfold CheckClient. apply CheckClient_loop_name; [reflexivity | simpl; lia]. }
  assert (Hempty : all_chars isalpha EmptyString = true /\ (strlen EmptyString <= 80)%nat)
    by (split; [reflexivity | simpl; lia]).
  unfold authenticate.
  set (first := match cl_register with
                | Some reg => snd (CheckClient reg address EmptyString)
                | None => EmptyString
                end).
  assert (Hfirst : all_chars isalpha first = true /\ (strlen first <= 80)%nat)
    by (unfold first; destruct cl_register; [apply Hnames | exact Hempty]).
  clearbody first. destruct cl_register_local as [loc|].
  - destruct (is_empty first) eqn:E1.
    + assert (first = EmptyString) as -> by (destruct first; [reflexivity | discriminate E1]).
      destruct (is_empty (snd (CheckClient loc address EmptyString))) eqn:E2;
        cbn [negb]; destruct (Hnames loc) as [Ha Hl].
      * exists (snd (CheckClient loc address EmptyString)).
        split; [exact Ha|]. split; [exact Hl|]. left. reflexivity.
      * exists (snd (CheckClient loc address EmptyString)).
        split; [exact Ha|]. split; [exact Hl|]. right.
        split; [intros E; rewrite E in E2; discriminate E2 | reflexivity].
    + exists first. destruct Hfirst as [Ha Hl].
      split; [exact Ha|]. split; [exact Hl|]. left. reflexivity.
  - exists first. destruct Hfirst as [Ha Hl].
    split; [exact Ha|]. split; [exact Hl|]. left. reflexivity.
Qed.

(** [mail_body_is_copied] on a request of four lines. *)
Lemma mail_body_is_copied_witness :
  let st' := main_loop 60 (Some Samples.register) None Samples.open_request in
  fi st' = EmptyString
  /\ default EmptyString (files st' !! "request.000007")
     = "From: alice@example.org" +:+ Samples.nl +:+ fi Samples.open_request
  /\ has_begin_request st' = true.
Proof.
  destruct (mail_body_is_copied (Some Samples.register) None "request.000007" 60
              Samples.open_request) as (Hfi & _ & _ & _ & _ & _ & Hfile & _ & Hbegin).
  - reflexivity.
  - reflexivity.
  - vm_compute. repeat constructor.
  - vm_compute. lia.
  - split; [exact Hfi|]. split; [exact Hfile|]. rewrite Hbegin. reflexivity.
Defined.


End ParsemailProperties.

(** ** Properties of parserequest.c beyond the specification *)
Module ParserequestProperties.
Import CStr Parserequest Spec CStrFacts CStrProperties ParserequestFacts.

Lemma str_put_length (k : nat) (x : ascii) (s : string) : strlen (str_put k x s) = strlen s.
Proof.
  unfold strlen. revert k; induction s as [|c s IH]; intros [|k]; simpl; auto.
Qed.

Lemma blank_each_spec (c : ascii) (fuel : nat) :
  c <> " "%char ->
  forall s, (occurrences c s < fuel)%nat -> blank_each fuel c s = map_chars (blank_one c) s.
Proof.
  intros Hc.
  assert (Hsp : Ascii.eqb " " c = false) by (apply Ascii.eqb_neq; congruence).
  induction fuel as [|fuel IH]; intros s Hocc; [lia|].
  cbn [blank_each].
  assert (Hstep : forall t,
            match strchr t c with
            | Some k => occurrences c (str_put k " " t) = pred (occurrences c t)
                        /\ (0 < occurrences c t)%nat
                        /\ map_chars (blank_one c) (str_put k " " t) = map_chars (blank_one c) t
            | None => map_chars (blank_one c) t = t
            end).
  { induction t as [|x t IHt]; [reflexivity|]. cbn [strchr].
    destruct (Ascii.eqb x c) eqn:E.
    - cbn [str_put occurrences map_chars]. rewrite E, Hsp.
      unfold blank_one at 1 3. rewrite E, Hsp.
      repeat split; simpl; lia.
    - destruct (strchr t c) as [k|]; cbn [option_map].
      + destruct IHt as (H1 & H2 & H3). cbn [str_put occurrences map_chars].
        rewrite E, H1, H3. repeat split; simpl; lia.
      + cbn [map_chars]. unfold blank_one at 1. now rewrite E, IHt. }
  specialize (Hstep s). destruct (strchr s c) as [k|].
  - destruct Hstep as (H1 & H2 & H3). rewrite IH by lia. exact H3.
  - now rewrite Hstep.
Qed.

Lemma occurrences_le (c : ascii) (s : string) : (occurrences c s <= strlen s)%nat.
Proof.
  unfold strlen. induction s as [|x s IH]; simpl; [lia|]. destruct (Ascii.eqb x c); lia.
Qed.

Lemma map_chars_length (f : ascii -> ascii) (s : string) : strlen (map_chars f s) = strlen s.
Proof. unfold strlen. induction s as [|c s IH]; simpl; auto. Qed.

Lemma map_chars_map (f g : ascii -> ascii) (s : string) :
  map_chars f (map_chars g s) = map_chars (fun c => f (g c)) s.
Proof. induction s as [|c s IH]; simpl; [reflexivity|]. now rewrite IH. Qed.

Lemma map_chars_ext (f g : ascii -> ascii) (s : string) :
  (forall c, f c = g c) -> map_chars f s = map_chars g s.
Proof. intros E. induction s as [|c s IH]; simpl; [reflexivity|]. now rewrite E, IH. Qed.

Lemma blank_each_length (fuel : nat) (c : ascii) (s : string) :
  strlen (blank_each fuel c s) = strlen s.
Proof.
  revert s; induction fuel as [|fuel IH]; intros s; [reflexivity|]. cbn [blank_each].
  destruct (strchr s c); [|reflexivity]. now rewrite IH, str_put_length.
Qed.

Lemma blank_each_all (c : ascii) (s : string) (turns : nat) :
  c <> " "%char -> (strlen s < turns)%nat ->
  blank_each turns c s = map_chars (blank_one c) s.
Proof.
  intros Hc Hlen. apply blank_each_spec; [exact Hc|].
  pose proof (occurrences_le c s). lia.
Qed.


(** X8: [RemoveMeta] replaces each of the characters [;], [&], [|], [>],
    [<], the double quote, new line and carriage return by a blank and changes nothing else: the result has none of them and the
    length of the argument. *)
Theorem RemoveMeta_blanks_metacharacters (s : string) :
  RemoveMeta s = map_chars (fun c => if shell_meta c then " "%char else c) s
  /\ all_chars (fun c => negb (shell_meta c)) (RemoveMeta s) = true
  /\ strlen (RemoveMeta s) = strlen s.
Proof.
  assert (H : RemoveMeta s = map_chars (fun c => if shell_meta c then " "%char else c) s).
  { unfold RemoveMeta. cbv zeta.
    rewrite !blank_each_all; rewrite ?map_chars_length, ?blank_each_length; try lia;
      try discriminate.
    rewrite !map_chars_map. apply map_chars_ext. intros c.
    unfold blank_one, shell_meta.
    destruct (Ascii.eqb_spec c ";") as [->|]; [reflexivity|].
    destruct (Ascii.eqb_spec c "&") as [->|]; [reflexivity|].
    destruct (Ascii.eqb_spec c "|") as [->|]; [reflexivity|].
    destruct (Ascii.eqb_spec c ">") as [->|]; [reflexivity|].
    destruct (Ascii.eqb_spec c "<") as [->|]; [reflexivity|].
    destruct (Ascii.eqb_spec c DQ) as [->|]; [reflexivity|].
    destruct (Ascii.eqb_spec c NL) as [->|]; [reflexivity|].
    destruct (Ascii.eqb_spec c CR) as [->|]; reflexivity. }
  split; [exact H|]. rewrite H. split; [|apply map_chars_length].
  clear H. induction s as [|c s IH]; [reflexivity|]. cbn [map_chars all_chars].
  rewrite IH, andb_true_r. destruct (shell_meta c) eqn:E; [reflexivity | now rewrite E].
Qed.

Lemma char_at_app_r (a b : string) (j : nat) :
  char_at (strlen a + j) (a +:+ b) = char_at j b.
Proof. induction a as [|c a IH]; simpl; auto. Qed.

Lemma scan_from_run (p : ascii -> bool) (run : string) :
  forall (a b : string) (count : nat),
    all_chars p run = true ->
    (strlen run = count \/ ((strlen run < count)%nat /\ p (char_at 0 b) = false)) ->
    scan_from p (a +:+ run +:+ b) (strlen a) count = (strlen a + strlen run)%nat.
Proof.
  induction run as [|c run IH]; intros a b count Hall Hend.
  - rewrite append_nil_l. cbn [strlen String.length] in *. rewrite Nat.add_0_r.
    destruct Hend as [<- | [Hlt Hb]]; [reflexivity|].
    destruct count as [|count]; [lia|]. cbn [scan_from].
    rewrite <- (Nat.add_0_r (strlen a)), char_at_app_r, Hb. now rewrite Nat.add_0_r.
  - cbn [all_chars] in Hall. apply andb_true_iff in Hall as [Hc Hall].
    destruct count as [|count];
      [exfalso; unfold strlen in Hend; simpl in Hend; destruct Hend as [H | [H _]]; lia|].
    cbn [scan_from].
    rewrite <- (Nat.add_0_r (strlen a)) at 1. rewrite char_at_app_r.
    rewrite append_cons. cbn [char_at]. rewrite Hc.
    replace (a +:+ String c (run +:+ b)) with ((a +:+ String c EmptyString) +:+ run +:+ b)
      by (rewrite append_assoc; reflexivity).
    replace (S (strlen a)) with (strlen (a +:+ String c EmptyString))
      by (rewrite strlen_append; unfold strlen; simpl; lia).
    rewrite IH; [rewrite strlen_append; unfold strlen; simpl; lia | exact Hall |].
    unfold strlen in *. simpl in Hend.
    destruct Hend as [H | [H Hb]]; [left | right; split; auto]; lia.
Qed.

Lemma scan_run (p : ascii -> bool) (a run b : string) (n : nat) :
  all_chars p run = true ->
  ((strlen a + strlen run)%nat = n
   \/ ((strlen a + strlen run < n)%nat /\ p (char_at 0 b) = false)) ->
  scan p (a +:+ run +:+ b) (strlen a) n = (strlen a + strlen run)%nat.
Proof.
  intros Hall Hend. unfold scan. apply scan_from_run; [exact Hall|].
  destruct Hend as [H | [H Hb]]; [left; lia | right; split; [lia | exact Hb]].
Qed.

Lemma scan_from_all (p : ascii -> bool) (s : string) (i count : nat) :
  (forall c, p c = true) -> scan_from p s i count = (i + count)%nat.
Proof.
  intros Hp. revert i; induction count as [|count IH]; intros i; cbn [scan_from]; [lia|].
  rewrite Hp, IH. lia.
Qed.

Lemma comment_is_never_found (c : ascii) : negb (comment_test c) = true.
Proof. unfold comment_test. now destruct (Ascii.eqb c NUL). Qed.

Lemma scan_from_bounds (p : ascii -> bool) (s : string) (count i : nat) :
  (i <= scan_from p s i count <= i + count)%nat.
Proof.
  revert i; induction count as [|count IH]; intros i; cbn [scan_from]; [lia|].
  destruct (p (char_at i s)); [|lia]. specialize (IH (S i)). lia.
Qed.

Lemma scan_from_whole (p : ascii -> bool) (s : string) (count : nat) :
  forall i, scan_from p s i count = (i + count)%nat ->
            all_chars p (str_take count (str_drop i s)) = true.
Proof.
  induction count as [|count IH]; intros i H; [now destruct (str_drop i s)|].
  cbn [scan_from] in H. destruct (p (char_at i s)) eqn:E.
  2:{ pose proof (scan_from_bounds p s 0 i). simpl in *. lia. }
  assert (Hd : str_drop i s = EmptyString
               \/ str_drop i s = String (char_at i s) (str_drop (S i) s)).
  { clear. revert i; induction s as [|c s IHs]; intros [|i]; simpl; auto. }
  destruct Hd as [-> | ->]; [reflexivity|]. cbn [str_take all_chars].
  rewrite E. apply IH. lia.
Qed.

Lemma str_drop_nonempty (i : nat) (s : string) :
  (i < strlen s)%nat -> exists c t, str_drop i s = String c t.
Proof.
  unfold strlen. revert i; induction s as [|c s IH]; intros i Hi; simpl in Hi; [lia|].
  destruct i as [|i]; simpl; [eauto|]. apply IH. lia.
Qed.


Lemma alnum_not_blank (c : ascii) : isalnum c = true -> isblank c = false.
Proof.
  unfold isblank. intros H.
  destruct (Ascii.eqb_spec c " ") as [->|_]; [discriminate H|].
  destruct (Ascii.eqb_spec c TAB) as [->|_]; [discriminate H | reflexivity].
Qed.

Lemma not_alnum_not_digit (c : ascii) : isalnum c = false -> isdigit c = false.
Proof. unfold isalnum. now intros [_ H]%orb_false_iff. Qed.

Lemma digit_not_blank (c : ascii) : isdigit c = true -> isblank c = false.
Proof. intros H. apply alnum_not_blank. unfold isalnum. now rewrite H, orb_true_r. Qed.

Lemma compress_species_bounded (s1 s : string) (n : nat) :
  strlen s = n -> (n <= 255)%nat ->
  compress_species s1 s
  = let i := scan isblank s 0 n in
    if (i =? n)%nat then (EmptyString, s1)
    else
      let i1 := i in
      let i := scan isalnum s i n in
      let i2 := if (i <? n - 1)%nat then i else (n - 1)%nat in
      let tmp := substring s i1 (i2 - i1 + 1) in
      let i := scan isblank s i n in
      let i1 := i in
      let i := scan isdigit s i n in
      let tmp := if (i1 <? i)%nat then tmp +:+ substring s i1 (i - i1) else tmp in
      (tmp, tmp).
Proof.
  intros Hs Hn. unfold compress_species.
  assert (H0 : scan (fun c => negb (comment_test c)) s 0 (strlen s) = n).
  { unfold scan. rewrite scan_from_all by apply comment_is_never_found. lia. }
  rewrite H0. destruct (Nat.ltb_spec 255 n); [lia | reflexivity].
Qed.

(** X10: what [compress_species] reads: a name alone is kept; the character
    that ends the name is kept with it and the rest of the line is dropped;
    after a name and a blank the digits are kept and the rest is dropped. *)
Theorem compress_species_forms (s1 name digits rest : string) (t : ascii) :
  name <> EmptyString ->
  all_chars isalnum name = true -> all_chars isdigit digits = true ->
  isalnum t = false -> isblank t = false ->
  (strlen name + strlen digits + strlen rest + 2 <= 255)%nat ->
  fst (compress_species s1 name) = name
  /\ fst (compress_species s1 (name +:+ String t rest)) = name +:+ String t EmptyString
  /\ fst (compress_species s1 (name +:+ String " " (digits +:+ String t rest)))
     = name +:+ String " " digits.
Proof.
  intros Hne Hname Hdigits Ht Htb Hlen.
  assert (Hfirst : forall b, isblank (char_at 0 (name +:+ b)) = false).
  { intros b. destruct name as [|c0 name']; [congruence|]. cbn [all_chars] in Hname.
    apply andb_true_iff in Hname as [Hc0 _]. rewrite append_cons. cbn [char_at].
    now apply alnum_not_blank. }
  assert (Hpos : (0 < strlen name)%nat)
    by (destruct name; [congruence | unfold strlen; simpl; lia]).
  pose proof (not_alnum_not_digit t Ht) as Htd.
  split; [|split].
  - (* the name alone, at the end of the file *)
    rewrite (compress_species_bounded s1 name (strlen name)) by (auto; lia). cbv zeta.
    assert (H1 : scan isblank name 0 (strlen name) = 0%nat).
    { apply (scan_run isblank EmptyString EmptyString name (strlen name) eq_refl).
      right. split; [exact Hpos|]. rewrite <- (append_nil_r name). apply Hfirst. }
    rewrite H1. destruct (Nat.eqb_spec 0 (strlen name)) as [E|_]; [lia|].
    assert (H2 : scan isalnum name 0 (strlen name) = strlen name).
    { pose proof (scan_run isalnum EmptyString name EmptyString (strlen name) Hname) as H.
      rewrite append_nil_r in H. apply H. left. reflexivity. }
    rewrite H2.
    assert (H3 : forall p, scan p name (strlen name) (strlen name) = strlen name).
    { intros p. unfold scan. now rewrite Nat.sub_diag. }
    rewrite !H3, Nat.ltb_irrefl.
    destruct (Nat.ltb_spec (strlen name) (strlen name - 1)); [lia|].
    cbn [fst]. unfold substring. cbn [str_drop].
    replace (str_drop 0 name) with name by now destruct name.
    replace (strlen name - 1 - 0 + 1)%nat with (strlen name) by lia.
    rewrite <- (append_nil_r name) at 2. apply str_take_app.
  - set (s := name +:+ String t rest).
    assert (Hs : strlen s = (strlen name + S (strlen rest))%nat)
      by (unfold s; rewrite strlen_append; reflexivity).
    rewrite (compress_species_bounded s1 s (strlen s)) by (auto; lia). cbv zeta.
    assert (H1 : scan isblank s 0 (strlen s) = 0%nat).
    { apply (scan_run isblank EmptyString EmptyString s (strlen s) eq_refl).
      right. split; [simpl; lia | apply Hfirst]. }
    rewrite H1. destruct (Nat.eqb_spec 0 (strlen s)) as [E|_]; [lia|].
    assert (H2 : scan isalnum s 0 (strlen s) = strlen name).
    { apply (scan_run isalnum EmptyString name (String t rest) (strlen s) Hname).
      right. split; [simpl; lia | exact Ht]. }
    rewrite H2.
    assert (H3 : forall p, p t = false -> scan p s (strlen name) (strlen s) = strlen name).
    { intros p Hp.
      pose proof (scan_run p name EmptyString (String t rest) (strlen s) eq_refl) as H.
      rewrite append_nil_l, Nat.add_0_r in H. apply H.
      right. split; [simpl; lia | exact Hp]. }
    rewrite (H3 isblank Htb), (H3 isdigit Htd), Nat.ltb_irrefl.
    assert (Hl : strlen (name +:+ String t EmptyString) = S (strlen name))
      by (rewrite strlen_append; unfold strlen; simpl; lia).
    assert (Hi2 : ((if (strlen name <? strlen s - 1)%nat then strlen name
                    else (strlen s - 1)%nat) - 0 + 1)%nat
                  = strlen (name +:+ String t EmptyString)).
    { rewrite Hl. destruct (Nat.ltb_spec (strlen name) (strlen s - 1)); lia. }
    rewrite Hi2.
    cbn [fst]. unfold substring. cbn [str_drop].
    replace (str_drop 0 s) with s by now destruct s.
    unfold s. replace (name +:+ String t rest)
      with ((name +:+ String t EmptyString) +:+ rest) by (rewrite append_assoc; reflexivity).
    apply str_take_app.
  - set (s := name +:+ String " " (digits +:+ String t rest)).
    assert (Hs : strlen s = (strlen name + S (strlen digits + S (strlen rest)))%nat).
    { unfold s. rewrite strlen_append. unfold strlen at 2. cbn [String.length].
      fold (strlen (digits +:+ String t rest)). rewrite strlen_append. reflexivity. }
    rewrite (compress_species_bounded s1 s (strlen s)) by (auto; lia). cbv zeta.
    assert (H1 : scan isblank s 0 (strlen s) = 0%nat).
    { apply (scan_run isblank EmptyString EmptyString s (strlen s) eq_refl).
      right. split; [simpl; lia | apply Hfirst]. }
    rewrite H1. destruct (Nat.eqb_spec 0 (strlen s)) as [E|_]; [lia|].
    assert (H2 : scan isalnum s 0 (strlen s) = strlen name).
    { apply (scan_run isalnum EmptyString name (String " " (digits +:+ String t rest))
               (strlen s) Hname).
      right. split; [simpl; lia | reflexivity]. }
    rewrite H2.
    assert (Hnext : isblank (char_at 0 (digits +:+ String t rest)) = false).
    { destruct digits as [|d digits']; [exact Htb|]. rewrite append_cons. cbn [char_at].
      cbn [all_chars] in Hdigits. apply andb_true_iff in Hdigits as [Hd _].
      now apply digit_not_blank. }
    assert (H3 : scan isblank s (strlen name) (strlen s) = S (strlen name)).
    { pose proof (scan_run isblank name " " (digits +:+ String t rest) (strlen s) eq_refl)
        as H.
      replace (S (strlen name)) with (strlen name + strlen " ")%nat
        by (unfold strlen; simpl; lia).
      apply H. right. split; [unfold strlen at 2; simpl; lia | exact Hnext]. }
    rewrite H3.
    assert (H4 : scan isdigit s (S (strlen name)) (strlen s)
                 = (S (strlen name) + strlen digits)%nat).
    { pose proof (scan_run isdigit (name +:+ " ") digits (String t rest) (strlen s) Hdigits)
        as H.
      assert (Hl' : strlen (name +:+ " ") = S (strlen name))
        by (rewrite strlen_append; unfold strlen; simpl; lia).
      rewrite Hl' in H. unfold s. rewrite <- H.
      - now rewrite append_assoc.
      - right. split; [lia | exact Htd]. }
    rewrite H4.
    assert (Hl : strlen (name +:+ " ") = S (strlen name))
      by (rewrite strlen_append; unfold strlen; simpl; lia).
    assert (Hi2 : ((if (strlen name <? strlen s - 1)%nat then strlen name
                    else (strlen s - 1)%nat) - 0 + 1)%nat = strlen (name +:+ " ")).
    { rewrite Hl. destruct (Nat.ltb_spec (strlen name) (strlen s - 1)); lia. }
    rewrite Hi2.
    assert (Hfront : substring s 0 (strlen (name +:+ " ")) = name +:+ " ").
    { unfold substring. cbn [str_drop]. replace (str_drop 0 s) with s by now destruct s.
      unfold s. replace (name +:+ String " " (digits +:+ String t rest))
        with ((name +:+ " ") +:+ (digits +:+ String t rest))
        by (rewrite append_assoc; reflexivity).
      apply str_take_app. }
    rewrite Hfront.
    assert (Hdig : substring s (S (strlen name)) (S (strlen name) + strlen digits
                                                   - S (strlen name)) = digits).
    { unfold substring. replace (S (strlen name)) with (strlen (name +:+ " "))
        by (rewrite strlen_append; unfold strlen; simpl; lia).
      unfold s. replace (name +:+ String " " (digits +:+ String t rest))
        with ((name +:+ " ") +:+ (digits +:+ String t rest))
        by (rewrite append_assoc; reflexivity).
      rewrite str_drop_app.
      replace (strlen (name +:+ " ") + strlen digits - strlen (name +:+ " "))%nat
        with (strlen digits) by lia.
      apply str_take_app. }
    rewrite Hdig.
    destruct (Nat.ltb_spec (S (strlen name)) (S (strlen name) + strlen digits)) as [_|Hz];
      cbn [fst].
    + now rewrite append_assoc.
    + assert (digits = EmptyString) as ->
        by (destruct digits; [reflexivity | unfold strlen in Hz; simpl in Hz; lia]).
      reflexivity.
Qed.

(** [compress_species_forms] on the species TiO. *)
Lemma compress_species_forms_witness :
  fst (compress_species EmptyString "TiO") = "TiO"
  /\ fst (compress_species EmptyString ("TiO" +:+ String "+" "2"))
     = "TiO" +:+ String "+" EmptyString
  /\ fst (compress_species EmptyString
            ("TiO" +:+ String " " ("12" +:+ String "+" "2")))
     = "TiO" +:+ String " " "12".
Proof.
  apply (compress_species_forms EmptyString "TiO" "12" "2" "+");
    [discriminate | reflexivity | reflexivity | reflexivity | reflexivity
    | vm_compute; lia].
Defined.

Lemma str_take_all (k : nat) (s : string) : (strlen s <= k)%nat -> str_take k s = s.
Proof.
  unfold strlen. revert k; induction s as [|c s IH]; intros [|k] H; simpl in *;
    try reflexivity; try lia.
  f_equal. apply IH. lia.
Qed.

Lemma strstr_unfold (s sub : string) :
  strstr s sub
  = if strncmp0 s sub (strlen sub) then Some 0%nat
    else match s with
         | EmptyString => None
         | String _ t => option_map S (strstr t sub)
         end.
Proof. destruct s; reflexivity. Qed.

Lemma strncmp0_first_differs (c x : ascii) (s t : string) (n : nat) :
  Ascii.eqb c x = false -> strncmp0 (String c s) (String x t) (S n) = false.
Proof. intros H. cbn [strncmp0]. now rewrite H. Qed.

Lemma strstr_none (s : string) (x : ascii) (t : string) :
  all_chars (is_not x) s = true -> strstr s (String x t) = None.
Proof.
  unfold is_not. induction s as [|c s IH]; [reflexivity|].
  cbn [all_chars]. rewrite andb_true_iff, negb_true_iff. intros [Hc Hs].
  rewrite strstr_unfold. unfold strlen. cbn [String.length].
  rewrite (strncmp0_first_differs c x s t _ Hc). now rewrite (IH Hs).
Qed.

Lemma strncmp0_refl_prefix (sub rest : string) :
  strncmp0 (sub +:+ rest) sub (strlen sub) = true.
Proof.
  unfold strlen. induction sub as [|c sub IH]; [reflexivity|].
  rewrite append_cons. cbn [String.length strncmp0].
  now rewrite Ascii.eqb_refl, IH.
Qed.

Lemma strstr_first (a rest : string) (x : ascii) (t : string) :
  all_chars (is_not x) a = true ->
  strstr (a +:+ String x t +:+ rest) (String x t) = Some (strlen a).
Proof.
  unfold is_not. induction a as [|c a IH].
  - intros _. rewrite append_nil_l, strstr_unfold. now rewrite strncmp0_refl_prefix.
  - cbn [all_chars]. rewrite andb_true_iff, negb_true_iff. intros [Hc Ha].
    rewrite append_cons, strstr_unfold. unfold strlen at 1. cbn [String.length].
    rewrite (strncmp0_first_differs c x _ t _ Hc), (IH Ha). reflexivity.
Qed.

Lemma client_names_plain (name : string) :
  all_chars (is_not "_") name = true -> (strlen name <= 80)%nat ->
  client_names name = (name, name +:+ ".cfg").
Proof.
  intros Hn Hlen. unfold client_names.
  rewrite str_take_all by lia.
  now rewrite (strstr_none name "_" "local" Hn).
Qed.

Lemma client_names_local (name : string) :
  all_chars (is_not "_") name = true -> (strlen name <= 74)%nat ->
  client_names (name +:+ "_local") = (name, name +:+ ".cfg_local").
Proof.
  intros Hn Hlen. unfold client_names.
  rewrite str_take_all by (rewrite strlen_append; unfold strlen at 2; simpl; lia).
  rewrite <- (append_nil_r (name +:+ "_local")), append_assoc.
  rewrite (strstr_first name EmptyString "_" "local" Hn).
  now rewrite str_take_app.
Qed.

Lemma letter_is_not_underscore (c : ascii) : isalpha c = true -> is_not "_" c = true.
Proof.
  intros H. unfold is_not. destruct (Ascii.eqb_spec c "_") as [->|_]; [discriminate H | reflexivity].
Qed.

(** X12: the client name parsemail puts on the command line of parserequest
    is read back: when it fits the 80 characters of [ClientName], it is a
    name of letters, alone or followed by [_local], and parserequest takes
    that name as [Client_Name] and the name with [.cfg] or [.cfg_local] as
    [Personal_VALD_CONFIG]. *)
Theorem authenticated_name_is_read_back (cl_register cl_register_local : option string)
  (address : string) :
  let name := Parsemail.authenticate cl_register cl_register_local address in
  (strlen name <= 80)%nat ->
  exists n, all_chars isalpha n = true
    /\ ((name = n /\ client_names name = (n, n +:+ ".cfg"))
        \/ (n <> EmptyString /\ name = n +:+ "_local"
            /\ client_names name = (n, n +:+ ".cfg_local"))).
Proof.
  intros name Hlen. unfold name in *. clear name.
  destruct (ParsemailProperties.authenticate_shape cl_register cl_register_local address)
    as (n & Ha & Hl & [E | [Hn E]]); rewrite E in *; exists n; (split; [exact Ha|]).
  - left. split; [reflexivity|]. apply client_names_plain; [|exact Hl].
    apply (all_chars_impl isalpha); [exact letter_is_not_underscore | exact Ha].
  - right. split; [exact Hn|]. split; [reflexivity|]. apply client_names_local.
    + apply (all_chars_impl isalpha); [exact letter_is_not_underscore | exact Ha].
    + rewrite strlen_append in Hlen. unfold strlen at 2 in Hlen. simpl in Hlen. lia.
Qed.

(** [authenticated_name_is_read_back] on a client of the local register. *)
Lemma authenticated_name_is_read_back_witness :
  exists n, all_chars isalpha n = true
    /\ ((Parsemail.authenticate (Some Samples.register) (Some Samples.local_register)
           "carol@example.com" = n
         /\ client_names (Parsemail.authenticate (Some Samples.register)
                            (Some Samples.local_register) "carol@example.com")
            = (n, n +:+ ".cfg"))
        \/ (n <> EmptyString
            /\ Parsemail.authenticate (Some Samples.register) (Some Samples.local_register)
                 "carol@example.com" = n +:+ "_local"
            /\ client_names (Parsemail.authenticate (Some Samples.register)
                               (Some Samples.local_register) "carol@example.com")
               = (n, n +:+ ".cfg_local"))).
Proof.
  apply (authenticated_name_is_read_back (Some Samples.register)
           (Some Samples.local_register) "carol@example.com").
  vm_compute. lia.
Defined.

Lemma elements_two_characters : Forall (fun e => strlen e = 2%nat) elements.
Proof. unfold elements. repeat constructor. Qed.

Lemma strncmp0_two (a e : string) :
  strlen e = 2%nat -> strncmp0 a e 2 = true <-> str_take 2 a = e.
Proof.
  destruct e as [|x' [|y' [|? ?]]]; try discriminate. intros _.
  destruct a as [|x [|y t]]; cbn [strncmp0 str_take]; try (split; discriminate).
  - rewrite andb_false_r. split; discriminate.
  - rewrite andb_true_r, andb_true_iff, !Ascii.eqb_eq. split.
    + now intros [-> ->].
    + intros E. injection E as -> ->. auto.
Qed.

Lemma str_take_shorter (n : nat) (s : string) : (strlen (str_take n s) <= strlen s)%nat.
Proof.
  unfold strlen. revert s; induction n as [|n IH]; intros [|c s]; simpl; try lia.
  specialize (IH s). lia.
Qed.

Lemma find_element_spec (a : string) (table : list string) :
  forall i0 : Z,
    match find_element a table i0 with
    | Some k =>
        exists (j : nat) (e : string),
          table !! j = Some e /\ k = (i0 + Z.of_nat j + 1)%Z /\ strncmp0 a e 2 = true
    | None => Forall (fun e => strncmp0 a e 2 = false) table
    end.
Proof.
  induction table as [|e rest IH]; intros i0; cbn [find_element]; [constructor|].
  destruct (strncmp0 a e 2) eqn:E.
  - exists 0%nat, e. split; [reflexivity|]. split; [lia | exact E].
  - specialize (IH (i0 + 1)%Z). destruct (find_element a rest (i0 + 1)).
    + destruct IH as (j & e' & Hj & -> & Hm). exists (S j), e'.
      split; [exact Hj|]. split; [lia | exact Hm].
    + constructor; assumption.
Qed.

Lemma GetElementNumber_capitalised (elname : string) (k : Z) :
  find_element (str2upper elname) elements 0 = Some k ->
  GetElementNumber elname = (k, capitalised (str2upper elname)).
Proof.
  unfold GetElementNumber. intros ->. f_equal.
  destruct (str2upper elname) as [|a [|b t]]; reflexivity.
Qed.

(** X13: [GetElementNumber] finds every entry of its table at its own
    number, in upper or in lower case, and leaves it capitalised; for any
    name it returns -1 with the name in upper case when the first two
    characters are in no entry, and otherwise the number of the entry that
    the first two characters spell; a name of less than two characters is
    never found. *)
Theorem GetElementNumber_lookup (elname : string) :
  (forall (i : nat) (e : string),
      elements !! i = Some e ->
      GetElementNumber e = ((Z.of_nat i + 1)%Z, capitalised e)
      /\ fst (GetElementNumber (str2lower e)) = (Z.of_nat i + 1)%Z)
  /\ ((GetElementNumber elname = ((-1)%Z, str2upper elname)
       /\ Forall (fun e => str_take 2 (str2upper elname) <> e) elements)
      \/ (exists (i : nat) (e : string),
            elements !! i = Some e /\ str_take 2 (str2upper elname) = e
            /\ GetElementNumber elname
               = ((Z.of_nat i + 1)%Z, capitalised (str2upper elname))))
  /\ ((strlen elname < 2)%nat -> fst (GetElementNumber elname) = (-1)%Z).
Proof.
  split; [|split].
  - intros i e H.
    do 99 (destruct i as [|i];
           [injection H as <-; split; vm_compute; reflexivity | cbn [lookup list_lookup] in H]).
    discriminate H.
  - pose proof (find_element_spec (str2upper elname) elements 0) as H.
    destruct (find_element (str2upper elname) elements 0) as [k|] eqn:E.
    + right. destruct H as (j & e & Hj & -> & Hm). exists j, e.
      split; [exact Hj|]. split.
      * apply strncmp0_two; [|exact Hm].
        exact (proj1 (Forall_lookup _ _) elements_two_characters j e Hj).
      * rewrite (GetElementNumber_capitalised _ _ E). reflexivity.
    + left. split; [unfold GetElementNumber; now rewrite E|].
      pose proof elements_two_characters as H2.
      rewrite Forall_forall in *. intros e He Habs.
      specialize (H e He). apply (strncmp0_two _ _ (H2 e He)) in Habs. congruence.
  - intros Hlen. unfold GetElementNumber.
    pose proof (find_element_spec (str2upper elname) elements 0) as H.
    destruct (find_element (str2upper elname) elements 0) as [k|]; [|reflexivity].
    destruct H as (j & e & Hj & _ & Hm).
    pose proof (proj1 (Forall_lookup _ _) elements_two_characters j e Hj) as He.
    apply (strncmp0_two _ _ He) in Hm.
    rewrite <- Hm in He. rewrite <- (str2upper_length elname) in Hlen.
    pose proof (str_take_shorter 2 (str2upper elname)) as Ht. unfold strlen in *. lia.
Qed.

Lemma grows_refl (st : pstate) : grows st st.
Proof. exists []. unfold appended. now rewrite app_nil_r. Qed.

Lemma grows_trans (a b c : pstate) : grows a b -> grows b c -> grows a c.
Proof.
  intros [m1 (A1 & A2 & A3 & A4)] [m2 (B1 & B2 & B3 & B4)]. exists (m1 ++ m2)%list.
  unfold appended. rewrite B1, B2, B3, B4, A4, app_assoc. auto.
Qed.

Lemma grows_assign (f : flag) (v : Z) (st : pstate) : grows st (assign f v st).
Proof. exists []. unfold appended. cbn. now rewrite app_nil_r. Qed.

Lemma grows_fprintf (lines : list string) (st : pstate) : grows st (fprintf_fo lines st).
Proof. exists lines. unfold appended. cbn. auto. Qed.

Lemma grows_write_config (name content : string) (st : pstate) :
  grows st (write_config name content st).
Proof. exists []. unfold appended. cbn. now rewrite app_nil_r. Qed.

Lemma and_then_grows (st : pstate) (c : ctl kw) (f : kw -> ctl kw) :
  grows st (snd (finish c)) -> step_grows f -> grows st (snd (finish (c >>> f))).
Proof.
  intros Hc Hf. destruct c as [k|k]; cbn [and_then]; [|exact Hc].
  eapply grows_trans; [exact Hc | apply Hf].
Qed.

Lemma keyword_grows (KEY : string) (n : nat) (f : flag) (v : Z) : step_grows (keyword KEY n f v).
Proof.
  intros k. unfold keyword. destruct (strncmp0 _ _ _); cbn [finish snd];
    [apply grows_assign | apply grows_refl].
Qed.

Lemma long_short_grows : step_grows long_short.
Proof.
  intros k. unfold long_short. repeat destruct (strncmp0 _ _ _); cbn [finish snd];
    try apply grows_assign; apply grows_refl.
Qed.

Lemma default_configuration_grows : step_grows default_configuration.
Proof.
  intros k. unfold default_configuration. destruct (strncmp0 _ _ _); cbn [finish snd];
    [apply grows_assign | apply grows_refl].
Qed.

Lemma personal_grows (number : Z) : step_grows (personal number).
Proof.
  intros k. unfold personal. destruct (strncmp0 _ _ _); [|apply grows_refl].
  set (st := assign PersonalConfiguration 1 (snd k)).
  assert (Hst : grows (snd k) st) by apply grows_assign.
  destruct (config_dir st !! Personal_VALD_CONFIG st); [exact Hst|].
  destruct (default_config st).
  - destruct (negb (config_dir_writable st)); cbn [finish snd].
    + eapply grows_trans; [exact Hst|]. eapply grows_trans; [apply grows_fprintf|].
      apply grows_assign.
    + eapply grows_trans; [exact Hst|]. eapply grows_trans; [apply grows_write_config|].
      apply grows_fprintf.
  - cbn [finish snd]. eapply grows_trans; [exact Hst|].
    eapply grows_trans; [apply grows_fprintf|]. apply grows_assign.
Qed.

Lemma SetKeyword_grows (number : Z) (k : kw) : grows (snd k) (snd (SetKeyword number k)).
Proof.
  unfold SetKeyword.
  repeat (apply and_then_grows;
          [| first [ apply keyword_grows | apply default_configuration_grows
                   | apply personal_grows | apply long_short_grows ] ]).
  apply grows_refl.
Qed.

Section Outcomes.
Context `{valdems_h} `{libc_float}.


End Outcomes.

Lemma RemoveMeta_map (s : string) : RemoveMeta s = map_chars blank_meta s.
Proof.
  unfold RemoveMeta. cbv zeta.
  rewrite !blank_each_all; rewrite ?map_chars_length, ?blank_each_length; try lia;
    try discriminate.
  rewrite !map_chars_map. apply map_chars_ext. intros c.
  unfold blank_one, blank_meta, shell_meta.
  destruct (Ascii.eqb_spec c ";") as [->|]; [reflexivity|].
  destruct (Ascii.eqb_spec c "&") as [->|]; [reflexivity|].
  destruct (Ascii.eqb_spec c "|") as [->|]; [reflexivity|].
  destruct (Ascii.eqb_spec c ">") as [->|]; [reflexivity|].
  destruct (Ascii.eqb_spec c "<") as [->|]; [reflexivity|].
  destruct (Ascii.eqb_spec c DQ) as [->|]; [reflexivity|].
  destruct (Ascii.eqb_spec c NL) as [->|]; [reflexivity|].
  destruct (Ascii.eqb_spec c CR) as [->|]; reflexivity.
Qed.

Lemma map_chars_app (f : ascii -> ascii) (a b : string) :
  map_chars f (a +:+ b) = map_chars f a +:+ map_chars f b.
Proof.
  induction a as [|c a IH]; [reflexivity|].
  rewrite append_cons. cbn [map_chars]. now rewrite IH, append_cons.
Qed.

Lemma blank_meta_no_nul (s : string) :
  all_chars (is_not NUL) s = true -> all_chars (is_not NUL) (map_chars blank_meta s) = true.
Proof.
  induction s as [|c s IH]; [reflexivity|]. cbn [all_chars map_chars].
  rewrite !andb_true_iff. intros [Hc Hs]. split; [|auto].
  unfold blank_meta. destruct (shell_meta c); [reflexivity | exact Hc].
Qed.

Lemma chars_app (a b : string) :
  list_ascii_of_string (a +:+ b) = (list_ascii_of_string a ++ list_ascii_of_string b)%list.
Proof.
  induction a as [|c a IH]; [reflexivity|].
  rewrite append_cons. cbn [list_ascii_of_string app]. now rewrite IH.
Qed.

Lemma chars_length (a : string) : length (list_ascii_of_string a) = strlen a.
Proof. unfold strlen. induction a as [|c a IH]; cbn; auto. Qed.

Lemma buffer_closed (str : string) (rest : subject_buffer) :
  all_chars (is_not NUL) str = true ->
  buffer_strlen (map Some (list_ascii_of_string str) ++ Some NUL :: rest)%list
  = Some (strlen str)
  /\ buffer_text (map Some (list_ascii_of_string str) ++ Some NUL :: rest)%list = Some str.
Proof.
  unfold strlen. induction str as [|c str IH]; [split; reflexivity|].
  cbn [all_chars]. rewrite andb_true_iff. unfold is_not at 1. rewrite negb_true_iff.
  intros [Hc Hs]. destruct (IH Hs) as [I1 I2].
  cbn [list_ascii_of_string map app buffer_strlen buffer_text String.length].
  now rewrite Hc, I1, I2.
Qed.

Lemma buffer_open (str : string) (n : nat) :
  all_chars (is_not NUL) str = true ->
  buffer_strlen (map Some (list_ascii_of_string str) ++ replicate n None)%list = None.
Proof.
  induction str as [|c str IH].
  - intros _. destruct n; reflexivity.
  - cbn [all_chars]. rewrite andb_true_iff. unfold is_not at 1. rewrite negb_true_iff.
    intros [Hc Hs]. cbn [list_ascii_of_string map app buffer_strlen].
    now rewrite Hc, (IH Hs).
Qed.

Lemma buffer_put (p q : string) (c x : ascii) (rest : subject_buffer) :
  <[strlen p := Some x]> (map Some (list_ascii_of_string (p +:+ String c q)) ++ rest)%list
  = (map Some (list_ascii_of_string (p +:+ String x q)) ++ rest)%list.
Proof.
  unfold strlen. induction p as [|y p IH]; [reflexivity|].
  rewrite !append_cons. cbn [list_ascii_of_string map app String.length].
  cbn [insert list_insert]. f_equal. exact IH.
Qed.

Lemma str_take_whole (k : nat) (s : string) : (strlen s <= k)%nat -> str_take k s = s.
Proof.
  unfold strlen. revert k; induction s as [|c s IH]; intros [|k] Hk; cbn in *;
    try reflexivity; try lia.
  f_equal. apply IH. lia.
Qed.

Lemma all_chars_str_take (p : ascii -> bool) (k : nat) (s : string) :
  all_chars p s = true -> all_chars p (str_take k s) = true.
Proof.
  revert s; induction k as [|k IH]; intros [|c s]; cbn; try reflexivity.
  rewrite !andb_true_iff. intros [Hc Hs]. auto.
Qed.

Lemma str_take_full (k : nat) (s : string) :
  (k <= strlen s)%nat -> strlen (str_take k s) = k.
Proof.
  unfold strlen. revert s; induction k as [|k IH]; intros [|c s] Hk; cbn in *;
    try reflexivity; try lia.
  f_equal. apply IH. lia.
Qed.

Lemma subject_source (keyword text : string) :
  strlen keyword = 9%nat ->
  str_drop 9 (RemoveMeta (keyword +:+ text +:+ String NL EmptyString))
  = map_chars blank_meta text +:+ " ".
Proof.
  intros Hk. rewrite RemoveMeta_map, !map_chars_app.
  rewrite <- (map_chars_length blank_meta keyword) in Hk.
  rewrite <- Hk. rewrite str_drop_app. reflexivity.
Qed.

Lemma subject_copied (src : string) :
  buffer_strncpy subject_start 19 src 68
  = Some (map Some (list_ascii_of_string (subject_head +:+ str_take 68 src))
          ++ map Some (replicate (68 - strlen (str_take 68 src)) NUL)
          ++ replicate 33 None)%list.
Proof.
  unfold buffer_strncpy.
  change (19 + 68 <=? length subject_start)%nat with true. cbv iota.
  change (take 19 subject_start) with (map Some (list_ascii_of_string subject_head)).
  change (drop (19 + 68) subject_start) with (replicate 33 (@None ascii)).
  rewrite chars_app, !map_app, chars_length, <- !app_assoc. reflexivity.
Qed.

Lemma subject_line_first (keyword text : string) :
  strlen keyword = 9%nat ->
  all_chars (is_not NUL) text = true ->
  let s := keyword +:+ text +:+ String NL EmptyString in
  ((strlen text <= 66)%nat ->
   exists b, subject_line subject_start s = Some b
             /\ buffer_text b
                = Some ("echo " +:+ String DQ ("Subject: Re: " +:+ map_chars blank_meta text
                                               +:+ String DQ EmptyString))
             /\ all_chars (fun c => negb (shell_meta c)) (map_chars blank_meta text) = true)
  /\ ((67 <= strlen text)%nat -> subject_line subject_start s = None).
Proof.
  intros Hk Hnul s.
  assert (Hsrc : str_drop 9 (RemoveMeta s) = map_chars blank_meta text +:+ " ")
    by (apply subject_source; exact Hk).
  assert (Hlen : strlen (map_chars blank_meta text +:+ " ") = S (strlen text))
    by (rewrite strlen_append, map_chars_length; unfold strlen; cbn; lia).
  assert (Hn : all_chars (is_not NUL) (map_chars blank_meta text +:+ " ") = true)
    by (rewrite all_chars_app, (blank_meta_no_nul text Hnul); reflexivity).
  unfold subject_line. change (buffer_strlen subject_start) with (Some 20%nat). cbv iota.
  rewrite Hsrc, subject_copied. split.
  - intros Hshort.
    rewrite (str_take_whole 68) by lia. rewrite Hlen.
    destruct (68 - S (strlen text))%nat as [|m] eqn:Em; [lia|].
    change (replicate (S m) NUL) with (NUL :: replicate m NUL). cbn [map app].
    set (T := map_chars blank_meta text) in *.
    set (rest := (map Some (replicate m NUL) ++ replicate 33 None)%list).
    assert (Hn' : all_chars (is_not NUL) (subject_head +:+ T +:+ " ") = true)
      by (rewrite all_chars_app, Hn; reflexivity).
    destruct (buffer_closed (subject_head +:+ T +:+ " ") rest Hn') as [-> _].
    rewrite strlen_append, Hlen.
    change (strlen subject_head + S (strlen text))%nat with (S (19 + strlen text)).
    cbv iota. eexists. split; [reflexivity|]. split.
    + replace (19 + strlen text)%nat with (strlen (subject_head +:+ T))
        by (rewrite strlen_append; unfold T; rewrite map_chars_length; reflexivity).
      rewrite <- append_assoc, buffer_put.
      assert (Hq : all_chars (is_not NUL) ((subject_head +:+ T) +:+ String DQ EmptyString)
                   = true).
      { rewrite !all_chars_app. unfold T. rewrite (blank_meta_no_nul text Hnul).
        reflexivity. }
      destruct (buffer_closed _ rest Hq) as [_ ->]. reflexivity.
    + unfold T. clear. induction text as [|c text IH]; [reflexivity|].
      cbn [map_chars all_chars].
      rewrite IH, andb_true_r. unfold blank_meta.
      destruct (shell_meta c) eqn:E; [reflexivity | now rewrite E].
  - intros Hlong.
    assert (Hfull : strlen (str_take 68 (map_chars blank_meta text +:+ " ")) = 68%nat)
      by (apply str_take_full; lia).
    rewrite Hfull. change (68 - 68)%nat with 0%nat.
    change (replicate 0 NUL) with (@nil ascii). cbn [map app].
    rewrite buffer_open; [reflexivity|].
    rewrite all_chars_app. rewrite (all_chars_str_take _ 68 _ Hn). reflexivity.
Qed.

(** X24: the subject of the reply.  A line of the request that starts with
    [Subject: ], in one of the three spellings, and has at most 66 characters
    behind it gives the job the command [echo "Subject: Re: text"] with the
    text of the line, in which [RemoveMeta] has blanked its eight characters,
    so that no double quote is left between the two of the command.  With 67
    characters or more [strncpy] leaves the local array [subject] without a
    terminator and the behaviour is undefined. *)
Theorem subject_of_the_reply (keyword text : string) :
  In keyword [ "SUBJECT: "; "Subject: "; "subject: " ] ->
  all_chars (is_not NUL) text = true ->
  let s := keyword +:+ text +:+ String NL EmptyString in
  ((strlen text <= 66)%nat ->
   exists b, subject_step subject_start s = Some b
             /\ buffer_text b
                = Some ("echo " +:+ String DQ ("Subject: Re: " +:+ map_chars blank_meta text
                                               +:+ String DQ EmptyString))
             /\ all_chars (fun c => negb (shell_meta c)) (map_chars blank_meta text) = true)
  /\ ((67 <= strlen text)%nat -> subject_step subject_start s = None).
Proof.
  intros Hk Hnul s.
  assert (Hs : is_subject s = true /\ strlen keyword = 9%nat).
  { destruct Hk as [<- | [<- | [<- | []]]]; split; reflexivity. }
  destruct Hs as [Hs Hlen]. unfold subject_step. rewrite Hs.
  exact (subject_line_first keyword text Hlen Hnul).
Qed.

(** [subject_of_the_reply] on a subject with a semicolon and an ampersand. *)
Lemma subject_of_the_reply_witness :
  exists b,
    subject_step subject_start ("Subject: " +:+ "lines; `date` & more" +:+ String NL EmptyString)
    = Some b
    /\ buffer_text b
       = Some ("echo " +:+ String DQ ("Subject: Re: lines  `date`   more"
                                      +:+ String DQ EmptyString)).
Proof.
  destruct (subject_of_the_reply "Subject: " "lines; `date` & more") as [Hshort _].
  - right. left. reflexivity.
  - reflexivity.
  - destruct Hshort as (b & Hb & Ht & _); [vm_compute; lia|].
    exists b. split; [exact Hb | exact Ht].
Defined.

End ParserequestProperties.

(** ** vald3/src/unkompress3.c: further properties *)
Module Unkompress3Properties.
Import Ieee Unkompress3 Spec Unkompress3Facts.

Lemma int32_mod (x : Z) : (int32 x mod 2 ^ 32 = x mod 2 ^ 32)%Z.
Proof.
  unfold int32, to_signed. destruct (_ <? _)%Z.
  - apply Z.mod_mod. lia.
  - rewrite Zminus_mod, Z_mod_same_full, Z.sub_0_r, !Z.mod_mod by lia. reflexivity.
Qed.

Lemma valid_file_set (f : Z) (r r' : reader) (g : lzw) (lib : library) :
  valid_file f lib = Some r -> valid_file f (set_reader f r' g lib) = Some r'.
Proof.
  unfold valid_file, set_reader. destruct (_ || _); [discriminate|]. intros _.
  cbn [open_files]. apply lookup_insert_eq.
Qed.

Lemma fread_record_reader (len : Z) (r r' : reader) (g g' : lzw) (ok : bool) :
  fread_record len r g = Done (ok, r', g') ->
  number_of_records r' = number_of_records r /\ current_record r' = current_record r
  /\ records r' = records r /\ data r' = data r.
Proof.
  unfold fread_record. intros H. apply bind_done in H as (rec' & _ & H).
  injection H as _ <- _. auto.
Qed.

(** A call of [uknext_] that returns a count has moved on by one record. *)
Lemma uknext_advances (fh : Z) (lib lib1 : library) (tmp tmp1 : buffers) (n : Z) :
  uknext_ fh lib tmp = Done (n, lib1, tmp1) -> (0 < n)%Z -> word_count fh lib ->
  (records_left fh lib1 < records_left fh lib)%nat /\ word_count fh lib1.
Proof.
  unfold uknext_, records_left, word_count. intros H Hn Hw.
  destruct (valid_file fh lib) as [r|] eqn:Hv; [|injection H as <- _ _; lia].
  specialize (Hw r eq_refl).
  destruct (Z.leb_spec (number_of_records r) (current_record r mod 2 ^ 32));
    [injection H as <- _ _; lia|].
  apply bind_done in H as (Dk & _ & H).
  apply bind_done in H as ([[ok r'] g] & Hread & H).
  apply fread_record_reader in Hread as (Hn' & Hc' & _ & _).
  destruct (negb ok); [injection H as <- _ _; lia|].
  apply bind_done in H as ([[nlines g'] b1] & _ & H).
  injection H as _ <- _.
  rewrite (valid_file_set fh r (next_record r') g' lib Hv).
  cbn [next_record number_of_records current_record]. rewrite Hn', Hc', int32_mod.
  assert (Hm : (0 <= current_record r mod 2 ^ 32)%Z) by (apply Z.mod_pos_bound; lia).
  assert (Hs : ((current_record r + 1) mod 2 ^ 32 = current_record r mod 2 ^ 32 + 1)%Z).
  { rewrite Zplus_mod. rewrite (Z.mod_small 1) by lia. apply Z.mod_small. lia. }
  rewrite Hs. split; [lia|]. intros r0 E. injection E as <-.
  unfold next_record. cbn [number_of_records]. rewrite Hn'. exact Hw.
Qed.

Lemma store_length {A} (a a' : list A) (i : nat) (v : A) :
  store a i v = Done a' -> length a' = length a /\ (i < length a)%nat.
Proof.
  unfold store. destruct (Nat.ltb_spec i (length a)); [|discriminate].
  intros H'. injection H' as <-. split; [apply length_insert | assumption].
Qed.

Lemma memcpy_length (a a' bs : list Z) (off : nat) :
  memcpy a off bs = Done a' -> length a' = length a.
Proof.
  unfold memcpy. destruct (Nat.leb_spec (off + length bs) (length a)); [|discriminate].
  intros H'. injection H' as <-. rewrite !length_app, length_take, length_drop. lia.
Qed.

Lemma store_line_sizes (cbo : bool) (line : list Z) (n : nat) (b b' : buffers) :
  store_line cbo line n b = Done b' -> sizes b' = sizes b /\ (n < length (wl b))%nat.
Proof.
  unfold store_line. intros H.
  apply bind_done in H as (a1 & [E1 Hn]%store_length & H).
  apply bind_done in H as (a2 & [E2 _]%store_length & H).
  apply bind_done in H as (a3 & [E3 _]%store_length & H).
  apply bind_done in H as (a4 & [E4 _]%store_length & H).
  apply bind_done in H as (a5 & [E5 _]%store_length & H).
  apply bind_done in H as (a6 & [E6 _]%store_length & H).
  apply bind_done in H as (a7 & [E7 _]%store_length & H).
  apply bind_done in H as (a8 & [E8 _]%store_length & H).
  apply bind_done in H as (a9 & [E9 _]%store_length & H).
  apply bind_done in H as (a10 & [E10 _]%store_length & H).
  apply bind_done in H as (a11 & [E11 _]%store_length & H).
  apply bind_done in H as (a12 & [E12 _]%store_length & H).
  apply bind_done in H as (a13 & E13%memcpy_length & H).
  injection H as <-. split; [|exact Hn].
  unfold sizes. cbn [wl element j_low e_low j_high e_high loggf gamrad gamst gamvw
                       lande_low lande_high str].
  rewrite E1, E2, E3, E4, E5, E6, E7, E8, E9, E10, E11, E12.
  destruct (_ && _); rewrite ?length_insert, E13; reflexivity.
Qed.

Lemma ADDLINE_room (cbo : bool) (c : Z) (b : buffers) (o o' : output) :
  ADDLINE cbo c o = Done o' -> in_room b o -> in_room b o'.
Proof.
  unfold ADDLINE, in_room. intros H [Hs Hn].
  destruct (_ =? _)%nat; [|injection H as <-; auto].
  apply bind_done in H as (b1 & [E Hlt]%store_line_sizes & H). injection H as <-.
  cbn [bufs nlines]. rewrite E. split; [exact Hs|].
  unfold sizes in Hs. injection Hs as Hw _. lia.
Qed.

Lemma ADDLINES_room (cbo : bool) (b : buffers) (chars : list Z) :
  forall o o', ADDLINES cbo chars o = Done o' -> in_room b o -> in_room b o'.
Proof.
  induction chars as [|c rest IH]; intros o o' H Ho; cbn [ADDLINES] in H.
  - injection H as <-. exact Ho.
  - apply bind_done in H as (o1 & H1 & H). eapply IH; [exact H|].
    eapply ADDLINE_room; eauto.
Qed.

Lemma uncompress_step_room (rec : record_buffer) (cbo : bool) (b : buffers)
  (d d' : decoder) (eop : bool) :
  uncompress_step rec cbo d = Done (d', eop) -> in_room b (out d) -> in_room b (out d').
Proof.
  unfold uncompress_step. intros H Ho.
  apply bind_done in H as (d1 & H1 & H).
  apply bind_done in H as ([code c] & _ & H). injection H as <- _. cbn [out].
  destruct (Code d =? _)%Z.
  - apply bind_done in H1 as ([code1 c1] & _ & H1).
    apply bind_done in H1 as (o1 & Ho1 & H1). injection H1 as <-. cbn [out].
    eapply ADDLINE_room; eauto.
  - destruct (HSIZE <=? FreeCode d)%Z; [discriminate H1|].
    destruct (if (FreeCode d <=? Code d)%Z then _ else _) as [CurCode OutCode].
    apply bind_done in H1 as ([CurCode1 OutCode1] & _ & H1).
    destruct (HSIZE <? _)%Z; [discriminate H1|].
    apply bind_done in H1 as (o1 & Ho1 & H1). injection H1 as <-. cbn [out].
    eapply ADDLINES_room; eauto.
Qed.

Lemma uncompress_loop_room (rec : record_buffer) (cbo : bool) (b : buffers) (count : nat) :
  forall d d', uncompress_loop count rec cbo d = Done d' ->
               in_room b (out d) -> in_room b (out d').
Proof.
  induction count as [|count IH]; intros d d' H Ho; cbn [uncompress_loop] in H.
  - injection H as <-. exact Ho.
  - apply bind_done in H as ([d1 eop] & H1 & H).
    apply uncompress_step_room with (b := b) in H1; [|exact Ho].
    destruct eop; [injection H as <-; exact H1 | eapply IH; eauto].
Qed.

Lemma uncompress_room (len : Z) (g g' : lzw) (b b' : buffers) (n : nat) :
  uncompress len g b = Done (n, g', b') ->
  sizes b' = sizes b /\ (n <= length (wl b))%nat.
Proof.
  unfold uncompress. intros H. apply bind_done in H as (d & Hd & H).
  injection H as <- _ <-.
  apply uncompress_loop_room with (b := b) in Hd; [exact Hd|].
  split; [reflexivity | cbn; lia].
Qed.

(** X16: what [uknext_] returns tells what it did.  The arrays keep their
    lengths in every case.  It returns -1 exactly for a handle that is not
    open and -2 when no record is left, and then nothing has changed; -3
    when the record could not be read, with the arrays and the number of
    the record as before; otherwise a count between 0 and the room of the
    arrays, with the next record as the current one. *)
Theorem uknext_return_codes (fh : Z) (lib lib1 : library) (tmp tmp1 : buffers) (n : Z) :
  uknext_ fh lib tmp = Done (n, lib1, tmp1) ->
  sizes tmp1 = sizes tmp
  /\ ((n = (-1)%Z /\ valid_file fh lib = None /\ lib1 = lib /\ tmp1 = tmp)
      \/ (exists r, valid_file fh lib = Some r
            /\ ((n = (-2)%Z /\ (number_of_records r <= current_record r mod 2 ^ 32)%Z
                 /\ lib1 = lib /\ tmp1 = tmp)
                \/ (exists r',
                      valid_file fh lib1 = Some r'
                      /\ (current_record r mod 2 ^ 32 < number_of_records r)%Z
                      /\ ((n = (-3)%Z /\ tmp1 = tmp
                           /\ current_record r' = current_record r)
                          \/ ((0 <= n <= Z.of_nat (length (wl tmp)))%Z
                              /\ current_record r' = int32 (current_record r + 1))))))).
Proof.
  unfold uknext_. intros H.
  destruct (valid_file fh lib) as [r|] eqn:Hv; [|injection H as <- <- <-; auto 6].
  destruct (Z.leb_spec (number_of_records r) (current_record r mod 2 ^ 32)).
  { injection H as <- <- <-. split; [reflexivity|]. right. exists r. auto 6. }
  apply bind_done in H as (Dk & _ & H).
  apply bind_done in H as ([[ok r'] g] & Hread & H).
  apply fread_record_reader in Hread as (Hn' & Hc' & _ & _).
  destruct (negb ok).
  - injection H as <- <- <-. split; [reflexivity|]. right. exists r.
    split; [reflexivity|]. right. exists r'.
    split; [apply (valid_file_set _ _ _ _ _ Hv)|]. split; [assumption|]. left. auto.
  - apply bind_done in H as ([[nlines g'] b1] & [Hs Hl]%uncompress_room & H).
    injection H as <- <- <-. split; [exact Hs|]. right. exists r.
    split; [reflexivity|]. right. exists (next_record r').
    split; [apply (valid_file_set _ _ _ _ _ Hv)|]. split; [assumption|]. right.
    split; [lia|]. unfold next_record. cbn [current_record]. now rewrite Hc'.
Qed.

(** [uknext_return_codes] on the second record of the sample file. *)
Lemma uknext_return_codes_witness :
  exists lib1 tmp1,
    uknext_ 1 (fst Samples.after_read) (snd Samples.after_read) = Done (2%Z, lib1, tmp1)
    /\ sizes tmp1 = sizes (snd Samples.after_read)
    /\ exists r r', valid_file 1 (fst Samples.after_read) = Some r
                    /\ valid_file 1 lib1 = Some r'
                    /\ current_record r' = int32 (current_record r + 1).
Proof.
  destruct (holds_done (fun y => (fst (fst y) =? 2)%Z)
              (uknext_ 1 (fst Samples.after_read) (snd Samples.after_read)))
    as ([[n lib1] tmp1] & E & Hn); [vm_compute; reflexivity|].
  apply Z.eqb_eq in Hn. cbn [fst] in Hn. subst n.
  destruct (uknext_return_codes 1 _ lib1 _ tmp1 2 E) as [Hs Hcodes].
  exists lib1, tmp1. split; [exact E|]. split; [exact Hs|].
  destruct Hcodes as [(Habs & _) | (r & Hr & [(Habs & _) | (r' & Hr' & _ & Hc)])];
    try discriminate Habs.
  destruct Hc as [(Habs & _) | (_ & Hc)]; [discriminate Habs|].
  exists r, r'. auto.
Defined.

Lemma ukopen_busy (big_endian : bool) (stale : Z) (fs : disk) (f : Z)
  (file_data file_descr : string) (lib : library) (r : reader) :
  open_files lib !! f = Some r ->
  ukopen_ big_endian stale fs f file_data file_descr lib = Done ((-1)%Z, lib).
Proof. intros E. unfold ukopen_. rewrite E, !orb_true_r. reflexivity. Qed.

(** What a call of [ukopen_] that did not return an error code leaves. *)
Lemma ukopen_opened (big_endian : bool) (stale : Z) (fs : disk) (f : Z)
  (file_data file_descr : string) (lib lib1 : library) (n : Z) :
  ukopen_ big_endian stale fs f file_data file_descr lib = Done (n, lib1) ->
  (0 <= n)%Z ->
  valid_file f lib = None
  /\ exists bytes count D,
       open_files lib1 = <[f := mkReader bytes 0 count 0 D]> (open_files lib)
       /\ valid_file f lib1 = Some (mkReader bytes 0 count 0 D)
       /\ n = int32 count /\ (length D <= Z.to_nat count)%nat
       /\ change_byte_order (globals lib1) = big_endian.
Proof.
  unfold ukopen_, valid_file. intros H Hn.
  destruct (open_files lib !! f) as [r|] eqn:Ef;
    [rewrite !orb_true_r in H; injection H as <- _; lia|].
  rewrite orb_false_r in *. destruct (_ || _) eqn:Er; [injection H as <- _; lia|].
  split; [reflexivity|].
  apply bind_done in H as ([name|] & _ & H); [|injection H as <- _; lia].
  destruct (fopen fs name) as [d|]; [|injection H as <- _; lia].
  apply bind_done in H as ([count D] & Hd & H).
  apply bind_done in H as ([name'|] & _ & H); [|injection H as <- _; lia].
  destruct (fopen fs name') as [bytes|]; [|injection H as <- _; lia].
  injection H as <- <-. exists bytes, count, D. cbn [open_files globals change_byte_order].
  split; [reflexivity|]. split; [apply lookup_insert_eq|]. split; [reflexivity|].
  split; [|reflexivity].
  unfold read_descriptor in Hd. destruct (_ && _); [discriminate Hd|].
  injection Hd as <- <-. rewrite length_map, length_seq. lia.
Qed.

(** X17: a call of [ukopen_] that returns no error code leaves the file
    open under its handle, at its first record and with the count of the
    descriptor; until it is closed every other [ukopen_] on that handle
    returns -1 and changes nothing; [ukclose_] then returns 0 and leaves
    the open files as they were before, and a second [ukclose_] returns
    -1. *)
Theorem ukopen_then_ukclose (big_endian : bool) (stale : Z) (fs : disk) (f : Z)
  (file_data file_descr : string) (lib lib1 : library) (n : Z) :
  ukopen_ big_endian stale fs f file_data file_descr lib = Done (n, lib1) ->
  (0 <= n)%Z ->
  (exists r, valid_file f lib1 = Some r
             /\ int32 (number_of_records r) = n /\ current_record r = 0%Z
             /\ position r = 0%nat
             /\ (length (records r) <= Z.to_nat (number_of_records r))%nat)
  /\ (forall big_endian' stale' fs' file_data' file_descr',
        ukopen_ big_endian' stale' fs' f file_data' file_descr' lib1
        = Done ((-1)%Z, lib1))
  /\ fst (ukclose_ f lib1) = 0%Z
  /\ open_files (snd (ukclose_ f lib1)) = open_files lib
  /\ ukclose_ f (snd (ukclose_ f lib1)) = ((-1)%Z, snd (ukclose_ f lib1)).
Proof.
  intros H Hn.
  destruct (ukopen_opened _ _ _ _ _ _ _ _ _ H Hn)
    as (Hfree & bytes & count & D & Hfiles & Hv & -> & HD & _).
  split; [eexists; split; [exact Hv|]; cbn; auto|].
  split.
  - intros. apply (ukopen_busy _ _ _ _ _ _ _ (mkReader bytes 0 count 0 D)).
    rewrite Hfiles. apply lookup_insert_eq.
  - unfold ukclose_. rewrite Hv. cbn [fst snd open_files].
    split; [reflexivity|].
    unfold valid_file in *. cbn [open_files].
    destruct (_ || _) eqn:Er; [discriminate Hv|].
    rewrite Hfiles, delete_insert_eq, lookup_delete_eq.
    split; [|reflexivity]. apply delete_id. exact Hfree.
Qed.

(** [ukopen_then_ukclose] on the two files of the sample. *)
Lemma ukopen_then_ukclose_witness :
  exists lib1,
    ukopen_ false 0 Samples.on_disk 1 "lines.cvald " "lines.dsc " Samples.nothing_open = Done (2%Z, lib1)
    /\ ukopen_ true 7 Samples.on_disk 1 "other " "lines.dsc " lib1 = Done ((-1)%Z, lib1)
    /\ fst (ukclose_ 1 lib1) = 0%Z
    /\ open_files (snd (ukclose_ 1 lib1)) = ∅.
Proof.
  destruct (holds_done (fun y => (fst y =? 2)%Z)
              (ukopen_ false 0 Samples.on_disk 1 "lines.cvald " "lines.dsc " Samples.nothing_open))
    as ([n lib1] & E & Hn); [vm_compute; reflexivity|].
  apply Z.eqb_eq in Hn. cbn [fst] in Hn. subst n.
  destruct (ukopen_then_ukclose false 0 Samples.on_disk 1 "lines.cvald " "lines.dsc "
              Samples.nothing_open lib1 2 E ltac:(lia)) as (_ & Hbusy & Hclose & Hfiles & _).
  exists lib1. split; [exact E|]. split; [apply Hbusy|]. split; [exact Hclose | exact Hfiles].
Defined.

Lemma host_word_swap (bs : list Z) : host_word true (ByteSwap bs) = host_word false bs.
Proof. unfold host_word, ByteSwap. now rewrite rev_involutive. Qed.

Lemma cast_double_swap (bs : list Z) : cast_double true (ByteSwap bs) = cast_double false bs.
Proof. unfold cast_double. now rewrite host_word_swap. Qed.

Lemma cast_float_swap (bs : list Z) : cast_float true (ByteSwap bs) = cast_float false bs.
Proof. unfold cast_float. now rewrite host_word_swap. Qed.

Lemma cast_int_swap (bs : list Z) : cast_int true (ByteSwap bs) = cast_int false bs.
Proof. unfold cast_int. now rewrite host_word_swap. Qed.

(** X18: the twelve numbers that [ADDLINE] stores for a line are those of a
    little-endian host on a big-endian host too: when the line can be stored
    without the exchange of the bytes it can be stored with it, and the
    arrays agree but for the bytes 177 to 182 of the text block of that
    line, which a big-endian host exchanges when byte 236 of the line is
    below 48. *)
Theorem numbers_do_not_depend_on_host (line : list Z) (n : nat) (b b1 : buffers) :
  store_line false line n b = Done b1 ->
  exists b2,
    store_line true line n b = Done b2
    /\ wl b2 = wl b1 /\ element b2 = element b1
    /\ j_low b2 = j_low b1 /\ e_low b2 = e_low b1
    /\ j_high b2 = j_high b1 /\ e_high b2 = e_high b1
    /\ loggf b2 = loggf b1 /\ gamrad b2 = gamrad b1 /\ gamst b2 = gamst b1
    /\ gamvw b2 = gamvw b1 /\ lande_low b2 = lande_low b1
    /\ lande_high b2 = lande_high b1
    /\ (forall k, ~ exchanged n k -> str b2 !! k = str b1 !! k)
    /\ ((48 <= schar (default 0%Z (line !! 236%nat)))%Z -> str b2 = str b1).
Proof.
  unfold store_line. cbv beta zeta iota.
  rewrite !cast_double_swap, !cast_float_swap, !cast_int_swap. intros H.
  do 13 (apply bind_done in H as (? & -> & H)). cbn [bind].
  injection H as <-. eexists. split; [reflexivity|].
  cbn [wl element j_low e_low j_high e_high loggf gamrad gamst gamvw lande_low
         lande_high str andb].
  do 12 (split; [reflexivity|]). split.
  - intros k Hk. unfold exchanged in Hk.
    destruct (_ <? 48)%Z; [|reflexivity].
    rewrite !list_lookup_insert_ne by lia. reflexivity.
  - intros Hb. destruct (Z.ltb_spec (schar (default 0%Z (line !! 236%nat))) 48);
      [lia | reflexivity].
Qed.

(** [numbers_do_not_depend_on_host] on a transition of the sample. *)
Lemma numbers_do_not_depend_on_host_witness :
  exists b1 b2,
    store_line false (Samples.transition 0x40b3560000000000 2601 66) 1 (Samples.room 4)
    = Done b1
    /\ store_line true (Samples.transition 0x40b3560000000000 2601 66) 1 (Samples.room 4)
       = Done b2
    /\ wl b2 = wl b1 /\ element b2 = element b1 /\ str b2 = str b1.
Proof.
  destruct (holds_done (fun b => bool_decide (element b !! 1%nat = Some 2601%Z))
              (store_line false (Samples.transition 0x40b3560000000000 2601 66) 1
                 (Samples.room 4)))
    as (b1 & E & _); [vm_compute; reflexivity|].
  destruct (numbers_do_not_depend_on_host _ _ _ _ E)
    as (b2 & E2 & Hwl & Hel & _ & _ & _ & _ & _ & _ & _ & _ & _ & _ & _ & Hstr).
  exists b1, b2. split; [exact E|]. split; [exact E2|]. split; [exact Hwl|].
  split; [exact Hel|]. apply Hstr. vm_compute. discriminate.
Defined.

Lemma read_RECORD_host (bs : list Z) : read_RECORD true bs = read_RECORD false bs.
Proof.
  unfold read_RECORD. cbv beta zeta iota.
  now rewrite !cast_double_swap, cast_int_swap, host_word_swap.
Qed.

Lemma read_descriptor_host (stale : Z) (d : list Z) :
  d <> [] -> read_descriptor true stale d = read_descriptor false stale d.
Proof.
  intros Hd. unfold read_descriptor.
  assert (Hpos : (0 <? length d)%nat = true)
    by (destruct d; [congruence | reflexivity]).
  rewrite Hpos. cbn [andb].
  destruct (Nat.ltb_spec (length d) 4) as [Hlt|Hge]; [reflexivity|].
  destruct (Nat.leb_spec 4 (length d)); [|lia].
  cbv beta zeta iota. rewrite host_word_swap. f_equal. f_equal.
  apply map_ext. intros k. apply read_RECORD_host.
Qed.

(** X19: the descriptor is read as little-endian data on every host: when
    the descriptor file is not empty, [ukopen_] on a big-endian host returns
    what it returns on a little-endian host and leaves the same files open,
    with the same count and the same records. *)
Theorem directory_does_not_depend_on_host (stale : Z) (fs : disk) (f : Z)
  (file_data file_descr : string) (lib lib1 : library) (n : Z) :
  (forall name d, cut_name file_descr = Done (Some name) -> fopen fs name = Some d -> d <> []) ->
  ukopen_ false stale fs f file_data file_descr lib = Done (n, lib1) ->
  exists lib2,
    ukopen_ true stale fs f file_data file_descr lib = Done (n, lib2)
    /\ open_files lib2 = open_files lib1.
Proof.
  intros Hfs. unfold ukopen_.
  destruct (_ || _); [intros H; injection H as <- <-; eauto|].
  destruct (cut_name file_descr) as [[name|]| |]; cbn [bind]; try discriminate;
    [|intros H; injection H as <- <-; eauto].
  specialize (Hfs name). destruct (fopen fs name) as [d|];
    [|intros H; injection H as <- <-; eauto].
  rewrite (read_descriptor_host stale d (Hfs d eq_refl eq_refl)).
  destruct (read_descriptor false stale d) as [[count D]| |]; cbn [bind]; try discriminate.
  destruct (cut_name file_data) as [[name'|]| |]; cbn [bind]; try discriminate;
    [|intros H; injection H as <- <-; eauto].
  destruct (fopen fs name') as [bytes|]; intros H; injection H as <- <-; eauto.
Qed.

(** [directory_does_not_depend_on_host] on the two files of the sample. *)
Lemma directory_does_not_depend_on_host_witness :
  exists lib1 lib2,
    ukopen_ false 0 Samples.on_disk 1 "lines.cvald " "lines.dsc " Samples.nothing_open = Done (2%Z, lib1)
    /\ ukopen_ true 0 Samples.on_disk 1 "lines.cvald " "lines.dsc " Samples.nothing_open = Done (2%Z, lib2)
    /\ open_files lib2 = open_files lib1.
Proof.
  destruct (holds_done (fun y => (fst y =? 2)%Z)
              (ukopen_ false 0 Samples.on_disk 1 "lines.cvald " "lines.dsc " Samples.nothing_open))
    as ([n lib1] & E & Hn); [vm_compute; reflexivity|].
  apply Z.eqb_eq in Hn. cbn [fst] in Hn. subst n.
  destruct (directory_does_not_depend_on_host 0 Samples.on_disk 1 "lines.cvald " "lines.dsc "
              Samples.nothing_open lib1 2) as (lib2 & E2 & Hsame).
  - intros name d Hname Hd. injection Hname as <-.
    vm_compute in Hd. injection Hd as <-. discriminate.
  - exact E.
  - exists lib1, lib2. auto.
Defined.

Section Bits.
Local Open Scope Z_scope.

Lemma byte_at_range (record : record_buffer) (i : Z) :
  of_bytes record -> 0 <= byte_at record i < 256.
Proof.
  intros Hb. unfold byte_at. destruct (record !! i) as [v|] eqn:E; cbn; [eauto | lia].
Qed.

Lemma record_byte_done (record : record_buffer) (i b : Z) :
  record_byte record i = Done b -> b = byte_at record i.
Proof.
  unfold record_byte. destruct (_ && _); [|discriminate]. intros H. now injection H as <-.
Qed.

Lemma land_255 (b : Z) : 0 <= b < 256 -> Z.land b 255 = b.
Proof.
  intros Hb. change 255 with (Z.ones 8). rewrite Z.land_ones by lia.
  apply Z.mod_small. lia.
Qed.

Lemma land_mask (x cs : Z) : 0 <= cs -> Z.land x (2 ^ cs - 1) = x mod 2 ^ cs.
Proof.
  intros Hc. replace (2 ^ cs - 1) with (Z.ones cs) by (rewrite Z.ones_equiv; lia).
  now apply Z.land_ones.
Qed.

Lemma drop_high (a b bo cs : Z) :
  0 <= bo -> 0 <= cs -> bo + cs <= 16 ->
  ((a + 65536 * b) / 2 ^ bo) mod 2 ^ cs = (a / 2 ^ bo) mod 2 ^ cs.
Proof.
  intros Hbo Hcs Hle.
  replace (a + 65536 * b) with (a + (b * 2 ^ (16 - bo - cs) * 2 ^ cs) * 2 ^ bo).
  - rewrite Z.div_add by (apply Z.pow_nonzero; lia).
    apply Z.mod_add. apply Z.pow_nonzero; lia.
  - assert (E : 65536 = 2 ^ (16 - bo - cs) * 2 ^ cs * 2 ^ bo).
    { rewrite <- !Z.pow_add_r by lia.
      replace (16 - bo - cs + cs + bo) with 16 by lia. reflexivity. }
    rewrite E. ring.
Qed.

Lemma ReadCode_bits (record : record_buffer) (cs : Z) (c c' : cursor) (code : Z) :
  of_bytes record -> 0 <= byte1 c < 256 ->
  9 <= cs <= 16 -> 0 <= BitOffset c < 8 ->
  ReadCode record cs (2 ^ cs - 1) c = Done (code, c') ->
  code = (window record c / 2 ^ BitOffset c) mod 2 ^ cs
  /\ 8 * current_byte_in_record c' + BitOffset c'
     = 8 * current_byte_in_record c + BitOffset c + cs
  /\ 0 <= BitOffset c' < 8
  /\ byte1 c' = byte_at record (current_byte_in_record c' - 1).
Proof.
  intros Hb H1 Hcs Hbo. unfold ReadCode.
  destruct (Z.ltb_spec (BitOffset c) 0) as [?|_]; [lia|]. cbn [bind].
  destruct (Z.leb_spec 8 (cs + BitOffset c)) as [_|?]; [|lia].
  intros H. apply bind_done in H as ([raw c1] & H2 & H).
  apply bind_done in H2 as (b2 & ->%record_byte_done & H2). injection H2 as <- <-.
  cbn [current_byte_in_record BitOffset byte1] in H.
  pose proof (byte_at_range record (current_byte_in_record c) Hb) as R2.
  pose proof (byte_at_range record (current_byte_in_record c + 1) Hb) as R3.
  rewrite (land_255 _ H1), (land_255 _ R2), Z.shiftl_mul_pow2 in H by lia.
  unfold window.
  destruct (Z.leb_spec 16 (cs + BitOffset c)) as [H16|H16].
  - apply bind_done in H as ([raw c2] & H3 & H).
    apply bind_done in H3 as (b3 & ->%record_byte_done & H3). injection H3 as <- <-.
    cbn [current_byte_in_record BitOffset byte1] in H.
    destruct (Z.leb_spec 24 (cs + BitOffset c)) as [?|_]; [lia|]. cbn [bind] in H.
    injection H as <- <-. cbn [current_byte_in_record BitOffset byte1].
    rewrite (land_255 _ R3), Z.shiftl_mul_pow2, Z.shiftr_div_pow2, land_mask by lia.
    unfold uint16.
    assert (Hm : (cs + BitOffset c = 16 + (BitOffset c + cs) mod 8)).
    { replace (BitOffset c + cs) with ((cs + BitOffset c - 16) + 2 * 8) by lia.
      rewrite Z.mod_add by lia. rewrite Z.mod_small; lia. }
    split; [|split; [lia|split]].
    + rewrite Z.mod_small; [f_equal; f_equal; lia|].
      split; [apply Z.mod_pos_bound; lia|].
      eapply Z.lt_le_trans; [apply Z.mod_pos_bound; lia|].
      change 65536 with (2 ^ 16). apply Z.pow_le_mono_r; lia.
    + apply Z.mod_pos_bound. lia.
    + f_equal. lia.
  - cbn [bind current_byte_in_record BitOffset byte1] in H. destruct (Z.leb_spec 24 (cs + BitOffset c)) as [?|_]; [lia|]. cbn [bind] in H.
    injection H as <- <-. cbn [current_byte_in_record BitOffset byte1].
    rewrite Z.shiftr_div_pow2, land_mask by lia. unfold uint16.
    assert (Hm : (cs + BitOffset c = 8 + (BitOffset c + cs) mod 8)).
    { replace (BitOffset c + cs) with ((cs + BitOffset c - 8) + 1 * 8) by lia.
      rewrite Z.mod_add by lia. rewrite Z.mod_small; lia. }
    split; [|split; [lia|split]].
    + rewrite drop_high by lia.
      rewrite Z.mod_small; [f_equal; f_equal; lia|].
      split; [apply Z.mod_pos_bound; lia|].
      eapply Z.lt_le_trans; [apply Z.mod_pos_bound; lia|].
      change 65536 with (2 ^ 16). apply Z.pow_le_mono_r; lia.
    + apply Z.mod_pos_bound. lia.
    + f_equal. lia.
Qed.

Lemma record_byte_in (record : record_buffer) (i : Z) :
  0 <= i < RECORD_LENGTH -> record_byte record i = Done (byte_at record i).
Proof.
  intros Hi. unfold record_byte, byte_at.
  destruct (Z.leb_spec 0 i); [|lia]. destruct (Z.ltb_spec i RECORD_LENGTH); [|lia].
  reflexivity.
Qed.

Lemma ReadCode_returns (record : record_buffer) (cs mask : Z) (c : cursor) :
  9 <= cs <= 16 -> 0 <= BitOffset c < 8 ->
  0 <= current_byte_in_record c ->
  current_byte_in_record c + (BitOffset c + cs) / 8 <= RECORD_LENGTH ->
  exists r, ReadCode record cs mask c = Done r.
Proof.
  intros Hcs Hbo H0 Hend. unfold ReadCode.
  destruct (Z.ltb_spec (BitOffset c) 0) as [?|_]; [lia|]. cbn [bind].
  destruct (Z.leb_spec 8 (cs + BitOffset c)) as [_|?]; [|lia].
  assert (1 <= (BitOffset c + cs) / 8) by (apply Z.div_le_lower_bound; lia).
  rewrite record_byte_in by lia. cbn [bind current_byte_in_record BitOffset byte1].
  destruct (Z.leb_spec 16 (cs + BitOffset c)) as [H16|H16].
  - assert (2 <= (BitOffset c + cs) / 8) by (apply Z.div_le_lower_bound; lia).
    rewrite record_byte_in by lia. cbn [bind current_byte_in_record BitOffset byte1].
    destruct (Z.leb_spec 24 (cs + BitOffset c)) as [?|_]; [lia|]. cbn [bind]. eauto.
  - cbn [bind current_byte_in_record BitOffset byte1].
    destruct (Z.leb_spec 24 (cs + BitOffset c)) as [?|_]; [lia|]. cbn [bind]. eauto.
Qed.

Lemma load_bytes (bs : list Z) :
  forall i record, Forall (fun v => 0 <= v < 256) bs -> of_bytes record ->
                   of_bytes (load bs i record).
Proof.
  induction bs as [|b rest IH]; intros i record Hbs Hrec; cbn [load]; [exact Hrec|].
  apply Forall_cons in Hbs as [Hb Hrest]. apply IH; [exact Hrest|].
  intros j v E. apply lookup_insert_Some in E as [[_ <-]|[_ E]];
    [exact Hb | exact (Hrec j v E)].
Qed.

(** X25: [ReadCode] reads the record as a stream of bits, the least
    significant bit of each byte first.  With a code width of 9 to 16 bits
    and the mask of that width, and the bytes it needs inside [record], it
    returns the [CodeSize] bits at the cursor, and leaves the cursor
    [CodeSize] bits further on, with [byte1] the byte the cursor is in. *)
Theorem ReadCode_reads_bits (record : record_buffer) (cs : Z) (c : cursor) :
  of_bytes record -> 0 <= byte1 c < 256 ->
  9 <= cs <= 16 -> 0 <= BitOffset c < 8 ->
  0 <= current_byte_in_record c ->
  current_byte_in_record c + (BitOffset c + cs) / 8 <= RECORD_LENGTH ->
  exists code c',
    ReadCode record cs (2 ^ cs - 1) c = Done (code, c')
    /\ code = (window record c / 2 ^ BitOffset c) mod 2 ^ cs
    /\ 8 * current_byte_in_record c' + BitOffset c'
       = 8 * current_byte_in_record c + BitOffset c + cs
    /\ 0 <= BitOffset c' < 8
    /\ byte1 c' = byte_at record (current_byte_in_record c' - 1).
Proof.
  intros Hb H1 Hcs Hbo H0 Hend.
  destruct (ReadCode_returns record cs (2 ^ cs - 1) c Hcs Hbo H0 Hend) as ([code c'] & E).
  exists code, c'. split; [exact E|]. now apply (ReadCode_bits record cs c c' code).
Qed.

(** [ReadCode_reads_bits] on a code that starts at the fourth bit of a byte. *)
Lemma ReadCode_reads_bits_witness :
  exists code c',
    ReadCode (load [0xB5; 0x6C; 0x03] 0 ∅) 9 (2 ^ 9 - 1) (mkCursor 1 3 0xB5) = Done (code, c')
    /\ code = (window (load [0xB5; 0x6C; 0x03] 0 ∅) (mkCursor 1 3 0xB5) / 2 ^ 3) mod 2 ^ 9
    /\ 8 * current_byte_in_record c' + BitOffset c' = 8 * 1 + 3 + 9
    /\ 0 <= BitOffset c' < 8
    /\ byte1 c' = byte_at (load [0xB5; 0x6C; 0x03] 0 ∅) (current_byte_in_record c' - 1).
Proof.
  apply (ReadCode_reads_bits (load [0xB5; 0x6C; 0x03] 0 ∅) 9 (mkCursor 1 3 0xB5)).
  - apply load_bytes; [|intros i v E; apply lookup_empty_Some in E; destruct E].
    repeat (apply Forall_cons; split; [lia|]). apply Forall_nil_2.
  - cbn [byte1]. lia.
  - lia.
  - cbn [BitOffset]. lia.
  - cbn [current_byte_in_record]. lia.
  - vm_compute. discriminate.
Defined.

End Bits.

Lemma ADDLINES_app (cbo : bool) (a b : list Z) :
  forall o, ADDLINES cbo (a ++ b) o = (do o <- ADDLINES cbo a o; ADDLINES cbo b o).
Proof.
  induction a as [|c a IH]; intros o; cbn [ADDLINES app bind]; [reflexivity|].
  destruct (ADDLINE cbo c o) as [o1| |]; cbn [bind]; [apply IH | reflexivity | reflexivity].
Qed.

Lemma ADDLINES_pending (cbo : bool) (chars : list Z) :
  forall o, (length (line o) + length chars < LINE_LENGTH)%nat ->
    ADDLINES cbo chars o
    = Done (mkOutput (line o ++ as_chars chars) (nlines o) (bufs o)).
Proof.
  unfold LINE_LENGTH.
  induction chars as [|c rest IH]; intros o Hlen; cbn [ADDLINES as_chars map].
  - rewrite app_nil_r. now destruct o.
  - cbn [length] in Hlen. unfold ADDLINE.
    rewrite length_app. cbn [length]. unfold LINE_LENGTH.
    rewrite Nat.mod_small by lia.
    destruct (Nat.eqb_spec (length (line o) + 1) 0); [lia|]. cbn [bind].
    rewrite IH by (cbn [line]; rewrite length_app; cbn [length]; lia).
    cbn [line nlines bufs]. now rewrite <- app_assoc.
Qed.

Lemma ADDLINES_whole (cbo : bool) (chars : list Z) (o : output) :
  (length (line o) + length chars = LINE_LENGTH)%nat -> chars <> [] ->
  ADDLINES cbo chars o
  = (do b <- store_line cbo (line o ++ as_chars chars) (nlines o) (bufs o);
     Done (mkOutput [] (S (nlines o)) b)).
Proof.
  intros Hlen Hne. destruct (exists_last Hne) as (init & c & ->).
  rewrite length_app in Hlen. cbn [length] in Hlen. unfold LINE_LENGTH in Hlen.
  rewrite ADDLINES_app, ADDLINES_pending by (unfold LINE_LENGTH; lia).
  cbn [bind ADDLINES]. unfold ADDLINE. cbn [line nlines bufs].
  rewrite !length_app. unfold as_chars. rewrite length_map. cbn [length].
  replace (length (line o) + length init + 1)%nat with LINE_LENGTH by (unfold LINE_LENGTH; lia).
  rewrite map_app, <- app_assoc. cbn [map]. cbn [Nat.modulo Nat.eqb LINE_LENGTH Nat.divmod fst snd].
  change (270 mod 270 =? 0)%nat with true. cbv iota.
  destruct (store_line _ _ _ _); reflexivity.
Qed.

Lemma ADDLINES_lines (cbo : bool) (n : nat) :
  forall chars o, (length chars <= n)%nat -> (length (line o) < LINE_LENGTH)%nat ->
    ADDLINES cbo chars o
    = (let all := (line o ++ as_chars chars)%list in
       let q := (length all / LINE_LENGTH)%nat in
       do b <- store_lines cbo q all (nlines o) (bufs o);
       Done (mkOutput (drop (LINE_LENGTH * q) all) (nlines o + q) b)).
Proof.
  induction n as [n IH] using lt_wf_ind. intros chars o Hn Hline. cbv zeta.
  assert (Hall : length (line o ++ as_chars chars)%list = (length (line o) + length chars)%nat).
  { unfold as_chars. now rewrite length_app, length_map. }
  destruct (Nat.lt_ge_cases (length (line o) + length chars) LINE_LENGTH) as [Hlt|Hge].
  - rewrite ADDLINES_pending by exact Hlt.
    rewrite Hall, Nat.div_small by exact Hlt.
    cbn [store_lines bind]. now rewrite Nat.mul_0_r, Nat.add_0_r.
  - set (k := (LINE_LENGTH - length (line o))%nat).
    assert (Hk : (0 < k <= length chars)%nat) by (unfold k; lia).
    rewrite <- (take_drop k chars) at 1.
    assert (Htk : length (take k chars) = k) by (rewrite length_take; lia).
    rewrite ADDLINES_app, ADDLINES_whole;
      [|rewrite Htk; unfold k; lia | intros E; rewrite E in Htk; cbn [length] in Htk; lia].
    assert (Hsplit : (line o ++ as_chars chars)%list
                     = ((line o ++ as_chars (take k chars)) ++ as_chars (drop k chars))%list).
    { rewrite <- app_assoc. unfold as_chars. now rewrite <- map_app, take_drop. }
    assert (Hfirst : length (line o ++ as_chars (take k chars))%list = LINE_LENGTH).
    { unfold as_chars. rewrite length_app, length_map, Htk. unfold k. lia. }
    assert (Hq : (length (line o ++ as_chars chars)%list / LINE_LENGTH
                  = S (length (as_chars (drop k chars)) / LINE_LENGTH))%nat).
    { rewrite Hsplit, length_app, Hfirst.
      replace (LINE_LENGTH + length (as_chars (drop k chars)))%nat
        with (length (as_chars (drop k chars)) + 1 * LINE_LENGTH)%nat by lia.
      rewrite Nat.div_add by (unfold LINE_LENGTH; lia). lia. }
    rewrite Hq. cbn [store_lines].
    assert (Ht : take LINE_LENGTH (line o ++ as_chars chars)%list
                 = (line o ++ as_chars (take k chars))%list).
    { rewrite Hsplit, <- Hfirst. apply take_app_length. }
    assert (Hd : drop LINE_LENGTH (line o ++ as_chars chars)%list = as_chars (drop k chars)).
    { rewrite Hsplit, <- Hfirst. apply drop_app_length. }
    rewrite Ht, Hd.
    destruct (store_line cbo (line o ++ as_chars (take k chars)) (nlines o) (bufs o))
      as [b1| |]; cbn [bind]; [|reflexivity|reflexivity].
    rewrite (IH (length (drop k chars)));
      [|rewrite length_drop; lia | reflexivity | cbn [line length]; unfold LINE_LENGTH; lia].
    cbn [line nlines bufs app]. cbv zeta.
    destruct (store_lines _ _ _ _ _) as [b2| |]; cbn [bind]; [|reflexivity|reflexivity].
    f_equal. f_equal; [|lia].
    rewrite Nat.mul_succ_r, Nat.add_comm, <- drop_drop, Hd. reflexivity.
Qed.

(** X26: [ADDLINE], byte after byte, cuts the decoded bytes into lines of
    [LINE_LENGTH] bytes.  The bytes left in [line] and the new ones, in
    that order, give one stored line for every full [LINE_LENGTH] bytes, at
    consecutive indices from [nlines] on, and the bytes behind the last full
    line stay in [line]. *)
Theorem ADDLINE_cuts_lines (cbo : bool) (chars : list Z) (o : output) :
  (length (line o) < LINE_LENGTH)%nat ->
  ADDLINES cbo chars o
  = (let all := (line o ++ as_chars chars)%list in
     let q := (length all / LINE_LENGTH)%nat in
     do b <- store_lines cbo q all (nlines o) (bufs o);
     Done (mkOutput (drop (LINE_LENGTH * q) all) (nlines o + q) b)).
Proof.
  intros H. now apply (ADDLINES_lines cbo (length chars)).
Qed.

(** [ADDLINE_cuts_lines] on two transitions of the sample and three bytes more. *)
Lemma ADDLINE_cuts_lines_witness :
  ADDLINES false
    (Samples.transition 0x40b0040000000000 2600 65
     ++ Samples.transition 0x40b3560000000000 2601 66 ++ [7; 8; 9]%Z)
    (mkOutput [] 0 (Samples.room 2))
  = (do b <- store_lines false 2
               (as_chars (Samples.transition 0x40b0040000000000 2600 65
                          ++ Samples.transition 0x40b3560000000000 2601 66 ++ [7; 8; 9]%Z))
               0 (Samples.room 2);
     Done (mkOutput [7; 8; 9]%Z 2 b)).
Proof.
  rewrite (ADDLINE_cuts_lines false _ (mkOutput [] 0 (Samples.room 2)))
    by (cbn [line length]; unfold LINE_LENGTH; lia).
  reflexivity.
Defined.

Lemma ReadCode_range (rec : record_buffer) (cs : Z) (c c' : cursor) (code : Z) :
  (0 <= cs <= 16)%Z ->
  ReadCode rec cs (2 ^ cs - 1) c = Done (code, c') ->
  (0 <= code < 2 ^ cs)%Z /\ (0 <= BitOffset c' < 8)%Z.
Proof.
  intros Hcs. unfold ReadCode. intros H.
  apply bind_done in H as (c1 & _ & H).
  apply bind_done in H as ([raw2 c2] & _ & H).
  apply bind_done in H as ([raw3 c3] & _ & H).
  apply bind_done in H as ([raw4 c4] & _ & H).
  injection H as <- <-. cbn [BitOffset].
  rewrite land_mask by lia. unfold uint16.
  assert (Hp : (0 < 2 ^ cs <= 2 ^ 16)%Z).
  { split; [apply Z.pow_pos_nonneg; lia | apply Z.pow_le_mono_r; lia]. }
  pose proof (Z.mod_pos_bound (Z.shiftr raw4 (BitOffset c4)) (2 ^ cs) ltac:(lia)).
  rewrite Z.mod_small by lia.
  split; [assumption | apply Z.mod_pos_bound; lia].
Qed.

Lemma ADDLINE_short (cbo : bool) (c : Z) (o o' : output) :
  ADDLINE cbo c o = Done o' -> (length (line o) < LINE_LENGTH)%nat ->
  (length (line o') < LINE_LENGTH)%nat.
Proof.
  unfold ADDLINE. intros H Hlen.
  destruct (Nat.eqb_spec (length (line o ++ [(c mod 256)%Z]) mod LINE_LENGTH) 0) as [E|E].
  - apply bind_done in H as (b & _ & H). injection H as <-. cbn [line length].
    unfold LINE_LENGTH. lia.
  - injection H as <-. cbn [line]. rewrite length_app in *. cbn [length] in *.
    destruct (Nat.eq_dec (length (line o) + 1) LINE_LENGTH) as [E'|E']; [|lia].
    rewrite E', Nat.Div0.mod_same in E. congruence.
Qed.

Lemma ADDLINES_short (cbo : bool) (chars : list Z) :
  forall o o', ADDLINES cbo chars o = Done o' -> (length (line o) < LINE_LENGTH)%nat ->
               (length (line o') < LINE_LENGTH)%nat.
Proof.
  induction chars as [|c rest IH]; intros o o' H Ho; cbn [ADDLINES] in H.
  - injection H as <-. exact Ho.
  - apply bind_done in H as (o1 & H1 & H). eapply IH; [exact H|].
    eapply ADDLINE_short; eauto.
Qed.

Lemma uncompress_step_in_step (rec : record_buffer) (cbo : bool) (d d' : decoder)
  (eop : bool) :
  uncompress_step rec cbo d = Done (d', eop) ->
  (9 <= CodeSize d <= MAX_CODE_SIZE)%Z /\ MaxCode d = (2 ^ CodeSize d)%Z
  /\ ReadMask d = (MaxCode d - 1)%Z /\ (258 <= FreeCode d <= MaxCode d)%Z
  /\ (length (line (out d)) < LINE_LENGTH)%nat ->
  in_step d'.
Proof.
  unfold uncompress_step, MAX_CODE_SIZE. intros H (Hcs & Hmax & Hmask & Hfree & Hline).
  apply bind_done in H as (d1 & H1 & H).
  assert (Hd1 : (9 <= CodeSize d1 <= 16)%Z /\ MaxCode d1 = (2 ^ CodeSize d1)%Z
                /\ ReadMask d1 = (MaxCode d1 - 1)%Z /\ (258 <= FreeCode d1 <= MaxCode d1)%Z
                /\ (length (line (out d1)) < LINE_LENGTH)%nat).
  { clear H. destruct (Code d =? _)%Z.
    - apply bind_done in H1 as ([code1 c1] & _ & H1).
      apply bind_done in H1 as (o1 & Ho1 & H1). injection H1 as <-.
      cbn [CodeSize MaxCode ReadMask FreeCode out].
      change (Z.shiftl 1 9) with 512%Z. change (Z.shiftl 1 8 + 2)%Z with 258%Z.
      change (2 ^ 9)%Z with 512%Z.
      repeat split; try reflexivity; try lia.
      eapply ADDLINE_short; eauto.
    - destruct (Z.leb_spec HSIZE (FreeCode d)) as [|Hh]; [discriminate H1|].
      destruct (if (FreeCode d <=? Code d)%Z then _ else _) as [CurCode OutCode].
      apply bind_done in H1 as ([CurCode1 OutCode1] & _ & H1).
      destruct (HSIZE <? _)%Z; [discriminate H1|].
      apply bind_done in H1 as (o1 & Ho1 & H1). injection H1 as <-.
      cbn [CodeSize MaxCode ReadMask FreeCode out].
      assert (Hs : length (line o1) < LINE_LENGTH) by (eapply ADDLINES_short; eauto).
      change HSIZE with (2 ^ 16)%Z in Hh. unfold MAX_CODE_SIZE.
      destruct (Z.leb_spec (MaxCode d) (FreeCode d + 1));
        destruct (Z.ltb_spec (CodeSize d) 16); cbn [andb].
      + rewrite Z.shiftl_1_l, Hmax, Z.pow_add_r by lia.
        change (2 ^ 1)%Z with 2%Z.
        assert (0 < 2 ^ CodeSize d)%Z by (apply Z.pow_pos_nonneg; lia).
        repeat split; try assumption; lia.
      + assert (CodeSize d = 16%Z) by lia.
        assert (MaxCode d = 2 ^ 16)%Z by congruence.
        repeat split; try assumption; lia.
      + repeat split; try assumption; lia.
      + repeat split; try assumption; lia. }
  destruct Hd1 as (Hcs1 & Hmax1 & Hmask1 & Hfree1 & Hline1).
  apply bind_done in H as ([code c] & Hread & H). injection H as <- _.
  rewrite Hmask1, Hmax1 in Hread. apply ReadCode_range in Hread as [Hcode Hbit]; [|lia].
  unfold in_step. cbn [CodeSize MaxCode ReadMask FreeCode Code cur out BitOffset].
  unfold MAX_CODE_SIZE. rewrite Hmax1 at 3. repeat split; try assumption; lia.
Qed.

(** X27: the loop of [uncompress] keeps the widths of the decoder in step.
    From a decoder whose widths fit together, as they do at the start, the
    code width stays between 9 and [MAX_CODE_SIZE] bits with [MaxCode] and
    [ReadMask] of that width, the next free code stays between 258 and
    [MaxCode], every code read has the width, and [line] never fills
    up. *)
Theorem uncompress_loop_widths (rec : record_buffer) (cbo : bool) (count : nat) :
  forall d d', uncompress_loop count rec cbo d = Done d' -> in_step d -> in_step d'.
Proof.
  induction count as [|count IH]; intros d d' H Hd; cbn [uncompress_loop] in H.
  - injection H as <-. exact Hd.
  - apply bind_done in H as ([d1 eop] & H1 & H).
    apply uncompress_step_in_step in H1; [|unfold in_step in Hd; tauto].
    destruct eop; [injection H as <-; exact H1 | eapply IH; eauto].
Qed.

(** [uncompress_loop_widths] on a record of the sample, from the start of
    [uncompress]. *)
Lemma uncompress_loop_widths_witness :
  exists d',
    uncompress_loop 611 (load Samples.uniform_record 0 ∅) false
      (mkDecoder 256 9 512 511 258 0 0 (mkCursor 0 (-1) 0) ∅ ∅
         (mkOutput [] 0 (Samples.room 2)))
    = Done d'
    /\ in_step d'.
Proof.
  destruct (holds_done (fun d => (nlines (out d) =? 2)%nat)
              (uncompress_loop 611 (load Samples.uniform_record 0 ∅) false
                 (mkDecoder 256 9 512 511 258 0 0 (mkCursor 0 (-1) 0) ∅ ∅
                    (mkOutput [] 0 (Samples.room 2)))))
    as (d' & E & _); [vm_compute; reflexivity|].
  exists d'. split; [exact E|].
  apply (uncompress_loop_widths _ _ _ _ _ E).
  unfold in_step, MAX_CODE_SIZE, LINE_LENGTH.
  cbn [CodeSize MaxCode ReadMask FreeCode Code cur out BitOffset line length].
  change (2 ^ 9)%Z with 512%Z. repeat split; lia.
Defined.

Lemma chain_fuel (Pre Suf : table) (mask : Z) (f1 : nat) :
  forall f2 cur OutCode,
    (Z.to_nat HSIZE + 2 <= f1 + length OutCode)%nat ->
    (Z.to_nat HSIZE + 2 <= f2 + length OutCode)%nat ->
    chain f1 Pre Suf mask cur OutCode = chain f2 Pre Suf mask cur OutCode.
Proof.
  induction f1 as [|f1 IH]; intros f2 cur OutCode H1 H2.
  - destruct f2 as [|f2]; cbn [chain]; [reflexivity|].
    destruct (mask <? cur)%Z; [|reflexivity].
    destruct (Z.ltb_spec HSIZE (Z.of_nat (length OutCode))); [reflexivity|]. lia.
  - cbn [chain]. destruct f2 as [|f2]; cbn [chain].
    + destruct (mask <? cur)%Z; [|reflexivity].
      destruct (Z.ltb_spec HSIZE (Z.of_nat (length OutCode))); [reflexivity|]. lia.
    + destruct (mask <? cur)%Z; [|reflexivity].
      destruct (Z.ltb_spec HSIZE (Z.of_nat (length OutCode))); [reflexivity|].
      apply IH; rewrite length_app; cbn [length]; lia.
Qed.

Lemma chain_done (Pre Suf : table) (mask : Z) (fuel : nat) :
  forall cur OutCode c OutCode',
    chain fuel Pre Suf mask cur OutCode = Done (c, OutCode') ->
    (length OutCode <= Z.to_nat HSIZE + 1)%nat ->
    (c <= mask)%Z /\ (length OutCode' <= Z.to_nat HSIZE + 1)%nat
    /\ exists more, OutCode' = (OutCode ++ more)%list.
Proof.
  induction fuel as [|fuel IH]; intros cur OutCode c OutCode' H Hlen; cbn [chain] in H.
  - destruct (Z.ltb_spec mask cur); [discriminate H|]. injection H as <- <-.
    split; [lia|]. split; [exact Hlen|]. exists []. now rewrite app_nil_r.
  - destruct (Z.ltb_spec mask cur).
    + destruct (Z.ltb_spec HSIZE (Z.of_nat (length OutCode))); [discriminate H|].
      apply IH in H as (Hc & Hl & more & ->); [|rewrite length_app; cbn [length]; lia].
      split; [exact Hc|]. split; [exact Hl|].
      exists (entry Suf cur :: more). now rewrite <- app_assoc.
    + injection H as <- <-.
      split; [lia|]. split; [exact Hlen|]. exists []. now rewrite app_nil_r.
Qed.



End Unkompress3Properties.

(** ** vald3/src/vald3_decompress.cpp: further properties *)
Module Vald3ReaderProperties.
Import Ieee Unkompress3 Vald3Reader Spec Unkompress3Facts Vald3ReaderFacts
  Unkompress3Properties.

Lemma push_line_sizes (i n : nat) (tmp o o' : buffers) :
  push_line i tmp o = Done o' -> holds_lines n o -> holds_lines (S n) o'.
Proof.
  unfold push_line, holds_lines, sizes. intros H Ho.
  do 12 (apply bind_done in H as (? & _ & H)).
  destruct (negb _) eqn:E; [discriminate H|]. apply negb_false_iff, Nat.eqb_eq in E.
  injection H as <-. cbn [wl element j_low e_low j_high e_high loggf gamrad gamst gamvw
                            lande_low lande_high str].
  rewrite !length_app, E. cbn [length replicate app] in *.
  injection Ho as -> -> -> -> -> -> -> -> -> -> -> -> ->.
  unfold STR_BYTES_PER_LINE. repeat f_equal; lia.
Qed.

Lemma copy_lines_shape (wl_min wl_max : double) (max_lines : Z) (tmp : buffers)
  (count : nat) :
  forall (i : nat) (total_lines : Z) (o : buffers) (total' : Z) (o' : buffers),
    copy_lines count i wl_min wl_max max_lines tmp total_lines o = Done (total', o') ->
    (0 <= total_lines <= Z.max 0 max_lines)%Z ->
    holds_lines (Z.to_nat total_lines) o ->
    (0 <= total' <= Z.max 0 max_lines)%Z /\ holds_lines (Z.to_nat total') o'.
Proof.
  induction count as [|count IH]; intros i total_lines o total' o' H Ht Ho; simpl in H.
  - injection H as <- <-. auto.
  - destruct (Z.ltb_spec total_lines max_lines); [|injection H as <- <-; auto].
    apply bind_done in H as (w & Hw & H).
    destruct (dge w wl_min && dle w wl_max); [|eapply IH; eauto].
    apply bind_done in H as (o1 & Ho1 & H).
    apply (IH _ _ _ _ _ H); [lia|].
    replace (Z.to_nat (total_lines + 1)) with (S (Z.to_nat total_lines)) by lia.
    eapply push_line_sizes; eauto.
Qed.

Lemma query_loop_shape (fh : Z) (wl_min wl_max : double) (max_lines : Z) (fuel : nat) :
  forall (nlines : Z) (lib : library) (tmp : buffers) (total_lines : Z) (o : buffers)
         (total' : Z) (o' : buffers) (lib' : library),
    query_loop fuel fh wl_min wl_max max_lines nlines lib tmp total_lines o
    = Done (total', o', lib') ->
    (0 <= total_lines <= Z.max 0 max_lines)%Z ->
    holds_lines (Z.to_nat total_lines) o ->
    (0 <= total' <= Z.max 0 max_lines)%Z /\ holds_lines (Z.to_nat total') o'.
Proof.
  induction fuel as [|fuel IH]; intros nlines lib tmp total_lines o total' o' lib' H Ht Ho;
    simpl in H; destruct ((0 <? nlines)%Z && (total_lines <? max_lines)%Z);
    try discriminate H; try (injection H as <- <- _; auto).
  apply bind_done in H as ([total1 o1] & Hcopy & H).
  apply copy_lines_shape in Hcopy as [Ht1 Ho1]; [|exact Ht|exact Ho].
  apply bind_done in H as ([[n1 lib1] tmp1] & _ & H).
  apply bind_done in H as (stop & _ & H).
  destruct stop; [injection H as <- <- _; auto|].
  eapply IH; eauto.
Qed.



Lemma query_loop_ends (fh : Z) (wl_min wl_max : double) (max_lines nlines : Z)
  (lib : library) (tmp : buffers) (total_lines : Z) (o : buffers) (fuel : nat) :
  (nlines <= 0)%Z ->
  query_loop fuel fh wl_min wl_max max_lines nlines lib tmp total_lines o
  = Done (total_lines, o, lib).
Proof.
  intros Hn. destruct fuel; simpl; destruct (Z.ltb_spec 0 nlines); try lia; reflexivity.
Qed.

Lemma query_loop_enough (fh : Z) (wl_min wl_max : double) (max_lines : Z) (fuel1 : nat) :
  forall (fuel2 : nat) (nlines : Z) (lib : library) (tmp : buffers) (total_lines : Z)
         (o : buffers),
    word_count fh lib ->
    (records_left fh lib < fuel1)%nat -> (records_left fh lib < fuel2)%nat ->
    query_loop fuel1 fh wl_min wl_max max_lines nlines lib tmp total_lines o
    = query_loop fuel2 fh wl_min wl_max max_lines nlines lib tmp total_lines o.
Proof.
  induction fuel1 as [|fuel1 IH]; intros fuel2 nlines lib tmp total_lines o Hw H1 H2; [lia|].
  destruct fuel2 as [|fuel2]; [lia|]. cbn [query_loop].
  destruct ((0 <? nlines)%Z && (total_lines <? max_lines)%Z); [|reflexivity].
  destruct (copy_lines _ _ _ _ _ _ _ _) as [[total1 o1]| |]; cbn [bind]; try reflexivity.
  destruct (uknext_ fh lib tmp) as [[[n1 lib1] tmp1]| |] eqn:Hnext; cbn [bind];
    try reflexivity.
  destruct (Z.ltb_spec 0 n1) as [Hpos|Hneg].
  - destruct (fetch (wl tmp1) 0) as [w0| |]; cbn [bind]; try reflexivity.
    destruct (dgt w0 wl_max); [reflexivity|].
    destruct (uknext_advances _ _ _ _ _ _ Hnext Hpos Hw) as [Hless Hw1].
    apply IH; [exact Hw1 | lia | lia].
  - cbn [bind]. rewrite !query_loop_ends by lia. reflexivity.
Qed.



(** X22: every reader uses the handle 1, so one reader can be open at a
    time: after a reader was constructed, constructing another one throws
    with the error code -1 and changes nothing, and [open] on the reader
    itself does nothing; [close] leaves the open files as they were before
    the construction, a second [close] does nothing more, and a query on
    the closed reader throws. *)
Theorem one_reader_at_a_time (big_endian : bool) (stale : Z) (fs : disk)
  (data_filename desc_filename : string) (lib lib1 : library) (this : VALD3Reader) :
  construct big_endian stale fs data_filename desc_filename lib
  = Done (returned this, lib1) ->
  this = mkVALD3Reader 1 true
  /\ (forall big_endian' stale' fs' data' desc',
        construct big_endian' stale' fs' data' desc' lib1
        = Done (thrown "Failed to open VALD3 files. Error code: -1", lib1)
        /\ open big_endian' stale' fs' data' desc' this lib1 = Done (returned this, lib1))
  /\ fst (close this lib1) = mkVALD3Reader 1 false
  /\ open_files (snd (close this lib1)) = open_files lib
  /\ close (fst (close this lib1)) (snd (close this lib1)) = close this lib1
  /\ (forall wl_min wl_max max_lines,
        query_range (fst (close this lib1)) wl_min wl_max max_lines (snd (close this lib1))
        = Done (runtime_error "VALD3 file not open", snd (close this lib1))).
Proof.
  unfold construct, open. cbn [is_open file_handle]. intros H.
  apply bind_done in H as ([result lib'] & Hopen & H).
  destruct (Z.ltb_spec result 0); [discriminate H|]. injection H as <- <-.
  destruct (ukopen_opened _ _ _ _ _ _ _ _ _ Hopen ltac:(assumption))
    as (Hfree & bytes & count & D & Hfiles & Hv & _ & _ & _).
  split; [reflexivity|]. split.
  - intros. split; [|reflexivity].
    rewrite (ukopen_busy _ _ _ _ _ _ _ (mkReader bytes 0 count 0 D))
      by (rewrite Hfiles; apply lookup_insert_eq).
    reflexivity.
  - unfold close, ukclose_. cbn [is_open file_handle fst snd]. rewrite Hv.
    cbn [snd open_files]. split; [reflexivity|]. split; [|split; reflexivity].
    rewrite Hfiles. apply delete_insert_id.
    exact Hfree.
Qed.

(** [one_reader_at_a_time] on the two files of the sample, with a query in between. *)
Lemma one_reader_at_a_time_witness :
  construct false 0 Samples.on_disk "lines.cvald" "lines.dsc" Samples.nothing_open
  = Done (returned (mkVALD3Reader 1 true), Samples.from_disk)
  /\ Samples.holds (Samples.gives_lines 3 [2601; 2800; 2200]%Z)
       (query_range (mkVALD3Reader 1 true) (Finite 4900) (Finite 5100) 10 Samples.from_disk) = true
  /\ construct false 0 Samples.on_disk "lines.cvald" "lines.dsc" Samples.from_disk
     = Done (thrown "Failed to open VALD3 files. Error code: -1", Samples.from_disk)
  /\ open_files (snd (close (mkVALD3Reader 1 true) Samples.from_disk)) = ∅.
Proof.
  assert (E : construct false 0 Samples.on_disk "lines.cvald" "lines.dsc" Samples.nothing_open
              = Done (returned (mkVALD3Reader 1 true), Samples.from_disk))
    by (vm_compute; reflexivity).
  destruct (one_reader_at_a_time false 0 Samples.on_disk "lines.cvald" "lines.dsc" Samples.nothing_open
              Samples.from_disk (mkVALD3Reader 1 true) E) as (_ & Hsecond & _ & Hfiles & _).
  split; [exact E|]. split; [vm_compute; reflexivity|].
  split; [apply Hsecond | exact Hfiles].
Defined.

End Vald3ReaderProperties.
